(** * Elyra Premium Seaters: the client-side behaviour layer

    A shallow embedding of the scripts of the site that carry behaviour:
    security.js (the rate limiter and the input validators),
    calculator.js (the savings calculator) and forms.js (the form
    handler and the navigation system), with the properties the
    specification states about them.

    Conventions of the embedding.
    - A JavaScript string is a [string]; each character stands for one
      code unit, so the strings covered are those of code units below
      256.
    - A number of the calculator is a double, a [spec_float] of the
      Standard Library at 53 bits, with its rounded operations.  Times,
      counts of the rate limiter and the like are whole numbers, [Z].
    - [Date.now()] is an explicit argument [now], in milliseconds.
    - A call that may throw returns a [completion]; a handler that
      threads the page through its steps takes and returns the state of
      the page.
    - An [async] function runs to its [await] at once and resumes before
      the next event is handled; events are handled one at a time. *)

From Stdlib Require Import ZArith QArith Qround String Ascii List Bool Lia.
From Stdlib Require Import Floats.SpecFloat.
From stdpp Require Import base gmap strings pretty list fin_maps.

Local Open Scope string_scope.
Local Open Scope Z_scope.

(* ===================================================================== *)
(** * JavaScript values and completions                                   *)
(* ===================================================================== *)

Module JS.

(** The errors the scripts can raise. *)
Inductive error :=
| TypeError (msg : string)
| Error (msg : string).

(** The outcome of evaluating a call: a value, or a thrown error. *)
Inductive completion (A : Type) :=
| Normal (a : A)
| Throw (e : error).
Arguments Normal {A} a.
Arguments Throw {A} e.

Definition bind {A B} (c : completion A) (k : A -> completion B) : completion B :=
  match c with
  | Normal a => k a
  | Throw e => Throw e
  end.

Definition returns {A} (c : completion A) : bool :=
  match c with Normal _ => true | Throw _ => false end.

(** The empty string is the only string that counts as false. *)
Definition isEmpty (s : string) : bool :=
  match s with EmptyString => true | _ => false end.

End JS.

(* ===================================================================== *)
(** * security.js: the rate limiter of [SecurityFramework]                *)
(* ===================================================================== *)

Module SecurityFramework.

(** The object stored per key: [{ count, timestamp }]. *)
Record entry := { count : Z; timestamp : Z }.

#[export] Instance entry_eq_dec : EqDecision entry.
Proof. solve_decision. Defined.

(** [this.rateLimitStore], a [Map] from key to entry. *)
Abbreviation store := (gmap string entry).

(** [initializeRateLimiting]: [this.rateLimitStore = new Map()]. *)
Definition initializeRateLimiting : store := ∅.

(** The callback of [setInterval(..., 60000)]: [rateLimitStore.clear()]. *)
Definition clearTick (st : store) : store := ∅.

(** The guard of the cleaning loop: [data.timestamp < windowStart]. *)
Definition expired (windowStart : Z) (data : entry) : bool :=
  timestamp data <? windowStart.

(** The loop [for (let [storedKey, data] of store) if (expired) delete]. *)
Definition cleanOldEntries (windowStart : Z) (st : store) : store :=
  filter (fun kd : string * entry => expired windowStart (snd kd) = false) st.

(** [checkRateLimit(key, maxRequests)]: the returned boolean and the
    store after the call. *)
Definition checkRateLimit (now : Z) (key : string) (maxRequests : Z)
    (st : store) : bool * store :=
  let windowStart := now - 60000 in
  let st := cleanOldEntries windowStart st in
  match st !! key with
  | None => (true, <[key := {| count := 1; timestamp := now |}]> st)
  | Some existing =>
      if count existing >=? maxRequests then (false, st)
      else (true, <[key := {| count := count existing + 1; timestamp := now |}]> st)
  end.

(** [maxRequests = 5] when the argument is omitted. *)
Definition defaultMaxRequests : Z := 5.

(** A run of calls on one key with one limit, at the given times:
    the list of results and the final store. *)
Fixpoint checkRateLimit_seq (times : list Z) (key : string) (maxRequests : Z)
    (st : store) : list bool * store :=
  match times with
  | [] => ([], st)
  | now :: rest =>
      let '(b, st1) := checkRateLimit now key maxRequests st in
      let '(bs, st2) := checkRateLimit_seq rest key maxRequests st1 in
      (b :: bs, st2)
  end.

End SecurityFramework.

(* ===================================================================== *)
(** * Regular expressions, as far as the validators use them              *)
(* ===================================================================== *)

Module RegExp.

(** A set of characters: the ranges and the single characters listed
    between the brackets of a class. *)
Inductive item :=
| Range (lo hi : ascii)
| Chars (cs : string).

Definition code (c : ascii) : N := N_of_ascii c.

Fixpoint occurs (c : ascii) (cs : string) : bool :=
  match cs with
  | EmptyString => false
  | String d rest => if Ascii.eqb c d then true else occurs c rest
  end.

Definition in_item (c : ascii) (i : item) : bool :=
  match i with
  | Range lo hi => (code lo <=? code c)%N && (code c <=? code hi)%N
  | Chars cs => occurs c cs
  end.

Definition in_class (cls : list item) (c : ascii) : bool :=
  existsb (in_item c) cls.

(** The white space of [\s] and of [trim] among the code units below 256:
    tab, line feed, vertical tab, form feed, carriage return, space and
    the no-break space. *)
Definition whitespace (c : ascii) : bool :=
  let n := code c in
  ((9 <=? n) && (n <=? 13) || (n =? 32) || (n =? 160))%N.

Inductive regex :=
| Void
| Eps
| Class (p : ascii -> bool)
| Seq (r1 r2 : regex)
| Alt (r1 r2 : regex)
| Star (r : regex).

Definition Set_ (cls : list item) : regex := Class (in_class cls).
Definition Lit (c : ascii) : regex := Class (Ascii.eqb c).
Definition Opt (r : regex) : regex := Alt r Eps.
Definition Plus (r : regex) : regex := Seq r (Star r).

Fixpoint Str (s : string) : regex :=
  match s with
  | EmptyString => Eps
  | String c rest => Seq (Lit c) (Str rest)
  end.

(** [r{n}] and [r{0,n}]. *)
Fixpoint Times (n : nat) (r : regex) : regex :=
  match n with
  | O => Eps
  | S k => Seq r (Times k r)
  end.

Fixpoint UpTo (n : nat) (r : regex) : regex :=
  match n with
  | O => Eps
  | S k => Opt (Seq r (UpTo k r))
  end.

Fixpoint nullable (r : regex) : bool :=
  match r with
  | Void => false
  | Eps => true
  | Class _ => false
  | Seq r1 r2 => nullable r1 && nullable r2
  | Alt r1 r2 => nullable r1 || nullable r2
  | Star _ => true
  end.

Definition mkSeq (r1 r2 : regex) : regex :=
  match r1, r2 with
  | Void, _ => Void
  | _, Void => Void
  | Eps, _ => r2
  | _, _ => Seq r1 r2
  end.

Definition mkAlt (r1 r2 : regex) : regex :=
  match r1, r2 with
  | Void, _ => r2
  | _, Void => r1
  | _, _ => Alt r1 r2
  end.

(** The derivative of a regular expression by one character. *)
Fixpoint deriv (c : ascii) (r : regex) : regex :=
  match r with
  | Void => Void
  | Eps => Void
  | Class p => if p c then Eps else Void
  | Seq r1 r2 =>
      mkAlt (mkSeq (deriv c r1) r2) (if nullable r1 then deriv c r2 else Void)
  | Alt r1 r2 => mkAlt (deriv c r1) (deriv c r2)
  | Star r1 => mkSeq (deriv c r1) (Star r1)
  end.

(** [/^r$/.test(s)]: the whole of [s] is matched by [r]. *)
Fixpoint test (r : regex) (s : string) : bool :=
  match s with
  | EmptyString => nullable r
  | String c rest => test (deriv c r) rest
  end.

(** The strings a regular expression matches, by its structure. *)
Inductive matches : regex -> string -> Prop :=
| matchesEps : matches Eps ""
| matchesClass (p : ascii -> bool) (c : ascii) :
    p c = true -> matches (Class p) (String c "")
| matchesSeq (r1 r2 : regex) (s1 s2 : string) :
    matches r1 s1 -> matches r2 s2 -> matches (Seq r1 r2) (s1 ++ s2)
| matchesAltL (r1 r2 : regex) (s : string) : matches r1 s -> matches (Alt r1 r2) s
| matchesAltR (r1 r2 : regex) (s : string) : matches r2 s -> matches (Alt r1 r2) s
| matchesStarNil (r : regex) : matches (Star r) ""
| matchesStarCons (r : regex) (s1 s2 : string) :
    matches r s1 -> matches (Star r) s2 -> matches (Star r) (s1 ++ s2).

End RegExp.

(* ===================================================================== *)
(** * security.js: [InputValidator]                                       *)
(* ===================================================================== *)

Module InputValidator.
Import JS RegExp.

(** The arguments a caller can pass: the primitive values. *)
Inductive value :=
| VUndefined
| VNull
| VBoolean (b : bool)
| VNumber (n : Z)
| VString (s : string).

(** [typeof v === 'string']. *)
Definition isString (v : value) : bool :=
  match v with VString _ => true | _ => false end.

(** The conversion to a string that [RegExp.prototype.test] applies to
    its argument (numbers: the integers printed without an exponent). *)
Definition toString (v : value) : string :=
  match v with
  | VUndefined => "undefined"
  | VNull => "null"
  | VBoolean true => "true"
  | VBoolean false => "false"
  | VNumber n => pretty n
  | VString s => s
  end.

(** [s.trim()]. *)
Fixpoint trimStart (s : string) : string :=
  match s with
  | EmptyString => EmptyString
  | String c rest => if whitespace c then trimStart rest else s
  end.

Fixpoint trimEnd (s : string) : string :=
  match s with
  | EmptyString => EmptyString
  | String c rest =>
      match trimEnd rest with
      | EmptyString => if whitespace c then EmptyString else String c EmptyString
      | t => String c t
      end
  end.

Definition trim (s : string) : string := trimEnd (trimStart s).

(** [s.replace(/c/g, rep)] for a single character [c], and
    [s.replace(/\s/g, '')]. *)
Fixpoint replaceAll (c : ascii) (rep : string) (s : string) : string :=
  match s with
  | EmptyString => EmptyString
  | String d rest =>
      if Ascii.eqb d c then rep ++ replaceAll c rep rest
      else String d (replaceAll c rep rest)
  end.

Fixpoint removeWhitespace (s : string) : string :=
  match s with
  | EmptyString => EmptyString
  | String c rest =>
      if whitespace c then removeWhitespace rest else String c (removeWhitespace rest)
  end.

Definition quote : ascii := ascii_of_nat 34.
Definition apostrophe : ascii := ascii_of_nat 39.

Definition alnum : list item := [Range "a" "z"; Range "A" "Z"; Range "0" "9"].
Definition alnumHyphen : list item := alnum ++ [Chars "-"].

(** One label of the domain:
    [[a-zA-Z0-9](?:[a-zA-Z0-9-]{0,61}[a-zA-Z0-9])?]. *)
Definition label : regex :=
  Seq (Set_ alnum) (Opt (Seq (UpTo 61 (Set_ alnumHyphen)) (Set_ alnum))).

(** The regular expression of [validateEmail]. *)
Definition emailRegex : regex :=
  Seq (Plus (Set_ (alnum ++ [Chars ".!#$%&"; Chars (String apostrophe "");
                             Chars "*+/=?^_`{|}~-"])))
      (Seq (Lit "@") (Seq label (Star (Seq (Lit ".") label)))).

(** The regular expression of [validatePhone]:
    [^(\+?254|0)?[17]\d{8}$]. *)
Definition phoneRegex : regex :=
  Seq (Opt (Alt (Seq (Opt (Lit "+")) (Str "254")) (Lit "0")))
      (Seq (Set_ [Chars "17"]) (Times 8 (Set_ [Range "0" "9"]))).

(** The regular expression of [validateName]: [^[a-zA-Z\s\-']+$]. *)
Definition nameClass (c : ascii) : bool :=
  in_class [Range "a" "z"; Range "A" "Z"; Chars "-"; Chars (String apostrophe "")] c
  || whitespace c.

Definition nameRegex : regex := Plus (Class nameClass).

Definition validateEmail (email : value) : completion bool :=
  Normal (test emailRegex (toString email)).

(** The body of [validatePhone] once [phone] is known to be a string. *)
Definition phoneTest (s : string) : bool := test phoneRegex (removeWhitespace s).

(** The three conjuncts of [validateName] that follow the [typeof] test. *)
Definition nameTest (s : string) : bool :=
  (2 <=? Z.of_nat (String.length (trim s)))
  && (Z.of_nat (String.length (trim s)) <=? 50)
  && test nameRegex s.

(** The chain of replacements of [sanitizeInput], after the [typeof] test. *)
Definition sanitizeString (s : string) : string :=
  replaceAll "/" "&#x2F;"
    (replaceAll apostrophe "&#x27;"
      (replaceAll quote "&quot;"
        (replaceAll ">" "&gt;"
          (replaceAll "<" "&lt;" (trim s))))).

(** [phone.replace] exists on strings only: reading it off [undefined] or
    [null] throws, and on a boolean or a number it is [undefined], which
    cannot be called. *)
Definition validatePhone (phone : value) : completion bool :=
  match phone with
  | VString s => Normal (phoneTest s)
  | VUndefined =>
      Throw (TypeError "Cannot read properties of undefined (reading 'replace')")
  | VNull =>
      Throw (TypeError "Cannot read properties of null (reading 'replace')")
  | VBoolean _ | VNumber _ =>
      Throw (TypeError "phone.replace is not a function")
  end.

Definition validateName (name : value) : completion bool :=
  match name with
  | VString s => Normal (nameTest s)
  | _ => Normal false
  end.

Definition sanitizeInput (input : value) : completion string :=
  match input with
  | VString s => Normal (sanitizeString s)
  | _ => Normal ""
  end.

End InputValidator.

(* ===================================================================== *)
(** * forms.js: [FormHandler]                                             *)
(* ===================================================================== *)

Module FormHandler.
Import JS RegExp InputValidator.

(** An [input], [select] or [textarea] of the form, with the marks
    that [showFieldError] and [clearFieldError] put on the control
    itself: the attribute [aria-invalid] and the class [error].
    [fieldId] is [field.id], the empty string when the control has no
    id. *)
Record field := {
  fieldId : string;
  fieldName : string;
  fieldType : string;
  tagName : string;
  required : bool;
  fieldValue : string;
  defaultValue : string;
  ariaInvalid : option string;
  errorClass : bool
}.

(** An element that [document.getElementById] can find: its id and its
    text.  [showFieldError] appends one, a [div.error-message] with the
    id [<field.id>-error], for every message it shows. *)
Record errorMessage := {
  messageId : string;
  messageText : string
}.

(** A value of an entry of [FormData]: a string, or a [File]. *)
Inductive entryValue :=
| EntryString (s : string)
| EntryFile.

(** A value of the object built by [collectFormData]: a string, or the
    ISO text of an instant. *)
Inductive datum :=
| DataText (s : string)
| DataInstant (now : Z).

(** The submit control. *)
Record button := {
  disabled : bool;
  ariaDisabled : option string;
  textContent : string;
  classList : list string
}.

(** The element [.global-notification]: its text and its type. *)
Record notification := { message : string; kind : string }.

(** The object built by [collectFormData]: its own properties. *)
Abbreviation formData := (gmap string datum).

Inductive consoleEntry :=
| ConsoleError (label : string) (e : error)
| ConsoleLog (label : string) (data : formData).

(** The part of the page a submission reads and writes.
    [errorMessages] are the elements that a lookup by id finds, in the
    order in which it meets them; an element appended to the parent of
    a control is taken to come after those already there, and the
    controls themselves are taken not to carry the id of a message. *)
Record document := {
  rateLimitStore : gmap string SecurityFramework.entry;
  csrfToken : string;
  userAgent : string;
  fields : list field;
  errorMessages : list errorMessage;
  submitButton : option button;
  globalNotification : option notification;
  console : list consoleEntry
}.

(** What the browser contributes to one submission: the draw of
    [Math.random()], the entry list that [new FormData(form)] constructs
    from the form as it stands (the controls the browser counts as
    successful, in their order, each with its name and value), an
    exception raised by one of the calls into it, and what other
    handlers do to the document while the submission waits. *)
Record browser := {
  random : Q;
  formEntries : document -> list (string * entryValue);
  collectThrows : option error;
  notifyThrows : option error;
  resetThrows : option error;
  duringWait : document -> document
}.

(** State and exceptions. *)
Definition M (A : Type) : Type := document -> document * completion A.

Definition ret {A} (a : A) : M A := fun d => (d, Normal a).
Definition throw {A} (e : error) : M A := fun d => (d, Throw e).
Definition bindM {A B} (m : M A) (k : A -> M B) : M B :=
  fun d => match m d with
           | (d1, Normal a) => k a d1
           | (d1, Throw e) => (d1, Throw e)
           end.
Definition get : M document := fun d => (d, Normal d).
Definition modify (f : document -> document) : M unit := fun d => (f d, Normal tt).
Definition raiseIf (o : option error) : M unit :=
  match o with Some e => throw e | None => ret tt end.

Declare Scope js_scope.
Delimit Scope js_scope with js.
Notation "x <- m ;; k" := (bindM m (fun x => k))
  (at level 62, m at next level, right associativity) : js_scope.
Notation "m ;;; k" := (bindM m (fun _ => k))
  (at level 62, right associativity) : js_scope.
Local Open Scope js_scope.

(** [try { body } catch (error) { handler } finally { finalizer }]. *)
Definition try_catch_finally {A} (body : M A) (handler : error -> M A)
    (finalizer : M unit) : M A :=
  fun d =>
    let '(d1, c1) := body d in
    let '(d2, c2) := match c1 with
                     | Normal a => (d1, Normal a)
                     | Throw e => handler e d1
                     end in
    let '(d3, c3) := finalizer d2 in
    match c3 with
    | Normal _ => (d3, c2)
    | Throw e => (d3, Throw e)
    end.

Definition set_rateLimitStore (st : gmap string SecurityFramework.entry) (d : document) :=
  {| rateLimitStore := st; csrfToken := csrfToken d; userAgent := userAgent d;
     fields := fields d; errorMessages := errorMessages d; submitButton := submitButton d;
     globalNotification := globalNotification d; console := console d |}.

Definition set_fields (fs : list field) (d : document) :=
  {| rateLimitStore := rateLimitStore d; csrfToken := csrfToken d; userAgent := userAgent d;
     fields := fs; errorMessages := errorMessages d; submitButton := submitButton d;
     globalNotification := globalNotification d; console := console d |}.

Definition set_submitButton (b : option button) (d : document) :=
  {| rateLimitStore := rateLimitStore d; csrfToken := csrfToken d; userAgent := userAgent d;
     fields := fields d; errorMessages := errorMessages d; submitButton := b;
     globalNotification := globalNotification d; console := console d |}.

Definition set_globalNotification (n : option notification) (d : document) :=
  {| rateLimitStore := rateLimitStore d; csrfToken := csrfToken d; userAgent := userAgent d;
     fields := fields d; errorMessages := errorMessages d; submitButton := submitButton d;
     globalNotification := n; console := console d |}.

Definition set_errorMessages (ms : list errorMessage) (d : document) :=
  {| rateLimitStore := rateLimitStore d; csrfToken := csrfToken d; userAgent := userAgent d;
     fields := fields d; errorMessages := ms; submitButton := submitButton d;
     globalNotification := globalNotification d; console := console d |}.

Definition consoleWrite (e : consoleEntry) (d : document) :=
  {| rateLimitStore := rateLimitStore d; csrfToken := csrfToken d; userAgent := userAgent d;
     fields := fields d; errorMessages := errorMessages d; submitButton := submitButton d;
     globalNotification := globalNotification d; console := console d ++ [e] |}.

(** The call [Security.checkRateLimit(key, max)] on the store of the page. *)
Definition securityCheck (now : Z) (key : string) (max : Z) : M bool :=
  fun d =>
    let '(ok, st) := SecurityFramework.checkRateLimit now key max (rateLimitStore d) in
    (set_rateLimitStore st d, Normal ok).

(** [existing = document.getElementById(id); if (existing) existing.remove()]:
    the first element with the id leaves the document. *)
Fixpoint removeById (id : string) (ms : list errorMessage) : list errorMessage :=
  match ms with
  | [] => []
  | m :: rest =>
      if bool_decide (messageId m = id) then rest else m :: removeById id rest
  end.

(** The control with its two marks set. *)
Definition mark (f : field) (invalid : bool) : field :=
  {| fieldId := fieldId f; fieldName := fieldName f; fieldType := fieldType f;
     tagName := tagName f; required := required f; fieldValue := fieldValue f;
     defaultValue := defaultValue f;
     ariaInvalid := Some (if invalid then "true" else "false"); errorClass := invalid |}.

(** [clearFieldError(field)]: the control and the elements found by id
    afterwards. *)
Definition clearFieldError (f : field) (ms : list errorMessage)
    : field * list errorMessage :=
  (mark f false, removeById (fieldId f ++ "-error") ms).

(** [showFieldError(field, message)]. *)
Definition showFieldError (f : field) (msg : string) (ms : list errorMessage)
    : field * list errorMessage :=
  let '(f1, ms1) := clearFieldError f ms in
  (mark f1 true,
   (ms1 ++ [{| messageId := fieldId f ++ "-error"; messageText := msg |}])%list).

(** The checks of [validateField], in the order of the script: the
    verdict and the message of the last check that failed.  [value] is a
    string, so the validators are entered past their [typeof] tests. *)
Definition fieldVerdict (f : field) : bool * string :=
  let value := trim (fieldValue f) in
  let r1 := if required f && isEmpty value
            then (false, "This field is required") else (true, "") in
  let r2 :=
    if fst r1 && negb (isEmpty value) then
      if bool_decide (fieldType f = "email") then
        if negb (test emailRegex value)
        then (false, "Please enter a valid email address") else r1
      else if bool_decide (fieldType f = "tel") then
        if negb (phoneTest value)
        then (false, "Please enter a valid Kenyan phone number") else r1
      else if bool_decide (fieldType f = "text") then
        if bool_decide (fieldName f = "name") && negb (nameTest value)
        then (false, "Please enter a valid name (2-50 characters)") else r1
      else r1
    else r1 in
  if bool_decide (tagName f = "SELECT") && required f && isEmpty value
  then (false, "Please select an option") else r2.

(** [validateField(field)]: the verdict, the control with its marks
    and the elements found by id afterwards. *)
Definition validateField (f : field) (ms : list errorMessage)
    : bool * (field * list errorMessage) :=
  let '(isValid, errorMessage) := fieldVerdict f in
  (isValid, if isValid then clearFieldError f ms else showFieldError f errorMessage ms).

(** The loop [fields.forEach(field => { if (!validateField(field)) isValid = false })]. *)
Fixpoint validateEach (fs : list field) (ms : list errorMessage)
    : bool * (list field * list errorMessage) :=
  match fs with
  | [] => (true, ([], ms))
  | f :: rest =>
      let '(ok, (f1, ms1)) := validateField f ms in
      let '(isValid, (rest1, ms2)) := validateEach rest ms1 in
      (ok && isValid, (f1 :: rest1, ms2))
  end.

Definition validateAll : M bool :=
  fun d =>
    let '(isValid, (fs, ms)) := validateEach (fields d) (errorMessages d) in
    (set_errorMessages ms (set_fields fs d), Normal isValid).

Definition classList_add (c : string) (l : list string) : list string :=
  if bool_decide (c ∈ l) then l else l ++ [c].

Definition classList_remove (c : string) (l : list string) : list string :=
  filter (fun x => x <> c) l.

(** [setLoadingState(button, isLoading, originalText)]. *)
Definition setLoadingState (b : button) (isLoading : bool) (originalText : string) : button :=
  if isLoading then
    {| disabled := true; ariaDisabled := Some "true"; textContent := "Sending...";
       classList := classList_add "loading" (classList b) |}
  else
    {| disabled := false; ariaDisabled := Some "false"; textContent := originalText;
       classList := classList_remove "loading" (classList b) |}.

(** The call [this.setLoadingState(submitButton, ...)] on the button the
    handler holds. *)
Definition setLoading (isLoading : bool) (originalText : string) : M unit :=
  modify (fun d =>
    set_submitButton
      (option_map (fun b => setLoadingState b isLoading originalText) (submitButton d)) d).

(** [showNotification(message, type)]: the previous notification is
    replaced.  (Its removal after five seconds is a later event.) *)
Definition showNotification (env : browser) (msg : string) (type : string) : M unit :=
  raiseIf (notifyThrows env) ;;;
  modify (set_globalNotification (Some {| message := msg; kind := type |})).

(** [sanitizedData[key] = value] on a plain object: the key
    [__proto__] reaches the setter of [Object.prototype], which ignores
    a string, so no property is made. *)
Definition assign (key : string) (value : datum) (data : formData) : formData :=
  if bool_decide (key = "__proto__") then data else <[key := value]> data.

(** [InputValidator.sanitizeInput(value)] on a value of an entry: a
    [File] is not a string and gives the empty string. *)
Definition sanitizedEntry (value : entryValue) : string :=
  match value with
  | EntryString s => sanitizeString s
  | EntryFile => ""
  end.

(** The loop over [data.entries()]. *)
Definition sanitizeEntries (entries : list (string * entryValue)) : formData :=
  foldl (fun sanitizedData entry =>
           assign (fst entry) (DataText (sanitizedEntry (snd entry))) sanitizedData)
        ∅ entries.

(** [collectFormData(form)]: every entry of the form sanitized, then the
    three properties of the metadata, written into the same object. *)
Definition collectFormData (env : browser) (now : Z) : M formData :=
  raiseIf (collectThrows env) ;;;
  d <- get ;;
  ret (<["_userAgent" := DataText (String.substring 0 100 (userAgent d))]>
         (<["_timestamp" := DataInstant now]>
            (<["_csrf" := DataText (csrfToken d)]>
               (sanitizeEntries (formEntries env d))))).

(** [await this.processFormSubmission(formData)]: the handler is
    suspended while other handlers run; then the timer rejects with
    probability one tenth and resolves otherwise. *)
Definition processFormSubmission (env : browser) (data : formData) : M unit :=
  modify (duringWait env) ;;;
  if Qle_bool (1 # 10) (random env)
  then modify (consoleWrite (ConsoleLog "Form data would be sent to:" data))
  else throw (Error "Network error").

(** [form.reset()]. *)
Definition formReset (env : browser) : M unit :=
  raiseIf (resetThrows env) ;;;
  modify (fun d =>
    set_fields
      (map (fun f =>
              {| fieldId := fieldId f; fieldName := fieldName f; fieldType := fieldType f;
                 tagName := tagName f; required := required f; fieldValue := defaultValue f;
                 defaultValue := defaultValue f; ariaInvalid := ariaInvalid f;
                 errorClass := errorClass f |})
           (fields d)) d).

(** [handleFormSubmission(form)], run at time [now]. *)
Definition handleFormSubmission (env : browser) (now : Z) : M unit :=
  allowed <- securityCheck now "form_submission" 3 ;;
  if negb allowed then
    showNotification env "Please wait before submitting another form" "error"
  else
    isValid <- validateAll ;;
    if negb isValid then
      showNotification env "Please fix the errors in the form before submitting" "error"
    else
      d <- get ;;
      match submitButton d with
      | None => throw (TypeError "Cannot read properties of null (reading 'textContent')")
      | Some submit =>
          let originalText := textContent submit in
          setLoading true "" ;;;
          try_catch_finally
            (data <- collectFormData env now ;;
             processFormSubmission env data ;;;
             showNotification env
               "Thank you! We have received your inquiry and will contact you within 24 hours."
               "success" ;;;
             formReset env)
            (fun error =>
               modify (consoleWrite (ConsoleError "Form submission error:" error)) ;;;
               showNotification env
                 "Sorry, there was an error sending your message. Please try again or contact us directly."
                 "error")
            (setLoading false originalText)
      end.

(** The submit control in its ready state, showing [text]. *)
Definition ready (text : string) (b : button) : Prop :=
  disabled b = false /\ ariaDisabled b = Some "false" /\
  textContent b = text /\ "loading" ∉ classList b.

End FormHandler.

(* ===================================================================== *)
(** * forms.js: [NavigationSystem]                                        *)
(* ===================================================================== *)

Module NavigationSystem.
Import JS.

(** The page coordinators the router constructs. *)
Inductive coordinator :=
| FormHandlerObject (n : nat)
| CalculatorObject (n : nat).

#[export] Instance coordinator_eq_dec : EqDecision coordinator.
Proof. solve_decision. Defined.

(** What a script writes into the elements of [main] after they are
    built: the default values that [loadInitialValues] puts into the
    controls it finds, and the messages under the fields and the texts
    of the result elements that the first [validateAndCalculate] of a
    [Calculator] leaves when the rate limiter lets it run. *)
Inductive write :=
| InitialValues (owner : coordinator)
| FirstCalculation (owner : coordinator).

(** The element [main]: the markup last assigned to [innerHTML], the
    listeners attached to the elements built from it, as (element id,
    event, owner), and what has been written into those elements since.
    Assigning [innerHTML] discards the elements and with them their
    listeners and what was written into them. *)
Record region := {
  innerHTML : string;
  elementListeners : list (string * string * coordinator);
  written : list write
}.

(** A link of [.nav-links]. *)
Record navLink := {
  dataPage : string;
  ariaCurrent : option string;
  activeClass : bool
}.

Inductive logEntry :=
| ErrorLoadingPage (e : error)
| CalculatorError (msg : string).

Record state := {
  currentPage : string;
  hash : string;
  pendingHashChanges : nat;
  main : option region;
  navLinks : list navLink;
  documentListeners : list (string * coordinator);
  constructed : nat;
  rateLimitStore : gmap string SecurityFramework.entry;
  console : list logEntry;
  unhandledRejections : list error
}.

(** What the class uses without defining it, and what the browser
    decides.  [generatePageContent] calls four generators that the class
    announces (the comment at its end) but does not contain: each is
    given here by what its call does.  [calculatorLoaded] is the test
    [typeof Calculator !== 'undefined'], and [hasElement markup id] tells
    whether [document.getElementById(id)] finds an element once [markup]
    is the content of [main]. *)
Record environment := {
  generateSolutionsPage : completion string;
  generateModelsPage : completion string;
  generateCalculatorPage : completion string;
  generateContactPage : completion string;
  calculatorLoaded : bool;
  hasElement : string -> string -> bool
}.

Definition set_page (page : string) (st : state) : state :=
  {| currentPage := page; hash := hash st; pendingHashChanges := pendingHashChanges st;
     main := main st; navLinks := navLinks st; documentListeners := documentListeners st;
     constructed := constructed st; rateLimitStore := rateLimitStore st;
     console := console st; unhandledRejections := unhandledRejections st |}.

(** [window.location.hash = page]; the browser queues a [hashchange]
    event when the fragment changes. *)
Definition set_hash (page : string) (st : state) : state :=
  {| currentPage := currentPage st; hash := page;
     pendingHashChanges :=
       if bool_decide (hash st = page) then pendingHashChanges st
       else S (pendingHashChanges st);
     main := main st; navLinks := navLinks st; documentListeners := documentListeners st;
     constructed := constructed st; rateLimitStore := rateLimitStore st;
     console := console st; unhandledRejections := unhandledRejections st |}.

Definition set_main (r : option region) (st : state) : state :=
  {| currentPage := currentPage st; hash := hash st;
     pendingHashChanges := pendingHashChanges st;
     main := r; navLinks := navLinks st; documentListeners := documentListeners st;
     constructed := constructed st; rateLimitStore := rateLimitStore st;
     console := console st; unhandledRejections := unhandledRejections st |}.

Definition set_navLinks (l : list navLink) (st : state) : state :=
  {| currentPage := currentPage st; hash := hash st;
     pendingHashChanges := pendingHashChanges st;
     main := main st; navLinks := l; documentListeners := documentListeners st;
     constructed := constructed st; rateLimitStore := rateLimitStore st;
     console := console st; unhandledRejections := unhandledRejections st |}.

Definition log (e : logEntry) (st : state) : state :=
  {| currentPage := currentPage st; hash := hash st;
     pendingHashChanges := pendingHashChanges st;
     main := main st; navLinks := navLinks st; documentListeners := documentListeners st;
     constructed := constructed st; rateLimitStore := rateLimitStore st;
     console := console st ++ [e]; unhandledRejections := unhandledRejections st |}.

(** A promise nobody awaits is rejected. *)
Definition reject (e : error) (st : state) : state :=
  {| currentPage := currentPage st; hash := hash st;
     pendingHashChanges := pendingHashChanges st;
     main := main st; navLinks := navLinks st; documentListeners := documentListeners st;
     constructed := constructed st; rateLimitStore := rateLimitStore st;
     console := console st; unhandledRejections := unhandledRejections st ++ [e] |}.

Definition validPages : list string :=
  ["home"; "solutions"; "models"; "calculator"; "contact"].

Definition isValidPage (page : string) : bool := bool_decide (page ∈ validPages).

(** A text between double quotes. *)
Definition quoted (s : string) : string :=
  String (ascii_of_nat 34) (s ++ String (ascii_of_nat 34) "").

(** The template of [generateHomePage], without the white space between
    its tags. *)
Definition homeMarkup : string :=
  "<section class=" ++ quoted "hero" ++ " aria-labelledby=" ++ quoted "hero-heading" ++ ">"
  ++ "<div class=" ++ quoted "hero-content" ++ ">"
  ++ "<h1 id=" ++ quoted "hero-heading" ++ ">Premium Electric Safari Experiences</h1>"
  ++ "<p>Luxury Seating. Zero Emissions. Unforgettable Journeys. Upgrade your fleet with premium electric vehicles with $0 upfront cost.</p>"
  ++ "<div class=" ++ quoted "hero-buttons" ++ ">"
  ++ "<button class=" ++ quoted "btn-primary" ++ " data-page=" ++ quoted "calculator"
  ++ ">Calculate Your Savings</button>"
  ++ "<button class=" ++ quoted "btn-secondary" ++ " data-page=" ++ quoted "contact"
  ++ ">Book a Demo Safari</button></div>"
  ++ "<div class=" ++ quoted "hero-stats" ++ ">"
  ++ "<div class=" ++ quoted "stat" ++ "><h3>50-60%</h3><p>Cost Savings vs Diesel</p></div>"
  ++ "<div class=" ++ quoted "stat" ++ "><h3>KES 0</h3><p>Upfront Investment</p></div>"
  ++ "<div class=" ++ quoted "stat" ++ "><h3>Premium</h3><p>Luxury Seating</p></div>"
  ++ "</div></div></section>".

Definition generateHomePage : completion string := Normal homeMarkup.

Fixpoint property (key : string) (object : list (string * string)) : option string :=
  match object with
  | [] => None
  | (k, v) :: rest => if bool_decide (k = key) then Some v else property key rest
  end.

Section Router.
Variable env : environment.

(** [generatePageContent(page)]: the object literal evaluates the five
    generators in order, then [pageTemplates[page] || generateHomePage()].
    Only the five own keys are looked up here; [navigateTo] passes no
    other. *)
Definition generatePageContent (page : string) : completion string :=
  bind generateHomePage (fun home =>
  bind (generateSolutionsPage env) (fun solutions =>
  bind (generateModelsPage env) (fun models =>
  bind (generateCalculatorPage env) (fun calculator =>
  bind (generateContactPage env) (fun contact =>
    let pageTemplates :=
      [("home", home); ("solutions", solutions); ("models", models);
       ("calculator", calculator); ("contact", contact)] in
    match property page pageTemplates with
    | Some content => if isEmpty content then generateHomePage else Normal content
    | None => generateHomePage
    end))))).

(** [new FormHandler()]: [setupGlobalFormHandler] adds three listeners
    to [document]; nothing in the scripts removes a listener. *)
Definition newFormHandler (st : state) : state :=
  let this := FormHandlerObject (constructed st) in
  {| currentPage := currentPage st; hash := hash st;
     pendingHashChanges := pendingHashChanges st;
     main := main st; navLinks := navLinks st;
     documentListeners :=
       documentListeners st ++ [("submit", this); ("blur", this); ("input", this)];
     constructed := S (constructed st); rateLimitStore := rateLimitStore st;
     console := console st; unhandledRejections := unhandledRejections st |}.

(** The listeners of [Calculator.setupEventListeners]: one per input and
    one for the select, each only if the element is found. *)
Definition calculatorListeners (this : coordinator) (markup : string)
    : list (string * string * coordinator) :=
  flat_map (fun inputId =>
              if hasElement env markup inputId then [(inputId, "input", this)] else [])
           ["currentDiesel"; "monthlyKm"; "vehicleCount"]
  ++ (if hasElement env markup "ppaModel" then [("ppaModel", "change", this)] else []).

(** [new Calculator()]: [setupEventListeners], then [loadInitialValues],
    which writes the defaults and ends in [validateAndCalculate]: one
    call of the rate limiter and, when it denies, an error on the
    console; when it allows, the validations and the calculation write
    their messages and results into the elements of [main]. *)
Definition newCalculator (now : Z) (st : state) : state :=
  let this := CalculatorObject (constructed st) in
  let '(ok, store) :=
    SecurityFramework.checkRateLimit now "calculator_usage" 10 (rateLimitStore st) in
  let main' :=
    match main st with
    | Some r =>
        Some {| innerHTML := innerHTML r;
                elementListeners :=
                  elementListeners r ++ calculatorListeners this (innerHTML r);
                written :=
                  written r ++ [InitialValues this]
                  ++ (if ok then [FirstCalculation this] else []) |}
    | None => None
    end in
  {| currentPage := currentPage st; hash := hash st;
     pendingHashChanges := pendingHashChanges st;
     main := main'; navLinks := navLinks st;
     documentListeners := documentListeners st;
     constructed := S (constructed st); rateLimitStore := store;
     console :=
       if ok then console st
       else console st ++ [CalculatorError "Please wait before making more calculations"];
     unhandledRejections := unhandledRejections st |}.

(** [initializePageFunctionality(page)].  The class [FormHandler] is
    declared in the same script as the router. *)
Definition initializePageFunctionality (now : Z) (page : string) (st : state) : state :=
  if bool_decide (page = "calculator") then
    if calculatorLoaded env then newCalculator now st else st
  else if bool_decide (page = "contact") then newFormHandler st
  else st.

(** [loadPageContent(page)].  In the [catch] block the failure is logged
    and [this.loadErrorPage()] is called; the class has no method of
    that name, so the call throws and the promise of [loadPageContent],
    which nobody awaits, is rejected. *)
Definition loadPageContent (now : Z) (page : string) (st : state) : state :=
  let attempt : state * completion unit :=
    match generatePageContent page with
    | Throw e => (st, Throw e)
    | Normal content =>
        match main st with
        | None =>
            (st, Throw (TypeError "Cannot set properties of null (setting 'innerHTML')"))
        | Some _ =>
            (initializePageFunctionality now page
               (set_main (Some {| innerHTML := content; elementListeners := []; written := [] |}) st),
             Normal tt)
        end
    end in
  match attempt with
  | (st1, Normal _) => st1
  | (st1, Throw error) =>
      reject (TypeError "this.loadErrorPage is not a function")
        (log (ErrorLoadingPage error) st1)
  end.

(** [updateActiveNav(page)]. *)
Definition updateActiveNav (page : string) (st : state) : state :=
  set_navLinks
    (map (fun link =>
            {| dataPage := dataPage link;
               ariaCurrent :=
                 Some (if bool_decide (dataPage link = page) then "page" else "false");
               activeClass := bool_decide (dataPage link = page) |})
         (navLinks st))
    st.

(** [navigateTo(page)], handled to completion at time [now].  The call
    [loadPageContent(page)] suspends at its [await] and resumes once
    [navigateTo] has returned, before any other event is handled: the
    links are updated first. *)
Definition navigateTo (now : Z) (page : string) (st : state) : state :=
  let page := if isValidPage page then page else "home" in
  let st := set_page page st in
  let st := set_hash page st in
  let st := updateActiveNav page st in
  loadPageContent now page st.

(** [handleRouteChange()]. *)
Definition handleRouteChange (now : Z) (st : state) : state :=
  navigateTo now (if isEmpty (hash st) then "home" else hash st) st.

(** The listener on [hashchange], when such an event is queued. *)
Definition hashchange (now : Z) (st : state) : state :=
  match pendingHashChanges st with
  | O => st
  | S n =>
      handleRouteChange now
        {| currentPage := currentPage st; hash := hash st; pendingHashChanges := n;
           main := main st; navLinks := navLinks st;
           documentListeners := documentListeners st;
           constructed := constructed st; rateLimitStore := rateLimitStore st;
           console := console st; unhandledRejections := unhandledRejections st |}
  end.

(** A run of [navigateTo] calls, each with its time. *)
Fixpoint navigateAll (calls : list (Z * string)) (st : state) : state :=
  match calls with
  | [] => st
  | (now, page) :: rest => navigateAll rest (navigateTo now page st)
  end.

End Router.

(** The coordinators that still listen: the owners of the listeners on
    [document] and on the elements of [main]. *)
Definition listening (st : state) : list coordinator :=
  remove_dups
    (map snd (documentListeners st)
     ++ match main st with
        | Some r => map snd (elementListeners r)
        | None => []
        end).

(** The links written by [loadNavigation]. *)
Definition initialLinks : list navLink :=
  map (fun page => {| dataPage := page; ariaCurrent := None; activeClass := false |})
      validPages.

(** The router after its constructor, on a page whose [main] holds
    [markup] and whose address has the fragment [fragment]. *)
Definition initialState (fragment markup : string) : state :=
  {| currentPage := "home"; hash := fragment; pendingHashChanges := 0;
     main := Some {| innerHTML := markup; elementListeners := []; written := [] |};
     navLinks := initialLinks; documentListeners := []; constructed := 0;
     rateLimitStore := ∅; console := []; unhandledRejections := [] |}.

End NavigationSystem.

(* ===================================================================== *)
(** * JavaScript numbers                                                  *)
(* ===================================================================== *)

Module Number.

(** A number is a double: [spec_float] at 53 bits of precision, with
    the operations of IEEE 754 that the Standard Library defines, each
    result rounded to the nearest double, ties to even. *)
Definition number : Type := spec_float.
Definition prec : Z := 53.
Definition emax : Z := 1024.

(** The literal [0]. *)
Definition zero : number := S754_zero false.

(** The operators [*], [/], [+], [-], [<] and [>]. *)
Definition mul (x y : number) : number := SFmul prec emax x y.
Definition div (x y : number) : number := SFdiv prec emax x y.
Definition add (x y : number) : number := SFadd prec emax x y.
Definition sub (x y : number) : number := SFsub prec emax x y.
Definition lt (x y : number) : bool := SFltb x y.
Definition gt (x y : number) : bool := SFltb y x.

(** [isNaN(x)]. *)
Definition isNaN (x : number) : bool :=
  match x with
  | S754_nan => true
  | _ => false
  end.

(** The literal of a whole number: the double nearest to it. *)
Definition ofZ (n : Z) : number := binary_normalize prec emax n 0 false.

(** The double of a whole number of at most 53 bits, with its sign: the
    mantissa filled up to 53 bits. *)
Definition canon (s : bool) (q : positive) : number :=
  S754_finite s (Z.to_pos (Zpos q * 2 ^ (53 - Zpos (digits2_pos q))))
    (Zpos (digits2_pos q) - 53).

(** A mantissa with nothing shifted out of it. *)
Definition unshifted (m : Z) : shr_record := Build_shr_record m false false.

(** [Math.max(0, x)]. *)
Definition max0 (x : number) : number :=
  match x with
  | S754_nan => S754_nan
  | _ => if gt x zero then x else zero
  end.

(** [Math.round(x)]: the nearest whole number, halves upwards; a result
    of zero keeps the sign of [x]. *)
Definition round (x : number) : number :=
  match x with
  | S754_finite s m e =>
      if 0 <=? e then x
      else
        let n := (cond_Zopp s (Zpos m) + 2 ^ (- e - 1)) / 2 ^ (- e) in
        if n =? 0 then S754_zero s else ofZ n
  | _ => x
  end.

(** The whole number nearest to the magnitude of a finite [x], halves
    upwards. *)
Definition nearest (x : number) : Z :=
  match x with
  | S754_finite _ m e =>
      if 0 <=? e then Zpos m * 2 ^ e else (Zpos m + 2 ^ (- e - 1)) / 2 ^ (- e)
  | _ => 0
  end.

(** A text made from a number.  [StringOf x suffix] is [String(x)]
    followed by [suffix]; the digits of [String(x)] are not spelt out. *)
Inductive text :=
| Text (s : string)
| StringOf (x : number) (suffix : string).

(** [x.toFixed(0)]: [NaN] as it is; a number of magnitude 10^21 or more
    as [String(x)]; otherwise the sign, if [x < 0], and the digits of
    the nearest whole number. *)
Definition toFixed0 (x : number) : text :=
  if isNaN x then Text "NaN"
  else if lt (SFabs x) (ofZ (10 ^ 21)) then
    Text ((if lt x zero then "-" else "") ++ pretty (nearest x))
  else StringOf x "".

(** The template literal that puts [suffix] after a text. *)
Definition followedBy (t : text) (suffix : string) : text :=
  match t with
  | Text s => Text (s ++ suffix)
  | StringOf x rest => StringOf x (rest ++ suffix)
  end.

End Number.

(* ===================================================================== *)
(** * calculator.js: the savings calculator                               *)
(* ===================================================================== *)

Module Calculator.
Import Number.

(** The object returned by [getValidatedInputs]. *)
Record inputs := {
  dieselCost : number;
  monthlyKm : number;
  vehicleCount : number;
  ppaModel : string
}.

(** The object returned by [calculateSavings]. *)
Record results := {
  currentMonthlyCost : number;
  newMonthlyCost : number;
  monthlySavings : number;
  savingsPercent : number;
  annualSavings : number
}.

(** [validateNumberInput]: [value] is [parseFloat(element.value)], or
    [None] when there is no element; it is refused when it is [NaN],
    below [min] or above [max]. *)
Definition validateNumberInput (value : option number) (min max : Z) : option number :=
  match value with
  | None => None
  | Some v => if isNaN v || lt v (ofZ min) || gt v (ofZ max) then None else Some v
  end.

Definition validOptions : list string := ["exchange"; "traditional"; "lease"].

(** [validateSelectInput]: the value of the select must be one of the
    three options. *)
Definition validateSelectInput (value : option string) : option string :=
  match value with
  | None => None
  | Some v => if bool_decide (v ∈ validOptions) then Some v else None
  end.

(** [getValidatedInputs], from the values read off the four elements.
    The last test of the script, [!ppaModel], also rejects the empty
    string, which [validateSelectInput] never returns. *)
Definition getValidatedInputs (diesel km vehicles : option number) (model : option string)
    : option inputs :=
  match validateNumberInput diesel 50000 1000000,
        validateNumberInput km 100 10000,
        validateNumberInput vehicles 1 50,
        validateSelectInput model with
  | Some d, Some k, Some v, Some m =>
      if bool_decide (m = "") then None
      else Some {| dieselCost := d; monthlyKm := k; vehicleCount := v; ppaModel := m |}
  | _, _, _, _ => None
  end.

(** The [switch] on [ppaModel]. *)
Definition newMonthlyCostOf (i : inputs) (currentMonthlyCost : number) : number :=
  if bool_decide (ppaModel i = "exchange") then mul (ofZ 120000) (vehicleCount i)
  else if bool_decide (ppaModel i = "traditional") then
    add (mul (ofZ 95000) (vehicleCount i))
        (mul (mul (ofZ 14) (monthlyKm i)) (vehicleCount i))
  else if bool_decide (ppaModel i = "lease") then mul (ofZ 175000) (vehicleCount i)
  else currentMonthlyCost.

(** [monthlySavings > 0 ? (monthlySavings / currentMonthlyCost) * 100 : 0]. *)
Definition savingsPercentOf (monthlySavings currentMonthlyCost : number) : number :=
  if gt monthlySavings zero
  then mul (div monthlySavings currentMonthlyCost) (ofZ 100)
  else zero.

Definition calculateSavings (i : inputs) : results :=
  let currentMonthlyCost := mul (dieselCost i) (vehicleCount i) in
  let newMonthlyCost := newMonthlyCostOf i currentMonthlyCost in
  let monthlySavings := sub currentMonthlyCost newMonthlyCost in
  let savingsPercent := savingsPercentOf monthlySavings currentMonthlyCost in
  let annualSavings := mul monthlySavings (ofZ 12) in
  {| currentMonthlyCost := currentMonthlyCost;
     newMonthlyCost := newMonthlyCost;
     monthlySavings := monthlySavings;
     savingsPercent := savingsPercent;
     annualSavings := annualSavings |}.

(** [formatCurrency(amount)]: the number [Math.round(amount)] that is
    handed to [Intl.NumberFormat], which renders it without fraction
    digits in the en-KE grouping. *)
Definition formatCurrency (amount : number) : number := round amount.

(** What [displayResults] writes.  The four currency fields hold the
    number that is rendered; [percentText] is the text of the element
    [savingsPercent]; the two flags are the classes toggled on the
    parent of the element [savings]. *)
Record display := {
  currentCostShown : number;
  newCostShown : number;
  savingsShown : number;
  percentText : text;
  annualSavingsShown : number;
  positiveSavingsClass : bool;
  negativeSavingsClass : bool
}.

Definition displayResults (r : results) : display :=
  {| currentCostShown := formatCurrency (currentMonthlyCost r);
     newCostShown := formatCurrency (newMonthlyCost r);
     savingsShown := formatCurrency (monthlySavings r);
     percentText := followedBy (toFixed0 (max0 (savingsPercent r))) "%";
     annualSavingsShown := formatCurrency (annualSavings r);
     positiveSavingsClass := gt (monthlySavings r) zero;
     negativeSavingsClass := lt (monthlySavings r) zero |}.

End Calculator.

(* ===================================================================== *)
(** * Example states and inputs                                           *)
(* ===================================================================== *)

Module LimiterCases.
Import SecurityFramework.

(** A store in which the key k is at its limit of 3 inside the window,
    while another key has an entry older than 60 seconds. *)
Definition denied_store : gmap string entry :=
  <["other" := {| count := 1; timestamp := 0 |}]>
    {["k" := {| count := 3; timestamp := 100000 |}]}.

(** A store in which the key k reached its limit of 3 long ago. *)
Definition idle_store : gmap string entry :=
  {["k" := {| count := 3; timestamp := 0 |}]}.

End LimiterCases.

Module CalculatorCases.
Import Number Calculator.

(** The test of [validateNumberInput] passed. *)
Definition inRange (v : number) (min max : Z) : bool :=
  negb (isNaN v || lt v (ofZ min) || gt v (ofZ max)).

(** The ranges enforced by [getValidatedInputs]. *)
Definition validated (i : inputs) : Prop :=
  inRange (dieselCost i) 50000 1000000 = true /\
  inRange (monthlyKm i) 100 10000 = true /\
  inRange (vehicleCount i) 1 50 = true /\
  ppaModel i ∈ validOptions.

(** Inputs that are whole numbers. *)
Definition whole (d k v : Z) (m : string) : inputs :=
  {| dieselCost := ofZ d; monthlyKm := ofZ k; vehicleCount := ofZ v; ppaModel := m |}.

(** The example of the specification: 250000 of diesel, 2000 km, one
    vehicle, the exchange model. *)
Definition example_inputs : inputs := whole 250000 2000 1 "exchange".

(** Validated inputs whose diesel bill is below the price of the exchange
    model. *)
Definition cheap_diesel_inputs : inputs := whole 50000 2000 1 "exchange".

(** The double nearest to the decimal [n / 10]. *)
Definition tenths (n : Z) : number := div (ofZ n) (ofZ 10).

(** Validated inputs that are not whole numbers: 300000.7 of diesel,
    2000 km, the exchange model. *)
Definition fractional_inputs (vehicles : Z) : inputs :=
  {| dieselCost := tenths 3000007; monthlyKm := ofZ 2000; vehicleCount := ofZ vehicles;
     ppaModel := "exchange" |}.

End CalculatorCases.

Module FormCases.
Import JS FormHandler.

(** A computation keeps the submit control in the document. *)
Definition keepsButton {A} (m : M A) : Prop :=
  forall d, is_Some (submitButton d) -> is_Some (submitButton (fst (m d))).

(** A filled-in contact form and the three ways a submission can end. *)
Definition textField (name type tag value : string) : field :=
  {| fieldId := name; fieldName := name; fieldType := type; tagName := tag;
     required := true; fieldValue := value; defaultValue := ""; ariaInvalid := None;
     errorClass := false |}.

(** A required control without an id. *)
Definition anonymousField (name type tag value : string) : field :=
  {| fieldId := ""; fieldName := name; fieldType := type; tagName := tag;
     required := true; fieldValue := value; defaultValue := ""; ariaInvalid := None;
     errorClass := false |}.

(** The entry list of a form whose controls are all enabled text
    controls and selects: every control with a name, with its value. *)
Definition textEntries (d : document) : list (string * entryValue) :=
  flat_map (fun f => if isEmpty (fieldName f) then []
                     else [(fieldName f, EntryString (fieldValue f))])
           (fields d).

Definition contactButton : button :=
  {| disabled := false; ariaDisabled := None;
     textContent := "Get Free Premium Assessment"; classList := ["btn-primary"] |}.

Definition contactDocument : document :=
  {| rateLimitStore := ∅;
     csrfToken := "elyra_1700000000000_abc123xyz";
     userAgent := "Mozilla/5.0";
     fields := [ textField "name" "text" "INPUT" "Jane Doe";
                 textField "email" "email" "INPUT" "jane@example.co.ke";
                 textField "phone" "tel" "INPUT" "0712 345 678";
                 textField "businessType" "select-one" "SELECT" "safari-lodge";
                 textField "vehicleCount" "select-one" "SELECT" "4-6" ];
     errorMessages := [];
     submitButton := Some contactButton;
     globalNotification := None;
     console := [] |}.

Definition calmBrowser (draw : Q) : browser :=
  {| random := draw; formEntries := textEntries; collectThrows := None;
     notifyThrows := None; resetThrows := None; duringWait := fun d => d |}.

Definition resetBreaks : browser :=
  {| random := 1 # 2; formEntries := textEntries; collectThrows := None;
     notifyThrows := None;
     resetThrows := Some (TypeError "form.reset is not a function");
     duringWait := fun d => d |}.

End FormCases.

(* ===================================================================== *)
(** * The site as written, and with its templates supplied                *)
(* ===================================================================== *)

Module Site.
Import JS NavigationSystem.

(** Calling a method that the object does not have. *)
Definition notAFunction {A} (name : string) : completion A :=
  Throw (TypeError (name ++ " is not a function")).

(** [mentions markup text]: [text] occurs in [markup]. *)
Fixpoint mentions (markup text : string) : bool :=
  if String.prefix text markup then true
  else match markup with
       | EmptyString => false
       | String _ rest => mentions rest text
       end.

(** An element with the given id is written in the markup. *)
Definition writtenId (markup id : string) : bool :=
  mentions markup ("id=" ++ quoted id).

(** The scripts as they are: [generateSolutionsPage],
    [generateModelsPage], [generateCalculatorPage] and
    [generateContactPage] are not defined anywhere. *)
Definition asWritten : environment :=
  {| generateSolutionsPage := notAFunction "this.generateSolutionsPage";
     generateModelsPage := notAFunction "this.generateModelsPage";
     generateCalculatorPage := notAFunction "this.generateCalculatorPage";
     generateContactPage := notAFunction "this.generateContactPage";
     calculatorLoaded := true;
     hasElement := writtenId |}.

(** The scripts with the four generators supplied, each returning a
    short template; the calculator's has the four controls that
    [Calculator] looks up, the contact page's a form. *)
Definition calculatorMarkup : string :=
  "<section><input type=" ++ quoted "number" ++ " id=" ++ quoted "currentDiesel" ++ ">"
  ++ "<input type=" ++ quoted "number" ++ " id=" ++ quoted "monthlyKm" ++ ">"
  ++ "<input type=" ++ quoted "number" ++ " id=" ++ quoted "vehicleCount" ++ ">"
  ++ "<select id=" ++ quoted "ppaModel" ++ "></select></section>".

Definition contactMarkup : string :=
  "<section><form id=" ++ quoted "contactForm" ++ "><button type=" ++ quoted "submit"
  ++ ">Get Free Premium Assessment</button></form></section>".

Definition supplied : environment :=
  {| generateSolutionsPage := Normal "<section>Solutions</section>";
     generateModelsPage := Normal "<section>PPA Models</section>";
     generateCalculatorPage := Normal calculatorMarkup;
     generateContactPage := Normal contactMarkup;
     calculatorLoaded := true;
     hasElement := writtenId |}.

(** The page when the router starts: no fragment, a placeholder in
    [main]. *)
Definition startPage : state := initialState "" "<p>Loading</p>".

(** The three listeners one [FormHandler] adds to [document]. *)
Definition formHandlerListeners (n : nat) : list (string * coordinator) :=
  [("submit", FormHandlerObject n); ("blur", FormHandlerObject n);
   ("input", FormHandlerObject n)].

End Site.

(* ===================================================================== *)
(** * Runs of calls and of events                                         *)
(* ===================================================================== *)

Module Runs.

(** Call times of which each is at most 60 seconds after the one before. *)
Fixpoint spaced (times : list Z) : Prop :=
  match times with
  | [] => True
  | a :: rest =>
      match rest with
      | [] => True
      | b :: _ => b <= a + 60000 /\ spaced rest
      end
  end.

End Runs.

(* ===================================================================== *)
(** * calculator.js: the calculator on its page                           *)
(* ===================================================================== *)

Module CalculatorPage.
Import Number Calculator CalculatorCases.

(** One of the three number inputs, as [validateNumberInput] meets it:
    the element is missing, or [parseFloat] of its text is [v], which
    is [NaN] when the text does not start with a number. *)
Inductive input :=
| Missing
| Value (v : number).

(** [parseFloat(element.value)] when there is an element. *)
Definition parsed (i : input) : option number :=
  match i with
  | Value v => Some v
  | Missing => None
  end.

(** The message under a field.  The text of a range message carries the
    two bounds, rendered by [toLocaleString]. *)
Inductive fieldError :=
| OutOfRange (min max : Z)
| InvalidOption.

(** The calculator's part of the page: the limiter's store, the three
    inputs and the select ([None]: no such element), the messages under
    the fields by the id of the field, what the five result elements
    show ([None]: nothing written yet), and the console. *)
Record page := {
  store : gmap string SecurityFramework.entry;
  dieselInput : input;
  kmInput : input;
  vehiclesInput : input;
  modelSelect : option string;
  errors : gmap string fieldError;
  results : option display;
  consoleErrors : list string
}.

(** The message [validateNumberInput] leaves under a field: none for a
    missing element (nothing is touched), the range message for [NaN]
    and for a number outside [min, max], and the message cleared
    otherwise. *)
Definition numberFieldError (elementId : string) (i : input) (min max : Z)
    (errs : gmap string fieldError) : gmap string fieldError :=
  match i with
  | Missing => errs
  | Value v =>
      if isNaN v || lt v (ofZ min) || gt v (ofZ max)
      then <[elementId := OutOfRange min max]> errs
      else delete elementId errs
  end.

(** The message [validateSelectInput] leaves under the select. *)
Definition selectFieldError (elementId : string) (value : option string)
    (errs : gmap string fieldError) : gmap string fieldError :=
  match value with
  | None => errs
  | Some v =>
      if bool_decide (v ∈ validOptions) then delete elementId errs
      else <[elementId := InvalidOption]> errs
  end.

(** The messages after the four validations of [getValidatedInputs]. *)
Definition validationErrors (p : page) : gmap string fieldError :=
  selectFieldError "ppaModel" (modelSelect p)
    (numberFieldError "vehicleCount" (vehiclesInput p) 1 50
       (numberFieldError "monthlyKm" (kmInput p) 100 10000
          (numberFieldError "currentDiesel" (dieselInput p) 50000 1000000 (errors p)))).

(** The [try] block of [validateAndCalculate]: the four validations
    with their messages, then, unless one of them refused, the
    calculation and its display. *)
Definition calculate (p : page) : page :=
  {| store := store p; dieselInput := dieselInput p; kmInput := kmInput p;
     vehiclesInput := vehiclesInput p; modelSelect := modelSelect p;
     errors := validationErrors p;
     results :=
       match getValidatedInputs (parsed (dieselInput p)) (parsed (kmInput p))
               (parsed (vehiclesInput p)) (modelSelect p) with
       | None => results p
       | Some inputs => Some (displayResults (calculateSavings inputs))
       end;
     consoleErrors := consoleErrors p |}.

Definition set_store (st : gmap string SecurityFramework.entry) (p : page) : page :=
  {| store := st; dieselInput := dieselInput p; kmInput := kmInput p;
     vehiclesInput := vehiclesInput p; modelSelect := modelSelect p;
     errors := errors p; results := results p; consoleErrors := consoleErrors p |}.

(** [showError(message)]. *)
Definition showError (message : string) (p : page) : page :=
  {| store := store p; dieselInput := dieselInput p; kmInput := kmInput p;
     vehiclesInput := vehiclesInput p; modelSelect := modelSelect p;
     errors := errors p; results := results p;
     consoleErrors := consoleErrors p ++ [message] |}.

(** [validateAndCalculate()] at time [now]. *)
Definition validateAndCalculate (now : Z) (p : page) : page :=
  let '(ok, st) :=
    SecurityFramework.checkRateLimit now "calculator_usage" 10 (store p) in
  if negb ok then showError "Please wait before making more calculations" (set_store st p)
  else calculate (set_store st p).

(** The user's edits of the four controls. *)
Definition setInputs (d k v : input) (m : option string) (p : page) : page :=
  {| store := store p; dieselInput := d; kmInput := k; vehiclesInput := v;
     modelSelect := m; errors := errors p; results := results p;
     consoleErrors := consoleErrors p |}.

(** Calculations at the given times, the controls being set before each
    of them. *)
Fixpoint calculations (steps : list (Z * (input * input * input * option string)))
    (p : page) : page :=
  match steps with
  | [] => p
  | (now, (d, k, v, m)) :: rest =>
      calculations rest (validateAndCalculate now (setInputs d k v m p))
  end.

(** The same edits, each followed by the validations and the
    calculation with no rate limiter before them. *)
Fixpoint unlimited (steps : list (Z * (input * input * input * option string)))
    (p : page) : page :=
  match steps with
  | [] => p
  | (_, (d, k, v, m)) :: rest => unlimited rest (calculate (setInputs d k v m p))
  end.

(** The monthly price of one vehicle under each of the three models,
    for a whole number of kilometres. *)
Definition pricePerVehicle (model : string) (km : Z) : option Z :=
  if bool_decide (model = "exchange") then Some 120000
  else if bool_decide (model = "traditional") then Some (95000 + 14 * km)
  else if bool_decide (model = "lease") then Some 175000
  else None.

(** What the result elements show is the result of validated inputs. *)
Definition showsValidated (p : page) : Prop :=
  forall shown, results p = Some shown ->
  exists i, validated i /\ shown = displayResults (calculateSavings i).

(** A page that shows nothing yet, with the given controls. *)
Definition blankPage (d k v : input) (m : option string) : page :=
  {| store := ∅; dieselInput := d; kmInput := k; vehiclesInput := v; modelSelect := m;
     errors := ∅; results := None; consoleErrors := [] |}.

End CalculatorPage.

(* ===================================================================== *)
(** * Shapes of strings                                                   *)
(* ===================================================================== *)

Module Shapes.
Import RegExp InputValidator.

(** Every character of the string satisfies [p]. *)
Fixpoint allChars (p : ascii -> bool) (s : string) : bool :=
  match s with
  | EmptyString => true
  | String c rest => p c && allChars p rest
  end.

(** The first character, and the last one, is not white space (an empty
    string has neither). *)
Definition startsClean (s : string) : bool :=
  match s with
  | EmptyString => true
  | String c _ => negb (whitespace c)
  end.

Fixpoint endsClean (s : string) : bool :=
  match s with
  | EmptyString => true
  | String c EmptyString => negb (whitespace c)
  | String _ rest => endsClean rest
  end.

Definition isDigit (c : ascii) : bool := in_class [Range "0" "9"] c.

(** The prefixes a Kenyan number may carry: none, the leading 0, or the
    country code with or without its plus sign. *)
Definition phonePrefixes : list string := [""; "0"; "254"; "+254"].

(** The characters of the local part of an address, and those of its
    domain. *)
Definition localClass (c : ascii) : bool :=
  in_class (alnum ++ [Chars ".!#$%&"; Chars (String apostrophe "");
                      Chars "*+/=?^_`{|}~-"]) c.

Definition domainClass (c : ascii) : bool :=
  in_class (alnum ++ [Chars "-"; Chars "."]) c.

(** Every character class of the expression lies within [P]. *)
Fixpoint classesWithin (P : ascii -> bool) (r : regex) : Prop :=
  match r with
  | Void | Eps => True
  | Class p => forall c, p c = true -> P c = true
  | Seq r1 r2 | Alt r1 r2 => classesWithin P r1 /\ classesWithin P r2
  | Star r1 => classesWithin P r1
  end.

(** The five characters [sanitizeInput] escapes. *)
Definition escaped : string :=
  String "<" (String ">" (String quote (String apostrophe (String "/" "")))).

End Shapes.

(* ===================================================================== *)
(** * forms.js: runs of submissions                                       *)
(* ===================================================================== *)

Module FormRuns.
Import JS InputValidator FormHandler.




(** The fields after [validateField] has gone over them: each with the
    marks of its own verdict. *)
Definition validatedFields (fs : list field) : list field :=
  map (fun f => mark f (negb (fst (fieldVerdict f)))) fs.

(** The elements found by id after [validateField] has gone over the
    fields. *)
Definition validatedMessages (fs : list field) (ms : list errorMessage)
    : list errorMessage :=
  snd (snd (validateEach fs ms)).

(** The message [showFieldError] appends for a field that fails. *)
Definition messageOf (f : field) : list errorMessage :=
  if fst (fieldVerdict f) then []
  else [{| messageId := fieldId f ++ "-error"; messageText := snd (fieldVerdict f) |}].

(** No element of the document carries the id of the message of one of
    the fields. *)
Definition noMessageYet (fs : list field) (ms : list errorMessage) : Prop :=
  Forall (fun f => Forall (fun m => messageId m <> fieldId f ++ "-error") ms) fs.

(** The last entry of the name [key]. *)
Definition lastEntry (key : string) (entries : list (string * entryValue))
    : option entryValue :=
  foldl (fun found entry => if bool_decide (fst entry = key) then Some (snd entry) else found)
        None entries.

(** The fields after [form.reset()]. *)
Definition resetFields (fs : list field) : list field :=
  map (fun f =>
         {| fieldId := fieldId f; fieldName := fieldName f; fieldType := fieldType f;
            tagName := tagName f; required := required f; fieldValue := defaultValue f;
            defaultValue := defaultValue f; ariaInvalid := ariaInvalid f;
            errorClass := errorClass f |}) fs.

(** The form passes validation. *)
Definition allValid (fs : list field) : Prop :=
  Forall (fun f => fst (fieldVerdict f) = true) fs.

End FormRuns.

(* ===================================================================== *)
(** * forms.js: the mobile menu of the navigation                         *)
(* ===================================================================== *)

Module MobileMenu.

(** The button [.mobile-menu-btn] with its attribute [aria-expanded],
    and the list [.nav-links] with or without the class [active]. *)
Record menu := {
  ariaExpanded : string;
  linksActive : bool
}.

(** As [loadNavigation] writes them. *)
Definition initialMenu : menu := {| ariaExpanded := "false"; linksActive := false |}.

(** The listener on the button: [setAttribute('aria-expanded', !isExpanded)]
    and [classList.toggle('active')]. *)
Definition clickButton (m : menu) : menu :=
  let isExpanded := bool_decide (ariaExpanded m = "true") in
  {| ariaExpanded := if negb isExpanded then "true" else "false";
     linksActive := negb (linksActive m) |}.

(** The listener on every link of the menu. *)
Definition clickLink (m : menu) : menu :=
  {| ariaExpanded := "false"; linksActive := false |}.

(** The listener on [keydown] of [initializeAccessibility]. *)
Definition keydown (key : string) (m : menu) : menu :=
  if bool_decide (key = "Escape") then {| ariaExpanded := "false"; linksActive := false |}
  else m.

Inductive event :=
| ButtonClick
| LinkClick
| KeyDown (key : string).

Definition handle (e : event) (m : menu) : menu :=
  match e with
  | ButtonClick => clickButton m
  | LinkClick => clickLink m
  | KeyDown key => keydown key m
  end.

Fixpoint handleAll (events : list event) (m : menu) : menu :=
  match events with
  | [] => m
  | e :: rest => handleAll rest (handle e m)
  end.

(** The attribute and the class agree. *)
Definition inStep (m : menu) : Prop :=
  (ariaExpanded m = "true" /\ linksActive m = true) \/
  (ariaExpanded m = "false" /\ linksActive m = false).

End MobileMenu.

(* ===================================================================== *)
(** * The router: what a state shows                                      *)
(* ===================================================================== *)

Module RouterShapes.
Import JS NavigationSystem.

(** The links are marked for the page [page]: a link carries the class
    [active] and [aria-current] at [page] exactly when it leads to
    [page], and [aria-current] at [false] otherwise. *)
Definition highlights (page : string) (links : list navLink) : Prop :=
  Forall (fun link =>
            activeClass link = bool_decide (dataPage link = page) /\
            ariaCurrent link
            = Some (if bool_decide (dataPage link = page) then "page" else "false"))
         links.

(** The links that carry the class [active]. *)
Definition activeLinks (links : list navLink) : list navLink :=
  filter (fun link => activeClass link = true) links.

(** The page a key is coerced to. *)
Definition target (page : string) : string :=
  if isValidPage page then page else "home".

End RouterShapes.

(* ===================================================================== *)
(** * calculator.js: Security.debounce                                    *)
(* ===================================================================== *)

Module Debounce.

Section Debounced.
Variable A : Type.

(** A timer set by [setTimeout(later, wait)]: the instant at which it is
    due, and the arguments that [later] has captured. *)
Record timer := {
  due : Z;
  arguments : A
}.

(** The closure of one debounced function: the timer that is set and
    has not run, and the arguments [func] has been invoked with so
    far. *)
Record debounced := {
  timeout : option timer;
  invocations : list A
}.

Definition idle : debounced := {| timeout := None; invocations := [] |}.

(** The arguments [func] is invoked with when the clock reaches [now],
    and the timer that is left.  A timer that is due at the instant of an
    event runs before the event is handled. *)
Definition expired (now : Z) (t : option timer) : option A :=
  match t with
  | Some t => if due t <=? now then Some (arguments t) else None
  | None => None
  end.

Definition pending (now : Z) (t : option timer) : option timer :=
  match t with
  | Some t => if due t <=? now then None else Some t
  | None => None
  end.

(** The clock reaches [now]: [later] runs if its timer is due. *)
Definition elapse (now : Z) (d : debounced) : debounced :=
  {| timeout := pending now (timeout d);
     invocations :=
       invocations d ++ match expired now (timeout d) with
                        | Some args => [args]
                        | None => []
                        end |}.

(** [executedFunction(...args)] at the instant [now]: [clearTimeout],
    then [setTimeout(later, wait)]. *)
Definition executedFunction (wait now : Z) (args : A) (d : debounced) : debounced :=
  let d := elapse now d in
  {| timeout := Some {| due := now + wait; arguments := args |};
     invocations := invocations d |}.

Fixpoint callAll (wait : Z) (calls : list (Z * A)) (d : debounced) : debounced :=
  match calls with
  | [] => d
  | (now, args) :: rest => callAll wait rest (executedFunction wait now args d)
  end.

(** Calls of which each comes less than [wait] after the one before,
    the first of them after [start]. *)
Fixpoint burst (wait start : Z) (calls : list (Z * A)) : Prop :=
  match calls with
  | [] => True
  | (now, _) :: rest => start <= now < start + wait /\ burst wait now rest
  end.

End Debounced.

Arguments due {A} t.
Arguments arguments {A} t.
Arguments timeout {A} d.
Arguments invocations {A} d.
Arguments idle {A}.
Arguments expired {A} now t.
Arguments pending {A} now t.
Arguments elapse {A} now d.
Arguments executedFunction {A} wait now args d.
Arguments callAll {A} wait calls d.
Arguments burst {A} wait start calls.

End Debounce.

(* ===================================================================== *)
(** * part_000: PrivacyAnalytics                                          *)
(* ===================================================================== *)

Module PrivacyAnalytics.
Import JS.

(** The target of an event, as far as the listeners look at it. *)
Record element := {
  tagName : string;
  href : option string;
  textContent : string;
  id : string
}.

(** What the listeners write to the console; [timestamp] is the
    instant, before it is formatted. *)
Inductive entry :=
| PageView (sessionId page : string) (timestamp : Z) (referrer : string)
| UserInteraction (sessionId target : string) (timestamp : Z)
| CalculatorInteraction (sessionId field : string) (timestamp : Z)
| FormSubmission (sessionId formId : string) (timestamp : Z).

(** [pageViews] is a [Set]: its members in the order of insertion.
    [inputTimer] is the timer of the debounced listener on [input]. *)
Record analytics := {
  sessionId : string;
  pageViews : list string;
  inputTimer : option (Debounce.timer element);
  console : list entry
}.

(** [set.add(x)]. *)
Definition add (x : string) (set : list string) : list string :=
  if bool_decide (x ∈ set) then set else set ++ [x].

(** [s.substring(1)]. *)
Definition substring1 (s : string) : string :=
  match s with
  | EmptyString => EmptyString
  | String _ rest => rest
  end.

(** [a || b] on strings. *)
Definition orElse (a b : string) : string := if isEmpty a then b else a.

(** [trackPageView()]. *)
Definition trackPageView (now : Z) (locationHash referrer : string) (a : analytics)
    : analytics :=
  let page := orElse (substring1 locationHash) "home" in
  {| sessionId := sessionId a;
     pageViews := add page (pageViews a);
     inputTimer := inputTimer a;
     console :=
       console a ++ [PageView (sessionId a) page now (orElse referrer "direct")] |}.

(** The constructor; [session] is the identifier that
    [generateSessionId] has drawn. *)
Definition new (session : string) (now : Z) (locationHash referrer : string) : analytics :=
  trackPageView now locationHash referrer
    {| sessionId := session; pageViews := []; inputTimer := None; console := [] |}.

(** [e.target.matches('button, a[href^="#"]')]. *)
Definition isButtonOrLocalLink (e : element) : bool :=
  bool_decide (tagName e = "BUTTON")
  || (bool_decide (tagName e = "A")
      && match href e with
         | Some h => String.prefix "#" h
         | None => false
         end).

(** [e.target.matches('#currentDiesel, #monthlyKm, #vehicleCount')]. *)
Definition isCalculatorField (e : element) : bool :=
  bool_decide (id e ∈ ["currentDiesel"; "monthlyKm"; "vehicleCount"]).

Definition write (x : entry) (a : analytics) : analytics :=
  {| sessionId := sessionId a; pageViews := pageViews a; inputTimer := inputTimer a;
     console := console a ++ [x] |}.

(** The callback that [Security.debounce] wraps, run at [now]. *)
Definition calculatorInput (now : Z) (e : element) (a : analytics) : analytics :=
  if isCalculatorField e then write (CalculatorInteraction (sessionId a) (id e) now) a
  else a.

(** The clock reaches [now]: the debounced callback runs if its timer
    is due. *)
Definition elapse (now : Z) (a : analytics) : analytics :=
  let a' := {| sessionId := sessionId a; pageViews := pageViews a;
               inputTimer := Debounce.pending now (inputTimer a);
               console := console a |} in
  match Debounce.expired now (inputTimer a) with
  | Some e => calculatorInput now e a'
  | None => a'
  end.

(** The listener on [click]. *)
Definition click (now : Z) (e : element) (a : analytics) : analytics :=
  if isButtonOrLocalLink e then
    let target :=
      if bool_decide (tagName e = "A") then default EmptyString (href e)
      else textContent e in
    write (UserInteraction (sessionId a) (String.substring 0 50 target) now) a
  else a.

(** The listener on [input]: the debounced function, with a wait of one
    second. *)
Definition input (now : Z) (e : element) (a : analytics) : analytics :=
  {| sessionId := sessionId a; pageViews := pageViews a;
     inputTimer := Some {| Debounce.due := now + 1000; Debounce.arguments := e |};
     console := console a |}.

(** The listener on [submit]. *)
Definition submit (now : Z) (e : element) (a : analytics) : analytics :=
  if bool_decide (tagName e = "FORM") then
    write (FormSubmission (sessionId a) (id e) now) a
  else a.

Inductive event :=
| Click (e : element)
| Input (e : element)
| Submit (e : element).

(** An event at the instant [now]. *)
Definition handle (now : Z) (ev : event) (a : analytics) : analytics :=
  let a := elapse now a in
  match ev with
  | Click e => click now e a
  | Input e => input now e a
  | Submit e => submit now e a
  end.

Fixpoint handleAll (events : list (Z * event)) (a : analytics) : analytics :=
  match events with
  | [] => a
  | (now, ev) :: rest => handleAll rest (handle now ev a)
  end.

(** [getSummary()], without the instant of the call. *)
Definition getSummary (a : analytics) : string * nat * list string :=
  (sessionId a, length (pageViews a), pageViews a).

(** The text an entry reports as the target of a click. *)
Definition clickTargets (log : list entry) : list string :=
  flat_map (fun x => match x with
                     | UserInteraction _ target _ => [target]
                     | _ => []
                     end) log.

(** The fields an entry reports as typed into. *)
Definition fieldsLogged (log : list entry) : list string :=
  flat_map (fun x => match x with
                     | CalculatorInteraction _ field _ => [field]
                     | _ => []
                     end) log.

(** The log is in order: a reported target has at most 50 characters,
    and a reported field is one of the three inputs of the calculator. *)
Definition tidy (log : list entry) : Prop :=
  Forall (fun target => (String.length target <= 50)%nat) (clickTargets log) /\
  Forall (fun field => field ∈ ["currentDiesel"; "monthlyKm"; "vehicleCount"])
         (fieldsLogged log).

End PrivacyAnalytics.

(* ===================================================================== *)
(** * Properties                                                          *)
(* ===================================================================== *)

(** ** The rate limiter *)

Section RateLimiter.
Import SecurityFramework LimiterCases.

Implicit Types (st : gmap string entry) (key : string) (e : entry).

Lemma expired_false w e : expired w e = false <-> w <= timestamp e.
Proof. unfold expired. rewrite Z.ltb_ge. reflexivity. Qed.

Lemma lookup_clean_Some w st key e :
  cleanOldEntries w st !! key = Some e <-> st !! key = Some e /\ w <= timestamp e.
Proof.
  unfold cleanOldEntries. rewrite map_lookup_filter_Some. simpl.
  rewrite expired_false. reflexivity.
Qed.

Lemma lookup_clean_fresh w st key e :
  st !! key = Some e -> w <= timestamp e -> cleanOldEntries w st !! key = Some e.
Proof. intros. apply lookup_clean_Some. auto. Qed.

Lemma lookup_clean_stale w st key e :
  st !! key = Some e -> timestamp e < w -> cleanOldEntries w st !! key = None.
Proof.
  intros Hk Hlt. destruct (cleanOldEntries w st !! key) as [e'|] eqn:E; [|reflexivity].
  apply lookup_clean_Some in E as [E1 E2]. rewrite Hk in E1. inversion E1; subst. lia.
Qed.

Lemma lookup_clean_absent w st key :
  st !! key = None -> cleanOldEntries w st !! key = None.
Proof.
  intros Hk. destruct (cleanOldEntries w st !! key) as [e'|] eqn:E; [|reflexivity].
  apply lookup_clean_Some in E as [E1 _]. congruence.
Qed.

Lemma clean_nothing_expired w st :
  (forall key e, st !! key = Some e -> w <= timestamp e) -> cleanOldEntries w st = st.
Proof.
  intros H. apply map_eq. intros k.
  destruct (st !! k) as [e|] eqn:E.
  - apply lookup_clean_fresh; eauto.
  - apply lookup_clean_absent; auto.
Qed.

(** The three outcomes of one call, by the state of the key's entry. *)
Lemma checkRateLimit_new now key max st :
  cleanOldEntries (now - 60000) st !! key = None ->
  checkRateLimit now key max st =
    (true, <[key := {| count := 1; timestamp := now |}]> (cleanOldEntries (now - 60000) st)).
Proof. intros H. unfold checkRateLimit. cbv zeta. rewrite H. reflexivity. Qed.

Lemma checkRateLimit_under now key max st e :
  st !! key = Some e -> now - 60000 <= timestamp e -> count e < max ->
  checkRateLimit now key max st =
    (true, <[key := {| count := count e + 1; timestamp := now |}]>
             (cleanOldEntries (now - 60000) st)).
Proof.
  intros Hk Hw Hc. unfold checkRateLimit. cbv zeta.
  rewrite (lookup_clean_fresh _ _ _ _ Hk Hw).
  destruct (Z.geb_spec (count e) max); [lia | reflexivity].
Qed.

Lemma checkRateLimit_over now key max st e :
  st !! key = Some e -> now - 60000 <= timestamp e -> max <= count e ->
  checkRateLimit now key max st = (false, cleanOldEntries (now - 60000) st).
Proof.
  intros Hk Hw Hc. unfold checkRateLimit. cbv zeta.
  rewrite (lookup_clean_fresh _ _ _ _ Hk Hw).
  destruct (Z.geb_spec (count e) max); [reflexivity | lia].
Qed.

(** C6. From a store with no entry for the key, four calls with limit 3
    whose times lie in one window of 60 seconds return true, true, true,
    false; once the window has cleared, by the periodic full clear or by
    the eviction of the entry (more than 60 seconds after the last allowed
    call), the next call returns true again. *)
Theorem C6_four_calls_then_window_clears (st : gmap string entry) (key : string)
    (t0 t1 t2 t3 t4 : Z) :
  st !! key = None ->
  t0 <= t1 <= t0 + 60000 -> t0 <= t2 <= t0 + 60000 ->
  t0 <= t3 <= t0 + 60000 -> t0 <= t4 <= t0 + 60000 ->
  fst (checkRateLimit_seq [t1; t2; t3; t4] key 3 st) = [true; true; true; false] /\
  (forall t5,
     fst (checkRateLimit t5 key 3
            (clearTick (snd (checkRateLimit_seq [t1; t2; t3; t4] key 3 st)))) = true) /\
  (forall t5, t3 + 60000 < t5 ->
     fst (checkRateLimit t5 key 3
            (snd (checkRateLimit_seq [t1; t2; t3; t4] key 3 st))) = true).
Proof.
  intros Hnone H1 H2 H3 H4.
  cbn [checkRateLimit_seq].
  rewrite (checkRateLimit_new t1 key 3 st) by (apply lookup_clean_absent; exact Hnone).
  set (s1 := <[key := _]> _).
  assert (L1 : s1 !! key = Some {| count := 1; timestamp := t1 |})
    by apply lookup_insert_eq.
  rewrite (checkRateLimit_under t2 key 3 s1 _ L1) by (simpl; lia).
  set (s2 := <[key := _]> _).
  assert (L2 : s2 !! key = Some {| count := 2; timestamp := t2 |})
    by apply lookup_insert_eq.
  rewrite (checkRateLimit_under t3 key 3 s2 _ L2) by (simpl; lia).
  set (s3 := <[key := _]> _).
  assert (L3 : s3 !! key = Some {| count := 3; timestamp := t3 |})
    by apply lookup_insert_eq.
  rewrite (checkRateLimit_over t4 key 3 s3 _ L3) by (simpl; lia).
  cbn [fst snd]. split; [reflexivity | split].
  - intros t5. unfold clearTick.
    rewrite checkRateLimit_new; [reflexivity |].
    apply lookup_clean_absent, lookup_empty.
  - intros t5 Hlate.
    rewrite checkRateLimit_new; [reflexivity |].
    assert (L4 : cleanOldEntries (t4 - 60000) s3 !! key
                 = Some {| count := 3; timestamp := t3 |})
      by (apply lookup_clean_fresh; [exact L3 | simpl; lia]).
    apply (lookup_clean_stale _ _ _ _ L4). simpl. lia.
Qed.

Lemma C6_witness :
  fst (checkRateLimit_seq [1000; 2000; 3000; 4000] "k" 3 initializeRateLimiting)
    = [true; true; true; false] /\
  (forall t5,
     fst (checkRateLimit t5 "k" 3
            (clearTick (snd (checkRateLimit_seq [1000; 2000; 3000; 4000] "k" 3
                               initializeRateLimiting)))) = true) /\
  (forall t5, 3000 + 60000 < t5 ->
     fst (checkRateLimit t5 "k" 3
            (snd (checkRateLimit_seq [1000; 2000; 3000; 4000] "k" 3
                    initializeRateLimiting))) = true).
Proof.
  apply (C6_four_calls_then_window_clears initializeRateLimiting "k" 1000);
    [reflexivity | lia | lia | lia | lia].
Defined.

(** C7, as stated, fails: a denied call still runs the cleaning loop, so
    the expired entry of another key is deleted by it; and a call made
    while the count stored for the key is at the limit is allowed when
    that entry is itself older than 60 seconds. *)
Lemma C7_denied_call_mutates_store :
  denied_store !! "k" = Some {| count := 3; timestamp := 100000 |} /\
  denied_store !! "other" = Some {| count := 1; timestamp := 0 |} /\
  fst (checkRateLimit 100000 "k" 3 denied_store) = false /\
  snd (checkRateLimit 100000 "k" 3 denied_store) !! "other" = None /\
  snd (checkRateLimit 100000 "k" 3 denied_store) <> denied_store /\
  idle_store !! "k" = Some {| count := 3; timestamp := 0 |} /\
  fst (checkRateLimit 100000 "k" 3 idle_store) = true.
Proof.
  assert (Hk : denied_store !! "k" = Some {| count := 3; timestamp := 100000 |}).
  { unfold denied_store. rewrite lookup_insert_ne by discriminate.
    apply lookup_singleton_eq. }
  assert (Ho : denied_store !! "other" = Some {| count := 1; timestamp := 0 |}).
  { unfold denied_store. apply lookup_insert_eq. }
  assert (Hi : idle_store !! "k" = Some {| count := 3; timestamp := 0 |}).
  { unfold idle_store. apply lookup_singleton_eq. }
  rewrite (checkRateLimit_over 100000 "k" 3 denied_store _ Hk) by (simpl; lia).
  rewrite (checkRateLimit_new 100000 "k" 3 idle_store)
    by (apply (lookup_clean_stale _ _ _ _ Hi); simpl; lia).
  cbn [fst snd].
  assert (Hgone : cleanOldEntries (100000 - 60000) denied_store !! "other" = None)
    by (apply (lookup_clean_stale _ _ _ _ Ho); simpl; lia).
  repeat split; try assumption.
  intros Heq. rewrite Heq in Hgone. congruence.
Qed.

(** C7, amended. A call made while the key's entry is inside the window
    with its count at or over the limit returns false, and the only change
    to the store is the eviction of expired entries that every call
    performs: the key's entry and every other unexpired entry keep their
    count and timestamp, no entry is added, and when no entry is expired
    the store is unchanged. *)
Theorem C7_denied_call_only_evicts (now : Z) (key : string) (max : Z)
    (st : gmap string entry) (e : entry) :
  st !! key = Some e -> now - 60000 <= timestamp e -> max <= count e ->
  fst (checkRateLimit now key max st) = false /\
  snd (checkRateLimit now key max st) = cleanOldEntries (now - 60000) st /\
  snd (checkRateLimit now key max st) !! key = Some e /\
  (forall k' e', st !! k' = Some e' -> now - 60000 <= timestamp e' ->
                 snd (checkRateLimit now key max st) !! k' = Some e') /\
  (forall k' e', snd (checkRateLimit now key max st) !! k' = Some e' ->
                 st !! k' = Some e') /\
  ((forall k' e', st !! k' = Some e' -> now - 60000 <= timestamp e') ->
   snd (checkRateLimit now key max st) = st).
Proof.
  intros Hk Hw Hc.
  rewrite (checkRateLimit_over now key max st e Hk Hw Hc). cbn [fst snd].
  repeat split.
  - apply lookup_clean_fresh; assumption.
  - intros k' e' Hk' Hw'. apply lookup_clean_fresh; assumption.
  - intros k' e' Hk'. apply lookup_clean_Some in Hk'. tauto.
  - apply clean_nothing_expired.
Qed.

Lemma C7_witness :
  fst (checkRateLimit 100000 "k" 3 denied_store) = false /\
  snd (checkRateLimit 100000 "k" 3 denied_store)
    !! "k" = Some {| count := 3; timestamp := 100000 |}.
Proof.
  assert (Hk : denied_store !! "k" = Some {| count := 3; timestamp := 100000 |}).
  { unfold denied_store. rewrite lookup_insert_ne by discriminate.
    apply lookup_singleton_eq. }
  pose proof (C7_denied_call_only_evicts 100000 "k" 3 denied_store _ Hk) as H.
  simpl in H. specialize (H ltac:(lia) ltac:(lia)).
  destruct H as (H1 & _ & H3 & _). split; [exact H1 | exact H3].
Defined.

(** C10. Every call first evicts the entries whose timestamp is more than
    60 seconds before the call time, so every entry left in the store is
    inside the window and the expired entries of other keys are gone;
    every allowed call leaves the key's entry with the call time as its
    timestamp; and a key idle for more than 60 seconds is allowed again
    with its count reset to 1, whatever its count was.  No periodic clear
    takes part in this. *)
Theorem C10_eviction_and_refresh (now : Z) (key : string) (max : Z)
    (st : gmap string entry) :
  (forall k' e', snd (checkRateLimit now key max st) !! k' = Some e' ->
                 now - 60000 <= timestamp e') /\
  (forall k' e', k' <> key -> st !! k' = Some e' -> timestamp e' < now - 60000 ->
                 snd (checkRateLimit now key max st) !! k' = None) /\
  (fst (checkRateLimit now key max st) = true ->
   exists e, snd (checkRateLimit now key max st) !! key = Some e /\ timestamp e = now) /\
  (forall e, st !! key = Some e -> timestamp e < now - 60000 ->
             fst (checkRateLimit now key max st) = true /\
             snd (checkRateLimit now key max st) !! key
               = Some {| count := 1; timestamp := now |}).
Proof.
  assert (Hin : forall (v : entry) k' e',
             timestamp v = now ->
             <[key := v]> (cleanOldEntries (now - 60000) st) !! k' = Some e' ->
             now - 60000 <= timestamp e').
  { intros v k' e' Hv H. destruct (decide (key = k')) as [->|Hne].
    - rewrite lookup_insert_eq in H. inversion H; subst. lia.
    - rewrite lookup_insert_ne in H by assumption.
      apply lookup_clean_Some in H. tauto. }
  assert (Hout : forall (v : entry) k' e',
             k' <> key -> st !! k' = Some e' -> timestamp e' < now - 60000 ->
             <[key := v]> (cleanOldEntries (now - 60000) st) !! k' = None).
  { intros v k' e' Hne Hk' Hold. rewrite lookup_insert_ne by congruence.
    apply (lookup_clean_stale _ _ _ _ Hk' Hold). }
  assert (Hidle : forall e ex, st !! key = Some e -> timestamp e < now - 60000 ->
             cleanOldEntries (now - 60000) st !! key = Some ex -> False).
  { intros e ex Hk Hold Hex. rewrite (lookup_clean_stale _ _ _ _ Hk Hold) in Hex.
    discriminate Hex. }
  unfold checkRateLimit. cbv zeta.
  destruct (cleanOldEntries (now - 60000) st !! key) as [ex|] eqn:E.
  - destruct (count ex >=? max) eqn:G; cbn [fst snd].
    + split; [|split; [|split]].
      * intros k' e' H. apply lookup_clean_Some in H. tauto.
      * intros k' e' _ Hk' Hold. apply (lookup_clean_stale _ _ _ _ Hk' Hold).
      * discriminate.
      * intros e Hk Hold. elim (Hidle e ex Hk Hold eq_refl).
    + split; [|split; [|split]].
      * intros k' e'. apply Hin. reflexivity.
      * intros k' e'. apply Hout.
      * intros _. eexists. rewrite lookup_insert_eq. split; reflexivity.
      * intros e Hk Hold. elim (Hidle e ex Hk Hold eq_refl).
  - cbn [fst snd]. split; [|split; [|split]].
    + intros k' e'. apply Hin. reflexivity.
    + intros k' e'. apply Hout.
    + intros _. eexists. rewrite lookup_insert_eq. split; reflexivity.
    + intros e _ _. split; [reflexivity | apply lookup_insert_eq].
Qed.

(** A key at count 9 of 3, idle since time 0, asked again at 100000. *)
Lemma C10_witness :
  fst (checkRateLimit 100000 "k" 3 {["k" := {| count := 9; timestamp := 0 |}]}) = true /\
  snd (checkRateLimit 100000 "k" 3 {["k" := {| count := 9; timestamp := 0 |}]}) !! "k"
    = Some {| count := 1; timestamp := 100000 |}.
Proof.
  destruct (C10_eviction_and_refresh 100000 "k" 3
              {["k" := {| count := 9; timestamp := 0 |}]}) as (_ & _ & _ & H).
  apply (H {| count := 9; timestamp := 0 |}).
  - apply lookup_singleton_eq.
  - simpl. lia.
Defined.

End RateLimiter.

(** ** Doubles that are whole numbers *)

Section Doubles.
Import Number.

Lemma shr_1_exact (q : Z) : 0 <= q -> shr_1 (unshifted (2 * q)) = unshifted q.
Proof. intros Hq. destruct q as [|p|p]; [reflexivity | reflexivity | lia]. Qed.

Lemma iter_pos_iter {A} (f : A -> A) (n : positive) : forall x,
  SpecFloat.iter_pos f n x = Pos.iter f x n.
Proof.
  induction n as [n IH|n IH|]; intros x; simpl.
  - rewrite !IH. rewrite !Pos.iter_swap. reflexivity.
  - rewrite !IH. reflexivity.
  - reflexivity.
Qed.

Lemma shr_exact (n : positive) : forall q, 0 <= q ->
  SpecFloat.iter_pos shr_1 n (unshifted (q * 2 ^ Zpos n)) = unshifted q.
Proof.
  induction n as [|n IH] using Pos.peano_ind; intros q Hq.
  - simpl. replace (q * 2 ^ 1) with (2 * q) by lia. apply shr_1_exact, Hq.
  - rewrite iter_pos_iter, Pos.iter_succ, <- iter_pos_iter.
    replace (q * 2 ^ Zpos (Pos.succ n)) with ((2 * q) * 2 ^ Zpos n).
    + rewrite IH by lia. apply shr_1_exact, Hq.
    + rewrite Pos2Z.inj_succ, Z.pow_succ_r by lia. ring.
Qed.

Lemma iter_xO (d : positive) (m : positive) :
  Zpos (Pos.iter xO m d) = Zpos m * 2 ^ Zpos d.
Proof.
  induction d as [|d IH] using Pos.peano_ind.
  - simpl. lia.
  - rewrite Pos.iter_succ. change (Zpos (Pos.iter xO m d)~0) with (2 * Zpos (Pos.iter xO m d)).
    rewrite IH, Pos2Z.inj_succ, Z.pow_succ_r by lia. ring.
Qed.

Lemma digits2_size (p : positive) : digits2_pos p = Pos.size p.
Proof. induction p; simpl; congruence. Qed.

(** [digits2_pos q] is the number of bits of [q]. *)
Lemma pow2_pred (d : Z) : 0 < d -> 2 ^ d = 2 * 2 ^ (d - 1).
Proof.
  intros Hd. replace d with (Z.succ (d - 1)) at 1 by lia. apply Z.pow_succ_r. lia.
Qed.

(** [digits2_pos q] is the number of bits of [q]. *)
Lemma digits_bounds (q : positive) :
  2 ^ (Zpos (digits2_pos q) - 1) <= Zpos q < 2 ^ Zpos (digits2_pos q).
Proof.
  induction q as [q IH|q IH|]; simpl digits2_pos.
  - rewrite Pos2Z.inj_succ. change (Zpos q~1) with (2 * Zpos q + 1).
    set (D := Zpos (digits2_pos q)) in *.
    assert (HD : 0 < D) by (unfold D; lia).
    clearbody D.
    replace (Z.succ D - 1) with D by lia.
    rewrite (pow2_pred (Z.succ D)) by lia.
    replace (Z.succ D - 1) with D by lia.
    rewrite (pow2_pred D) in * by lia. lia.
  - rewrite Pos2Z.inj_succ. change (Zpos q~0) with (2 * Zpos q).
    set (D := Zpos (digits2_pos q)) in *.
    assert (HD : 0 < D) by (unfold D; lia).
    clearbody D.
    replace (Z.succ D - 1) with D by lia.
    rewrite (pow2_pred (Z.succ D)) by lia.
    replace (Z.succ D - 1) with D by lia.
    rewrite (pow2_pred D) in * by lia. lia.
  - simpl. lia.
Qed.

Lemma digits_unique (q : positive) (d : Z) :
  2 ^ (d - 1) <= Zpos q < 2 ^ d -> Zpos (digits2_pos q) = d.
Proof.
  intros [Hlo Hhi]. destruct (digits_bounds q) as [Klo Khi].
  assert (0 < d).
  { destruct (Z.lt_trichotomy d 0) as [Hd|[Hd|Hd]]; [|subst d; simpl in Hhi; lia|exact Hd].
    rewrite Z.pow_neg_r in Hhi by lia. lia. }
  destruct (Z.lt_trichotomy (Zpos (digits2_pos q)) d) as [Hd|[Hd|Hd]]; [|exact Hd|].
  - assert (2 ^ Zpos (digits2_pos q) <= 2 ^ (d - 1)) by (apply Z.pow_le_mono_r; lia). lia.
  - assert (2 ^ d <= 2 ^ (Zpos (digits2_pos q) - 1)) by (apply Z.pow_le_mono_r; lia). lia.
Qed.

Lemma digits_shift (q : positive) (k : Z) :
  0 <= k -> Zdigits2 (Zpos q * 2 ^ k) = Zpos (digits2_pos q) + k.
Proof.
  intros Hk. destruct (digits_bounds q) as [Hlo Hhi].
  assert (Hp : 0 < 2 ^ k) by (apply Z.pow_pos_nonneg; lia).
  assert (Hpos : 0 < Zpos q * 2 ^ k) by lia.
  destruct (Zpos q * 2 ^ k) as [|m|m] eqn:E; try lia.
  simpl. apply digits_unique. rewrite <- E.
  replace (Zpos (digits2_pos q) + k - 1) with ((Zpos (digits2_pos q) - 1) + k) by lia.
  rewrite !Z.pow_add_r by lia. nia.
Qed.

Lemma digits_le (q : positive) (d : Z) : Zpos q < 2 ^ d -> Zpos (digits2_pos q) <= d.
Proof.
  intros Hq. destruct (digits_bounds q) as [Hlo _].
  destruct (Z_lt_le_dec d (Zpos (digits2_pos q))) as [Hd|Hd]; [|exact Hd].
  assert (2 ^ d <= 2 ^ (Zpos (digits2_pos q) - 1)).
  { destruct (Z_lt_le_dec d 0); [rewrite Z.pow_neg_r in Hq by lia; lia|].
    apply Z.pow_le_mono_r; lia. }
  lia.
Qed.

Lemma fexp_small (d : Z) : -1021 <= d -> fexp prec emax d = d - 53.
Proof. intros H. unfold fexp, emin, prec, emax. lia. Qed.

(** Rounding a whole number of at most 53 bits, written with enough
    bits, changes nothing. *)
Lemma round_aux_integer (s : bool) (q : positive) (k : Z) :
  Zpos (digits2_pos q) <= 53 ->
  53 - Zpos (digits2_pos q) <= k ->
  binary_round_aux prec emax s (Zpos q * 2 ^ k) (- k) loc_Exact = canon s q.
Proof.
  intros HD Hk. set (D := Zpos (digits2_pos q)) in *.
  assert (HD0 : 0 < D) by (unfold D; lia).
  assert (Hk0 : 0 <= k) by lia.
  unfold binary_round_aux, shr_fexp.
  rewrite digits_shift by exact Hk0. fold D.
  replace (D + k + - k) with D by lia.
  rewrite fexp_small by lia.
  set (m' := Zpos q * 2 ^ (53 - D)).
  assert (Hm' : 0 < m') by (unfold m'; assert (0 < 2 ^ (53 - D)) by (apply Z.pow_pos_nonneg; lia); lia).
  assert (Hshr : shr (shr_record_of_loc (Zpos q * 2 ^ k) loc_Exact) (- k) (D - 53 - - k)
                 = (unshifted m', D - 53)).
  { unfold shr. destruct (D - 53 - - k) as [|n|n] eqn:En; try lia.
    - simpl. unfold unshifted, m'. replace (53 - D) with k by lia.
      f_equal. lia.
    - simpl shr_record_of_loc. fold (unshifted (Zpos q * 2 ^ k)).
      replace (Zpos q * 2 ^ k) with (m' * 2 ^ Zpos n).
      + rewrite shr_exact by lia. f_equal. lia.
      + unfold m'. rewrite <- Z.mul_assoc, <- Z.pow_add_r by lia. do 2 f_equal. lia. }
  rewrite Hshr. cbn [unshifted shr_m loc_of_shr_record round_nearest_even].
  unfold m' at 1 2. rewrite digits_shift by lia. fold D. fold m'.
  replace (D + (53 - D) + (D - 53)) with D by lia.
  rewrite fexp_small by lia.
  replace (D - 53 - (D - 53)) with 0 by lia.
  cbn [shr shr_record_of_loc shr_m].
  destruct m' as [|p|p] eqn:E; try lia.
  unfold canon. fold D. fold m'. rewrite E. simpl Z.to_pos.
  destruct (Z.leb_spec (D - 53) (emax - prec)) as [_|H]; [reflexivity|].
  unfold emax, prec in H. lia.
Qed.

Lemma round_integer (s : bool) (q mx : positive) (k : Z) :
  Zpos (digits2_pos q) <= 53 ->
  0 <= k ->
  Zpos mx = Zpos q * 2 ^ k ->
  binary_round prec emax s mx (- k) = canon s q.
Proof.
  intros HD Hk Hmx. set (D := Zpos (digits2_pos q)) in *.
  assert (HD0 : 0 < D) by (unfold D; lia).
  unfold binary_round.
  assert (Hdig : Zpos (digits2_pos mx) = D + k).
  { change (Zpos (digits2_pos mx)) with (Zdigits2 (Zpos mx)). rewrite Hmx.
    apply digits_shift, Hk. }
  rewrite Hdig. replace (D + k + - k) with D by lia. rewrite fexp_small by lia.
  unfold shl_align. destruct (D - 53 - - k) as [|n|n] eqn:En.
  - rewrite Hmx. apply round_aux_integer; fold D; lia.
  - rewrite Hmx. apply round_aux_integer; fold D; lia.
  - rewrite iter_xO, Hmx, <- Z.mul_assoc, <- Z.pow_add_r by lia.
    replace (k + Zpos n) with (53 - D) by lia.
    replace (D - 53) with (- (53 - D)) by lia.
    apply round_aux_integer; fold D; lia.
Qed.

Lemma ofZ_pos (q : positive) : Zpos q < 2 ^ 53 -> ofZ (Zpos q) = canon false q.
Proof.
  intros Hq. unfold ofZ, binary_normalize.
  apply (round_integer false q q 0); [apply digits_le, Hq | lia | lia].
Qed.

Lemma ofZ_neg (q : positive) : Zpos q < 2 ^ 53 -> ofZ (Zneg q) = canon true q.
Proof.
  intros Hq. unfold ofZ, binary_normalize.
  apply (round_integer true q q 0); [apply digits_le, Hq | lia | lia].
Qed.

Lemma canon_mantissa (q : positive) :
  Zpos (digits2_pos q) <= 53 ->
  Zpos (Z.to_pos (Zpos q * 2 ^ (53 - Zpos (digits2_pos q))))
  = Zpos q * 2 ^ (53 - Zpos (digits2_pos q)).
Proof.
  intros HD. apply Z2Pos.id.
  assert (0 < 2 ^ (53 - Zpos (digits2_pos q))) by (apply Z.pow_pos_nonneg; lia). lia.
Qed.

Lemma digits_mul_ge (a b : positive) :
  Zpos (digits2_pos a) + Zpos (digits2_pos b) - 1 <= Zpos (digits2_pos (a * b)).
Proof.
  destruct (digits_bounds a) as [Ha _], (digits_bounds b) as [Hb _].
  destruct (digits_bounds (a * b)) as [_ Hab].
  set (Da := Zpos (digits2_pos a)) in *. set (Db := Zpos (digits2_pos b)) in *.
  set (Dab := Zpos (digits2_pos (a * b))) in *.
  assert (0 < Da) by (unfold Da; lia). assert (0 < Db) by (unfold Db; lia).
  assert (0 < Dab) by (unfold Dab; lia).
  destruct (Z_lt_le_dec Dab (Da + Db - 1)) as [Hlt|Hle]; [|exact Hle].
  assert (Hpow : 2 ^ Dab <= 2 ^ (Da + Db - 2)) by (apply Z.pow_le_mono_r; lia).
  replace (Da + Db - 2) with ((Da - 1) + (Db - 1)) in Hpow by lia.
  rewrite Z.pow_add_r in Hpow by lia.
  rewrite Pos2Z.inj_mul in Hab.
  assert (0 < 2 ^ (Da - 1)) by (apply Z.pow_pos_nonneg; lia).
  assert (0 < 2 ^ (Db - 1)) by (apply Z.pow_pos_nonneg; lia).
  nia.
Qed.

(** Products of whole numbers are exact as long as they have at most
    53 bits. *)
Lemma mul_canon (sa sb : bool) (a b : positive) :
  Zpos a * Zpos b < 2 ^ 53 ->
  mul (canon sa a) (canon sb b) = canon (xorb sa sb) (a * b).
Proof.
  intros Hab.
  assert (HDab : Zpos (digits2_pos (a * b)) <= 53) by (apply digits_le; rewrite Pos2Z.inj_mul; exact Hab).
  assert (HDa : Zpos (digits2_pos a) <= 53) by (apply digits_le; nia).
  assert (HDb : Zpos (digits2_pos b) <= 53) by (apply digits_le; nia).
  pose proof (digits_mul_ge a b) as Hge.
  unfold mul, canon, SFmul.
  rewrite Pos2Z.inj_mul, !canon_mantissa by assumption.
  set (Da := Zpos (digits2_pos a)) in *. set (Db := Zpos (digits2_pos b)) in *.
  replace (Zpos a * 2 ^ (53 - Da) * (Zpos b * 2 ^ (53 - Db)))
    with (Zpos (a * b) * 2 ^ (106 - Da - Db)).
  - replace (Da - 53 + (Db - 53)) with (- (106 - Da - Db)) by lia.
    apply round_aux_integer; [exact HDab | lia].
  - rewrite Pos2Z.inj_mul. replace (106 - Da - Db) with ((53 - Da) + (53 - Db)) by lia.
    rewrite Z.pow_add_r by lia. ring.
Qed.

Lemma ofZ_zero : ofZ 0 = zero.
Proof. reflexivity. Qed.

(** [ofZ] on the whole numbers of at most 53 bits. *)
Lemma ofZ_cases (n : Z) :
  Z.abs n < 2 ^ 53 ->
  match n with
  | Z0 => ofZ n = zero
  | Zpos q => ofZ n = canon false q
  | Zneg q => ofZ n = canon true q
  end.
Proof.
  intros Hn. destruct n as [|q|q].
  - reflexivity.
  - apply ofZ_pos. exact Hn.
  - apply ofZ_neg. exact Hn.
Qed.

Lemma mul_ofZ (a b : Z) :
  0 < b < 2 ^ 53 -> Z.abs (a * b) < 2 ^ 53 -> mul (ofZ a) (ofZ b) = ofZ (a * b).
Proof.
  intros Hb Hab.
  destruct b as [|b|b]; try lia. rewrite (ofZ_pos b) by lia.
  destruct a as [|a|a].
  - reflexivity.
  - change (Zpos a * Zpos b) with (Zpos (a * b)) in *.
    rewrite (ofZ_pos a), (ofZ_pos (a * b)) by nia.
    apply mul_canon. lia.
  - change (Zneg a * Zpos b) with (Zneg (a * b)) in *.
    rewrite (ofZ_neg a), (ofZ_neg (a * b)) by nia.
    apply mul_canon. lia.
Qed.

Lemma shl_align_min (m : positive) (e ez : Z) :
  ez <= e -> Zpos (fst (shl_align m e ez)) = Zpos m * 2 ^ (e - ez).
Proof.
  intros He. unfold shl_align. destruct (ez - e) as [|d|d] eqn:E; try lia.
  - simpl. replace (e - ez) with 0 by lia. lia.
  - simpl. rewrite iter_xO. f_equal. f_equal. lia.
Qed.

(** The aligned mantissa of a whole number. *)
Lemma canon_aligned (q : positive) (ez : Z) :
  Zpos (digits2_pos q) <= 53 ->
  ez <= Zpos (digits2_pos q) - 53 ->
  Zpos (fst (shl_align (Z.to_pos (Zpos q * 2 ^ (53 - Zpos (digits2_pos q))))
               (Zpos (digits2_pos q) - 53) ez))
  = Zpos q * 2 ^ (- ez).
Proof.
  intros HD Hez. rewrite shl_align_min by exact Hez. rewrite canon_mantissa by exact HD.
  rewrite <- Z.mul_assoc, <- Z.pow_add_r by lia. do 2 f_equal. lia.
Qed.

Lemma normalize_integer (n k : Z) :
  Z.abs n < 2 ^ 53 -> 0 <= k ->
  binary_normalize prec emax (n * 2 ^ k) (- k) false = ofZ n.
Proof.
  intros Hn Hk. pose proof (ofZ_cases n Hn) as En.
  assert (Hp : 0 < 2 ^ k) by (apply Z.pow_pos_nonneg; lia).
  destruct n as [|q|q].
  - reflexivity.
  - rewrite En. destruct (Zpos q * 2 ^ k) as [|m|m] eqn:E; try lia.
    simpl. apply round_integer; [apply digits_le, Hn | exact Hk | symmetry; exact E].
  - rewrite En. destruct (Zneg q * 2 ^ k) as [|m|m] eqn:E; try lia.
    simpl. apply round_integer; [apply digits_le, Hn | exact Hk | lia].
Qed.

Lemma cond_Zopp_false (m : Z) : cond_Zopp false m = m.
Proof. reflexivity. Qed.

(** Sums and differences of positive whole numbers are exact as long as
    they have at most 53 bits. *)
Lemma add_ofZ (a b : Z) :
  0 < a -> 0 < b -> a + b < 2 ^ 53 -> add (ofZ a) (ofZ b) = ofZ (a + b).
Proof.
  intros Ha Hb Hab.
  destruct a as [|a|a]; try lia. destruct b as [|b|b]; try lia.
  rewrite (ofZ_pos a), (ofZ_pos b) by lia.
  assert (HDa : Zpos (digits2_pos a) <= 53) by (apply digits_le; lia).
  assert (HDb : Zpos (digits2_pos b) <= 53) by (apply digits_le; lia).
  unfold add, canon, SFadd. cbv zeta.
  set (ez := Z.min (Zpos (digits2_pos a) - 53) (Zpos (digits2_pos b) - 53)).
  rewrite !cond_Zopp_false, !canon_aligned by (assumption || (unfold ez; lia)).
  rewrite <- Z.mul_add_distr_r.
  replace ez with (- - ez) at 2 by lia.
  apply normalize_integer; [lia | unfold ez; lia].
Qed.

Lemma sub_ofZ (a b : Z) :
  0 < a < 2 ^ 53 -> 0 < b < 2 ^ 53 -> sub (ofZ a) (ofZ b) = ofZ (a - b).
Proof.
  intros Ha Hb.
  destruct a as [|a|a]; try lia. destruct b as [|b|b]; try lia.
  rewrite (ofZ_pos a), (ofZ_pos b) by lia.
  assert (HDa : Zpos (digits2_pos a) <= 53) by (apply digits_le; lia).
  assert (HDb : Zpos (digits2_pos b) <= 53) by (apply digits_le; lia).
  unfold sub, canon, SFsub. cbv zeta.
  set (ez := Z.min (Zpos (digits2_pos a) - 53) (Zpos (digits2_pos b) - 53)).
  rewrite !cond_Zopp_false, !canon_aligned by (assumption || (unfold ez; lia)).
  rewrite <- Z.mul_sub_distr_r.
  replace ez with (- - ez) at 2 by lia.
  apply normalize_integer; [lia | unfold ez; lia].
Qed.

Lemma canon_compare (a b : positive) :
  Zpos (digits2_pos a) <= 53 -> Zpos (digits2_pos b) <= 53 ->
  match Zpos (digits2_pos a) - 53 ?= Zpos (digits2_pos b) - 53 with
  | Lt => Lt
  | Gt => Gt
  | Eq => Pos.compare_cont Eq
            (Z.to_pos (Zpos a * 2 ^ (53 - Zpos (digits2_pos a))))
            (Z.to_pos (Zpos b * 2 ^ (53 - Zpos (digits2_pos b))))
  end = (Zpos a ?= Zpos b).
Proof.
  intros HDa HDb.
  destruct (digits_bounds a) as [La Ua], (digits_bounds b) as [Lb Ub].
  set (Da := Zpos (digits2_pos a)) in *. set (Db := Zpos (digits2_pos b)) in *.
  assert (0 < Da) by (unfold Da; lia). assert (0 < Db) by (unfold Db; lia).
  destruct (Z.compare_spec (Da - 53) (Db - 53)) as [E|E|E].
  - assert (Da = Db) by lia.
    change (Pos.compare_cont Eq ?x ?y) with (Zpos x ?= Zpos y).
    rewrite !Z2Pos.id.
    + replace Db with Da by lia.
      assert (Hp : 0 < 2 ^ (53 - Da)) by (apply Z.pow_pos_nonneg; lia).
      destruct (Z.compare_spec (Zpos a) (Zpos b)) as [C|C|C].
      * rewrite C. apply Z.compare_refl.
      * apply Z.compare_lt_iff. nia.
      * apply Z.compare_gt_iff. nia.
    + assert (0 < 2 ^ (53 - Db)) by (apply Z.pow_pos_nonneg; lia). lia.
    + assert (0 < 2 ^ (53 - Da)) by (apply Z.pow_pos_nonneg; lia). lia.
  - symmetry. apply Z.compare_lt_iff.
    assert (2 ^ Da <= 2 ^ (Db - 1)) by (apply Z.pow_le_mono_r; lia). lia.
  - symmetry. apply Z.compare_gt_iff.
    assert (2 ^ Db <= 2 ^ (Da - 1)) by (apply Z.pow_le_mono_r; lia). lia.
Qed.

(** The order of the doubles of whole numbers is that of the numbers. *)
Lemma compare_ofZ (a b : Z) :
  Z.abs a < 2 ^ 53 -> Z.abs b < 2 ^ 53 -> SFcompare (ofZ a) (ofZ b) = Some (a ?= b).
Proof.
  intros Ha Hb.
  pose proof (ofZ_cases a Ha) as Ea. pose proof (ofZ_cases b Hb) as Eb.
  destruct a as [|a|a], b as [|b|b]; rewrite ?Ea, ?Eb; try reflexivity.
  - unfold canon, SFcompare. f_equal.
    apply canon_compare; apply digits_le; lia.
  - unfold canon, SFcompare. f_equal.
    change (Zneg a ?= Zneg b) with (CompOpp (Zpos a ?= Zpos b)).
    rewrite <- (canon_compare a b) by (apply digits_le; lia).
    destruct (Zpos (digits2_pos a) - 53 ?= Zpos (digits2_pos b) - 53); reflexivity.
Qed.

Lemma lt_ofZ (a b : Z) :
  Z.abs a < 2 ^ 53 -> Z.abs b < 2 ^ 53 -> lt (ofZ a) (ofZ b) = (a <? b).
Proof.
  intros Ha Hb. unfold lt, SFltb. rewrite compare_ofZ by assumption.
  unfold Z.ltb. destruct (a ?= b); reflexivity.
Qed.

Lemma gt_ofZ (a b : Z) :
  Z.abs a < 2 ^ 53 -> Z.abs b < 2 ^ 53 -> gt (ofZ a) (ofZ b) = (b <? a).
Proof. intros Ha Hb. apply lt_ofZ; assumption. Qed.

Lemma isNaN_ofZ (a : Z) : Z.abs a < 2 ^ 53 -> isNaN (ofZ a) = false.
Proof.
  intros Ha. pose proof (ofZ_cases a Ha) as Ea. destruct a; rewrite Ea; reflexivity.
Qed.

(** Whole numbers are left alone by [Math.round]. *)
Lemma round_ofZ (n : Z) : Z.abs n < 2 ^ 53 -> round (ofZ n) = ofZ n.
Proof.
  intros Hn. pose proof (ofZ_cases n Hn) as En.
  assert (Hround : forall s q, Zpos q < 2 ^ 53 ->
            ofZ (cond_Zopp s (Zpos q)) = canon s q -> round (canon s q) = canon s q).
  { intros s q Hq Hof. unfold round, canon.
    assert (HD : Zpos (digits2_pos q) <= 53) by (apply digits_le, Hq).
    set (D := Zpos (digits2_pos q)) in *.
    destruct (Z.leb_spec 0 (D - 53)) as [_|Hlt]; [reflexivity|].
    rewrite Z2Pos.id by (assert (0 < 2 ^ (53 - D)) by (apply Z.pow_pos_nonneg; lia); lia).
    replace (- (D - 53)) with (53 - D) by lia.
    assert (Hp : 0 < 2 ^ (53 - D - 1)) by (apply Z.pow_pos_nonneg; lia).
    assert (Hpow : 2 ^ (53 - D) = 2 * 2 ^ (53 - D - 1)) by (apply pow2_pred; lia).
    assert (Hdiv : (cond_Zopp s (Zpos q * 2 ^ (53 - D)) + 2 ^ (53 - D - 1)) / 2 ^ (53 - D)
                   = cond_Zopp s (Zpos q)).
    { symmetry. apply (Z.div_unique_pos _ _ _ (2 ^ (53 - D - 1))); [lia|].
      destruct s; simpl cond_Zopp; lia. }
    rewrite Hdiv.
    destruct (Z.eqb_spec (cond_Zopp s (Zpos q)) 0) as [E|_]; [destruct s; simpl in E; lia|].
    rewrite Hof. reflexivity. }
  destruct n as [|q|q]; rewrite En.
  - reflexivity.
  - apply Hround; [exact Hn | exact En].
  - apply Hround; [exact Hn | exact En].
Qed.

(** Comparing the other way round gives the opposite answer. *)
Lemma compare_swap (x y : number) :
  SFcompare y x = match SFcompare x y with Some c => Some (CompOpp c) | None => None end.
Proof.
  destruct x as [[|]|[|]| |[|] mx ex], y as [[|]|[|]| |[|] my ey]; try reflexivity;
    simpl; rewrite (Z.compare_antisym ex ey);
    destruct (ex ?= ey); simpl; try reflexivity;
    change (Pos.compare_cont Eq my mx) with (my ?= mx)%positive;
    change (Pos.compare_cont Eq mx my) with (mx ?= my)%positive;
    rewrite (Pos.compare_antisym mx my); destruct (mx ?= my)%positive; reflexivity.
Qed.

(** Two numbers are comparable unless one of them is [NaN]. *)
Lemma compare_defined (x y : number) :
  isNaN x = false -> isNaN y = false -> SFcompare x y <> None.
Proof.
  destruct x as [?|?| |? ? ?], y as [?|?| |? ? ?]; simpl; intros; congruence.
Qed.

(** The test [isNaN(v) || v < lo || v > hi] fails exactly when
    [lo <= v] and [v <= hi]. *)
Lemma between_bounds (v lo hi : number) :
  isNaN lo = false -> isNaN hi = false ->
  negb (isNaN v || lt v lo || gt v hi) = SFleb lo v && SFleb v hi.
Proof.
  intros Hlo Hhi.
  unfold lt, gt, SFltb, SFleb. rewrite (compare_swap v lo), (compare_swap v hi).
  destruct (isNaN v) eqn:Hv.
  - destruct v; try discriminate Hv. reflexivity.
  - pose proof (compare_defined v lo Hv Hlo) as Dlo.
    pose proof (compare_defined v hi Hv Hhi) as Dhi.
    destruct (SFcompare v lo) as [[| |]|]; try congruence;
      destruct (SFcompare v hi) as [[| |]|]; try congruence; reflexivity.
Qed.

End Doubles.

(** ** The savings calculator *)

Section SavingsCalculator.
Import Number Calculator CalculatorCases.

Lemma validOptions_cases (m : string) :
  m ∈ validOptions -> m = "exchange" \/ m = "traditional" \/ m = "lease".
Proof.
  unfold validOptions. rewrite !elem_of_cons, elem_of_nil. tauto.
Qed.

(** What [getValidatedInputs] returns is validated, and it returns the
    values it was given. *)
Lemma getValidatedInputs_validated d k v m i :
  getValidatedInputs d k v m = Some i ->
  validated i /\ d = Some (dieselCost i) /\ k = Some (monthlyKm i) /\
  v = Some (vehicleCount i) /\ m = Some (ppaModel i).
Proof.
  unfold getValidatedInputs, validateNumberInput, validateSelectInput, validated, inRange.
  destruct d as [d|]; [|discriminate].
  destruct (isNaN d || lt d (ofZ 50000) || gt d (ofZ 1000000)) eqn:Ed; [discriminate|].
  destruct k as [k|]; [|discriminate].
  destruct (isNaN k || lt k (ofZ 100) || gt k (ofZ 10000)) eqn:Ek; [discriminate|].
  destruct v as [v|]; [|discriminate].
  destruct (isNaN v || lt v (ofZ 1) || gt v (ofZ 50)) eqn:Ev; [discriminate|].
  destruct m as [m|]; [|discriminate].
  case_bool_decide as Hm; [|discriminate].
  case_bool_decide; [discriminate|].
  intros [= <-]. cbn [dieselCost monthlyKm vehicleCount ppaModel].
  rewrite Ed, Ek, Ev. repeat split; auto.
Qed.

(** Validated inputs are accepted as they are. *)
Lemma validated_getValidatedInputs (i : inputs) :
  validated i ->
  getValidatedInputs (Some (dieselCost i)) (Some (monthlyKm i)) (Some (vehicleCount i))
    (Some (ppaModel i)) = Some i.
Proof.
  intros (Hd & Hk & Hv & Hm). unfold inRange in Hd, Hk, Hv.
  apply negb_true_iff in Hd, Hk, Hv.
  unfold getValidatedInputs, validateNumberInput, validateSelectInput.
  rewrite Hd, Hk, Hv, bool_decide_eq_true_2 by exact Hm.
  apply validOptions_cases in Hm.
  destruct i as [dc km vc pm]. simpl in *.
  destruct Hm as [-> | [-> | ->]]; reflexivity.
Qed.

Lemma inRange_ofZ (n min max : Z) :
  Z.abs n < 2 ^ 53 -> Z.abs min < 2 ^ 53 -> Z.abs max < 2 ^ 53 ->
  inRange (ofZ n) min max = (min <=? n) && (n <=? max).
Proof.
  intros Hn Hmin Hmax. unfold inRange.
  rewrite isNaN_ofZ, lt_ofZ, gt_ofZ by assumption.
  rewrite !negb_orb. simpl.
  rewrite <- !Z.leb_antisym. reflexivity.
Qed.

(** A number passes the test of [validateNumberInput] exactly when it
    lies between the two bounds, bounds included: fractions pass as
    whole numbers do. *)
Lemma inRange_between (v : number) (min max : Z) :
  Z.abs min < 2 ^ 53 -> Z.abs max < 2 ^ 53 ->
  inRange v min max = SFleb (ofZ min) v && SFleb v (ofZ max).
Proof.
  intros Hmin Hmax. unfold inRange.
  apply between_bounds; apply isNaN_ofZ; assumption.
Qed.

(** Whole numbers inside the ranges are validated inputs. *)
Lemma whole_validated (d k v : Z) (m : string) :
  50000 <= d <= 1000000 -> 100 <= k <= 10000 -> 1 <= v <= 50 -> m ∈ validOptions ->
  validated (whole d k v m).
Proof.
  intros Hd Hk Hv Hm. unfold validated, whole. simpl.
  rewrite !inRange_ofZ by (change (2 ^ 53) with 9007199254740992; lia).
  repeat split; try exact Hm; apply andb_true_intro; split; apply Z.leb_le; lia.
Qed.

(** The formulas of the specification for the new monthly cost, on
    whole numbers. *)
Lemma newMonthlyCostOf_whole (d k v : Z) (m : string) (current : number) :
  100 <= k <= 10000 -> 1 <= v <= 50 -> m ∈ validOptions ->
  newMonthlyCostOf (whole d k v m) current
  = ofZ (if bool_decide (m = "exchange") then 120000 * v
         else if bool_decide (m = "traditional") then 95000 * v + 14 * k * v
         else 175000 * v).
Proof.
  intros Hk Hv Hm. apply validOptions_cases in Hm.
  unfold newMonthlyCostOf, whole. cbn [ppaModel vehicleCount monthlyKm].
  case_bool_decide as E1; [|case_bool_decide as E2; [|case_bool_decide as E3]].
  - apply mul_ofZ; change (2 ^ 53) with 9007199254740992; lia.
  - rewrite (mul_ofZ 95000 v), (mul_ofZ 14 k), (mul_ofZ (14 * k) v)
      by (change (2 ^ 53) with 9007199254740992; nia).
    apply add_ofZ; change (2 ^ 53) with 9007199254740992; nia.
  - apply mul_ofZ; change (2 ^ 53) with 9007199254740992; lia.
  - exfalso. tauto.
Qed.

(** On validated whole numbers every operation of [calculateSavings]
    but the division is exact: its operands and its result are whole
    numbers below 2^53. *)
Lemma calculateSavings_whole (d k v : Z) (m : string) :
  50000 <= d <= 1000000 -> 100 <= k <= 10000 -> 1 <= v <= 50 -> m ∈ validOptions ->
  let new := if bool_decide (m = "exchange") then 120000 * v
             else if bool_decide (m = "traditional") then 95000 * v + 14 * k * v
             else 175000 * v in
  currentMonthlyCost (calculateSavings (whole d k v m)) = ofZ (d * v) /\
  newMonthlyCost (calculateSavings (whole d k v m)) = ofZ new /\
  monthlySavings (calculateSavings (whole d k v m)) = ofZ (d * v - new) /\
  annualSavings (calculateSavings (whole d k v m)) = ofZ (12 * (d * v - new)).
Proof.
  intros Hd Hk Hv Hm new.
  assert (Hnew : 0 < new < 2 ^ 53).
  { unfold new. change (2 ^ 53) with 9007199254740992.
    repeat case_bool_decide; nia. }
  assert (Hcur : 0 < d * v < 2 ^ 53) by (change (2 ^ 53) with 9007199254740992; nia).
  unfold calculateSavings. cbn [currentMonthlyCost newMonthlyCost monthlySavings annualSavings].
  rewrite (newMonthlyCostOf_whole d k v m) by assumption. fold new.
  cbn [whole dieselCost vehicleCount].
  rewrite (mul_ofZ d v) by (change (2 ^ 53) with 9007199254740992; nia).
  rewrite (sub_ofZ (d * v) new) by assumption.
  assert (Hsav : Z.abs (d * v - new) < 50000001).
  { unfold new. repeat case_bool_decide; nia. }
  rewrite (mul_ofZ (d * v - new) 12) by (change (2 ^ 53) with 9007199254740992; lia).
  repeat split. f_equal. ring.
Qed.

(** C4. On validated inputs [calculateSavings] returns the diesel cost
    times the number of vehicles as the current cost, the new cost of the
    chosen model (exchange 120000 per vehicle; traditional 95000 per
    vehicle plus 14 per kilometre and vehicle; lease 175000 per vehicle),
    their difference as the monthly savings and twelve times it as the
    annual savings, each operation being that of the script on doubles;
    and when the three numbers are whole, these are exactly the whole
    numbers the formulas give. *)
Theorem C4_calculateSavings_formula (i : inputs) :
  validated i ->
  currentMonthlyCost (calculateSavings i) = mul (dieselCost i) (vehicleCount i) /\
  (ppaModel i = "exchange" ->
   newMonthlyCost (calculateSavings i) = mul (ofZ 120000) (vehicleCount i)) /\
  (ppaModel i = "traditional" ->
   newMonthlyCost (calculateSavings i)
     = add (mul (ofZ 95000) (vehicleCount i))
           (mul (mul (ofZ 14) (monthlyKm i)) (vehicleCount i))) /\
  (ppaModel i = "lease" ->
   newMonthlyCost (calculateSavings i) = mul (ofZ 175000) (vehicleCount i)) /\
  (ppaModel i = "exchange" \/ ppaModel i = "traditional" \/ ppaModel i = "lease") /\
  monthlySavings (calculateSavings i)
    = sub (currentMonthlyCost (calculateSavings i)) (newMonthlyCost (calculateSavings i)) /\
  annualSavings (calculateSavings i) = mul (monthlySavings (calculateSavings i)) (ofZ 12) /\
  (forall d k v : Z,
     dieselCost i = ofZ d -> monthlyKm i = ofZ k -> vehicleCount i = ofZ v ->
     50000 <= d <= 1000000 -> 100 <= k <= 10000 -> 1 <= v <= 50 ->
     currentMonthlyCost (calculateSavings i) = ofZ (d * v) /\
     (ppaModel i = "exchange" -> newMonthlyCost (calculateSavings i) = ofZ (120000 * v)) /\
     (ppaModel i = "traditional" ->
      newMonthlyCost (calculateSavings i) = ofZ (95000 * v + 14 * k * v)) /\
     (ppaModel i = "lease" -> newMonthlyCost (calculateSavings i) = ofZ (175000 * v)) /\
     exists current new : Z,
       currentMonthlyCost (calculateSavings i) = ofZ current /\
       newMonthlyCost (calculateSavings i) = ofZ new /\
       monthlySavings (calculateSavings i) = ofZ (current - new) /\
       annualSavings (calculateSavings i) = ofZ (12 * (current - new))).
Proof.
  intros (_ & _ & _ & Hm).
  split; [reflexivity|].
  split; [intros E; unfold calculateSavings, newMonthlyCostOf; simpl; rewrite E; reflexivity|].
  split; [intros E; unfold calculateSavings, newMonthlyCostOf; simpl; rewrite E; reflexivity|].
  split; [intros E; unfold calculateSavings, newMonthlyCostOf; simpl; rewrite E; reflexivity|].
  split; [apply validOptions_cases; exact Hm|].
  split; [reflexivity|]. split; [reflexivity|].
  intros d k v Ed Ek Ev Hd Hk Hv.
  assert (Ei : i = whole d k v (ppaModel i)).
  { destruct i as [dc km vc pm]. simpl in *. subst. reflexivity. }
  destruct (calculateSavings_whole d k v (ppaModel i) Hd Hk Hv Hm) as (Hc & Hn & Hs & Ha).
  rewrite <- Ei in Hc, Hn, Hs, Ha.
  split; [exact Hc|].
  split; [intros E; rewrite Hn, E; reflexivity|].
  split; [intros E; rewrite Hn, E; reflexivity|].
  split; [intros E; rewrite Hn, E; reflexivity|].
  eexists _, _. repeat split; eassumption.
Qed.

Lemma C4_witness :
  currentMonthlyCost (calculateSavings example_inputs) = ofZ 250000 /\
  newMonthlyCost (calculateSavings example_inputs) = ofZ 120000 /\
  monthlySavings (calculateSavings example_inputs) = ofZ 130000 /\
  annualSavings (calculateSavings example_inputs) = ofZ 1560000.
Proof.
  destruct (C4_calculateSavings_formula example_inputs)
    as (_ & _ & _ & _ & _ & _ & _ & Hwhole).
  - apply whole_validated; [lia | lia | lia | apply list_elem_of_here].
  - destruct (Hwhole 250000 2000 1) as (Hc & He & _ & _ & _);
      [reflexivity | reflexivity | reflexivity | lia | lia | lia |].
    split; [exact Hc|]. split; [apply He; reflexivity|].
    split; vm_compute; reflexivity.
Defined.

(** The formulas hold of inputs that are not whole numbers too, with
    each product and difference rounded: seven vehicles at 300000.7 save
    1260004.9 a month, which is not seven times the 180000.7 that one
    vehicle saves, 1260004.9000000001. *)
Lemma calculateSavings_rounds :
  validated (fractional_inputs 7) /\ validated (fractional_inputs 1) /\
  monthlySavings (calculateSavings (fractional_inputs 7)) = tenths 12600049 /\
  monthlySavings (calculateSavings (fractional_inputs 1)) = tenths 1800007 /\
  mul (monthlySavings (calculateSavings (fractional_inputs 1))) (ofZ 7)
  <> monthlySavings (calculateSavings (fractional_inputs 7)).
Proof.
  repeat split; try (vm_compute; reflexivity);
    try (apply list_elem_of_here).
  vm_compute. discriminate.
Qed.

(** The percentage is printed from the double the script holds: for
    113600 of diesel, 152 km and one vehicle under the traditional model
    the savings are 16472 of 113600, the double of the percentage lies
    just below 14.5, and the text is 14%. *)
Lemma percentage_is_printed_from_the_double :
  validated (whole 113600 152 1 "traditional") /\
  monthlySavings (calculateSavings (whole 113600 152 1 "traditional")) = ofZ 16472 /\
  lt (savingsPercent (calculateSavings (whole 113600 152 1 "traditional"))) (tenths 145)
    = true /\
  percentText (displayResults (calculateSavings (whole 113600 152 1 "traditional")))
    = Text "14%".
Proof.
  split.
  - apply whole_validated; try lia.
    unfold validOptions. apply list_elem_of_further, list_elem_of_here.
  - repeat split; vm_compute; reflexivity.
Qed.






End SavingsCalculator.

(** ** The form handler *)

Section FormSubmission.
Import JS FormHandler FormCases FormRuns.
Local Open Scope js_scope.

Lemma keepsButton_ret {A} (a : A) : keepsButton (ret a).
Proof. intros d H. exact H. Qed.

Lemma keepsButton_throw {A} (e : error) : keepsButton (@throw A e).
Proof. intros d H. exact H. Qed.

Lemma keepsButton_get : keepsButton get.
Proof. intros d H. exact H. Qed.

Lemma keepsButton_modify (f : document -> document) :
  (forall d, is_Some (submitButton d) -> is_Some (submitButton (f d))) ->
  keepsButton (modify f).
Proof. intros Hf d H. apply Hf, H. Qed.

Lemma keepsButton_bind {A B} (m : M A) (k : A -> M B) :
  keepsButton m -> (forall a, keepsButton (k a)) -> keepsButton (bindM m k).
Proof.
  intros Hm Hk d H. unfold bindM. specialize (Hm d H).
  destruct (m d) as [d1 [a|e]]; simpl in *.
  - apply Hk, Hm.
  - exact Hm.
Qed.

Lemma keepsButton_raiseIf (o : option error) : keepsButton (raiseIf o).
Proof. destruct o; [apply keepsButton_throw | apply keepsButton_ret]. Qed.

Lemma keepsButton_showNotification env msg type :
  keepsButton (showNotification env msg type).
Proof.
  apply keepsButton_bind; [apply keepsButton_raiseIf |].
  intros _. apply keepsButton_modify. intros d H. exact H.
Qed.

Lemma not_loading_after_remove (l : list string) :
  "loading" ∉ classList_remove "loading" l.
Proof.
  unfold classList_remove. rewrite list_elem_of_filter. intros [Hne _]. apply Hne. reflexivity.
Qed.

Lemma setLoadingState_ready (b : button) (text : string) :
  ready text (setLoadingState b false text).
Proof.
  unfold ready, setLoadingState. simpl.
  repeat split. apply not_loading_after_remove.
Qed.

(** Whatever the [try] block and the [catch] block do and however they
    end, the [finally] block leaves the control ready. *)
Lemma try_catch_finally_restores {A} (body : M A) (handler : error -> M A)
    (text : string) (d : document) :
  keepsButton body -> (forall e, keepsButton (handler e)) ->
  is_Some (submitButton d) ->
  exists b, submitButton (fst (try_catch_finally body handler (setLoading false text) d))
            = Some b /\ ready text b.
Proof.
  intros Hb Hh Hd. unfold try_catch_finally.
  specialize (Hb d Hd).
  destruct (body d) as [d1 c1]. simpl in Hb.
  assert (H2 : is_Some (submitButton
                 (fst (match c1 with
                       | Normal a => (d1, Normal a)
                       | Throw e => handler e d1
                       end)))).
  { destruct c1 as [a|e]; [exact Hb | apply Hh, Hb]. }
  destruct (match c1 with Normal a => (d1, Normal a) | Throw e => handler e d1 end)
    as [d2 c2].
  simpl in H2. destruct H2 as [b2 Hb2].
  unfold setLoading, modify. simpl. rewrite Hb2. simpl.
  eexists. split; [reflexivity | apply setLoadingState_ready].
Qed.

(** The loop over the fields: the verdict is that of all fields, and
    every control gets the marks of its own verdict, whatever elements
    the lookups by id find. *)
Lemma validateEach_fields (fs : list field) : forall ms,
  validateEach fs ms
  = (forallb (fun f => fst (fieldVerdict f)) fs,
     (validatedFields fs, validatedMessages fs ms)).
Proof.
  unfold validatedMessages.
  induction fs as [|f fs IH]; intros ms; [reflexivity|].
  cbn [validateEach forallb validatedFields map].
  unfold validateField, showFieldError, clearFieldError.
  destruct (fieldVerdict f) as [[|] msg]; cbn [fst snd negb].
  - rewrite IH. reflexivity.
  - rewrite IH. reflexivity.
Qed.

Lemma validateAll_fields (d : document) :
  validateAll d
  = (set_errorMessages (validatedMessages (fields d) (errorMessages d))
       (set_fields (validatedFields (fields d)) d),
     Normal (forallb (fun f => fst (fieldVerdict f)) (fields d))).
Proof. unfold validateAll. rewrite validateEach_fields. reflexivity. Qed.

Lemma validateAll_valid (d : document) :
  Forall (fun f => fst (fieldVerdict f) = true) (fields d) ->
  snd (validateAll d) = Normal true /\
  submitButton (fst (validateAll d)) = submitButton d.
Proof.
  intros Hall. rewrite validateAll_fields. simpl. split; [|reflexivity].
  f_equal. induction Hall as [|f fs Hf _ IH]; [reflexivity|].
  simpl. rewrite Hf. exact IH.
Qed.

(** C9. A submission that reaches the loading state (the rate limiter
    allows it, every field is valid, the form has a submit control) ends
    with the control ready again: enabled, [aria-disabled] false, showing
    the text it had when the handler started, and without the class
    [loading].  This holds for every behaviour of the browser: the draw
    that resolves or rejects the simulated call, and an exception thrown
    by any call inside the [try] or the [catch] block. *)
Theorem C9_submit_control_restored (env : browser) (now : Z) (d : document) (b : button) :
  fst (SecurityFramework.checkRateLimit now "form_submission" 3 (rateLimitStore d)) = true ->
  Forall (fun f => fst (fieldVerdict f) = true) (fields d) ->
  submitButton d = Some b ->
  (forall d', is_Some (submitButton d') -> is_Some (submitButton (duringWait env d'))) ->
  exists b', submitButton (fst (handleFormSubmission env now d)) = Some b' /\
             ready (textContent b) b'.
Proof.
  intros Hrate Hvalid Hbtn Hwait.
  unfold handleFormSubmission, bindM at 1, securityCheck.
  destruct (SecurityFramework.checkRateLimit now "form_submission" 3 (rateLimitStore d))
    as [ok st] eqn:Erl.
  simpl in Hrate. subst ok. cbn [negb].
  unfold bindM at 1.
  destruct (validateAll_valid (set_rateLimitStore st d) Hvalid) as [Hv Hb].
  destruct (validateAll (set_rateLimitStore st d)) as [d1 c1]. simpl in Hv, Hb. subst c1.
  cbn [negb]. unfold bindM at 1, get. cbn [set_rateLimitStore submitButton] in Hb.
  rewrite Hb, Hbtn.
  unfold bindM at 1, setLoading at 1, modify at 1.
  apply try_catch_finally_restores.
  - apply keepsButton_bind.
    + apply keepsButton_bind; [apply keepsButton_raiseIf |].
      intros _. apply keepsButton_bind; [apply keepsButton_get |].
      intros d0. apply keepsButton_ret.
    + intros data. apply keepsButton_bind.
      * unfold processFormSubmission. apply keepsButton_bind.
        -- apply keepsButton_modify. exact Hwait.
        -- intros _. destruct (Qle_bool (1 # 10) (random env)).
           ++ apply keepsButton_modify. intros d0 H0. exact H0.
           ++ apply keepsButton_throw.
      * intros _. apply keepsButton_bind; [apply keepsButton_showNotification |].
        intros _. apply keepsButton_bind; [apply keepsButton_raiseIf |].
        intros _. apply keepsButton_modify. intros d0 H0. exact H0.
  - intros e. apply keepsButton_bind.
    + apply keepsButton_modify. intros d0 H0. exact H0.
    + intros _. apply keepsButton_showNotification.
  - simpl. rewrite Hb, Hbtn. simpl. eauto.
Qed.

Lemma contactDocument_valid :
  Forall (fun f => fst (fieldVerdict f) = true) (fields contactDocument).
Proof. repeat constructor. Qed.

(** The three exit paths on the filled-in form: the simulated call
    resolves (draw 1/2), it rejects (draw 1/20), and [form.reset()]
    throws; each time the control ends ready with its original text. *)
Lemma C9_witness :
  (exists b', submitButton (fst (handleFormSubmission (calmBrowser (1 # 2)) 1000
                                   contactDocument)) = Some b' /\
              ready "Get Free Premium Assessment" b') /\
  (exists b', submitButton (fst (handleFormSubmission (calmBrowser (1 # 20)) 1000
                                   contactDocument)) = Some b' /\
              ready "Get Free Premium Assessment" b') /\
  (exists b', submitButton (fst (handleFormSubmission resetBreaks 1000
                                   contactDocument)) = Some b' /\
              ready "Get Free Premium Assessment" b').
Proof.
  repeat split.
  - apply (C9_submit_control_restored (calmBrowser (1 # 2)) 1000 contactDocument contactButton).
    + vm_compute. reflexivity.
    + apply contactDocument_valid.
    + reflexivity.
    + intros d' H. exact H.
  - apply (C9_submit_control_restored (calmBrowser (1 # 20)) 1000 contactDocument contactButton).
    + vm_compute. reflexivity.
    + apply contactDocument_valid.
    + reflexivity.
    + intros d' H. exact H.
  - apply (C9_submit_control_restored resetBreaks 1000 contactDocument contactButton).
    + vm_compute. reflexivity.
    + apply contactDocument_valid.
    + reflexivity.
    + intros d' H. exact H.
Defined.

(** The three paths do end differently: a success notification, an error
    notification with the rejection logged, and an error notification
    with the exception logged. *)
Lemma submission_paths :
  globalNotification (fst (handleFormSubmission (calmBrowser (1 # 2)) 1000 contactDocument))
    = Some {| message := "Thank you! We have received your inquiry and will contact you within 24 hours.";
              kind := "success" |} /\
  (exists n, globalNotification
               (fst (handleFormSubmission (calmBrowser (1 # 20)) 1000 contactDocument)) = Some n
             /\ kind n = "error") /\
  console (fst (handleFormSubmission (calmBrowser (1 # 20)) 1000 contactDocument))
    = [ConsoleError "Form submission error:" (Error "Network error")] /\
  console (fst (handleFormSubmission resetBreaks 1000 contactDocument))
    = [ConsoleLog "Form data would be sent to:"
         (list_to_map
            [("name", DataText "Jane Doe"); ("email", DataText "jane@example.co.ke");
             ("phone", DataText "0712 345 678"); ("businessType", DataText "safari-lodge");
             ("vehicleCount", DataText "4-6");
             ("_csrf", DataText "elyra_1700000000000_abc123xyz");
             ("_timestamp", DataInstant 1000); ("_userAgent", DataText "Mozilla/5.0")]);
       ConsoleError "Form submission error:" (TypeError "form.reset is not a function")].
Proof.
  split; [vm_compute; reflexivity|].
  split; [eexists; split; vm_compute; reflexivity|].
  split; vm_compute; reflexivity.
Qed.

End FormSubmission.

(** ** The router *)

Section RouterFacts.
Import JS NavigationSystem Site.

Variable env : environment.

Lemma isValidPage_true (page : string) : isValidPage page = true <-> page ∈ validPages.
Proof. unfold isValidPage. apply bool_decide_eq_true. Qed.

Lemma isValidPage_false (page : string) : isValidPage page = false <-> page ∉ validPages.
Proof. unfold isValidPage. apply bool_decide_eq_false. Qed.

(** What [initializePageFunctionality] leaves alone, and how many
    objects it constructs. *)
Lemma initializePageFunctionality_frame now page st :
  currentPage (initializePageFunctionality env now page st) = currentPage st /\
  hash (initializePageFunctionality env now page st) = hash st /\
  pendingHashChanges (initializePageFunctionality env now page st)
    = pendingHashChanges st /\
  navLinks (initializePageFunctionality env now page st) = navLinks st /\
  option_map innerHTML (main (initializePageFunctionality env now page st))
    = option_map innerHTML (main st) /\
  constructed (initializePageFunctionality env now page st)
    = (if bool_decide (page = "calculator")
       then if calculatorLoaded env then S (constructed st) else constructed st
       else if bool_decide (page = "contact") then S (constructed st)
            else constructed st).
Proof.
  unfold initializePageFunctionality.
  case_bool_decide.
  - destruct (calculatorLoaded env); [|repeat split].
    unfold newCalculator.
    destruct (SecurityFramework.checkRateLimit _ _ _ _) as [ok store].
    simpl. repeat split. destruct (main st); reflexivity.
  - case_bool_decide; repeat split.
Qed.

(** What [loadPageContent] leaves alone. *)
Lemma loadPageContent_frame now page st :
  currentPage (loadPageContent env now page st) = currentPage st /\
  hash (loadPageContent env now page st) = hash st /\
  pendingHashChanges (loadPageContent env now page st) = pendingHashChanges st /\
  navLinks (loadPageContent env now page st) = navLinks st.
Proof.
  unfold loadPageContent.
  destruct (generatePageContent env page) as [content|e]; [|repeat split].
  destruct (main st) as [r|]; [|repeat split].
  destruct (initializePageFunctionality_frame now page
              (set_main (Some {| innerHTML := content; elementListeners := []; written := [] |}) st))
    as (H1 & H2 & H3 & H4 & _).
  repeat split; assumption.
Qed.

(** [navigateTo] on any string is [navigateTo] on the page it is coerced to. *)
Lemma navigateTo_coerces now page st :
  navigateTo env now page st
  = navigateTo env now (if isValidPage page then page else "home") st.
Proof.
  unfold navigateTo.
  destruct (isValidPage page) eqn:E; [rewrite E; reflexivity | reflexivity].
Qed.

Lemma navigateTo_currentPage now page st :
  currentPage (navigateTo env now page st) = (if isValidPage page then page else "home") /\
  hash (navigateTo env now page st) = (if isValidPage page then page else "home").
Proof.
  unfold navigateTo.
  set (target := if isValidPage page then page else "home").
  destruct (loadPageContent_frame now target
              (updateActiveNav target (set_hash target (set_page target st))))
    as (H1 & H2 & _).
  rewrite H1, H2. split; reflexivity.
Qed.

(** C1. For every string that is not one of the five page keys,
    [navigateTo] leaves [currentPage] (and the fragment) at home; the call
    is carried out exactly as [navigateTo("home")], whatever the page
    generators do, so the invalid key itself is reported nowhere. *)
Theorem C1_invalid_key_coerced_to_home (now : Z) (requestedKey : string) (st : state) :
  requestedKey ∉ ["home"; "solutions"; "models"; "calculator"; "contact"] ->
  currentPage (navigateTo env now requestedKey st) = "home" /\
  hash (navigateTo env now requestedKey st) = "home" /\
  navigateTo env now requestedKey st = navigateTo env now "home" st.
Proof.
  intros Hnot. apply isValidPage_false in Hnot.
  destruct (navigateTo_currentPage now requestedKey st) as [H1 H2].
  rewrite Hnot in H1, H2.
  repeat split; try assumption.
  rewrite navigateTo_coerces, Hnot. reflexivity.
Qed.

(** When the content cannot be generated, or [main] cannot be written,
    [loadPageContent] logs the error and then fails itself: [main] and
    the listeners stay as they were, and the promise is rejected. *)
Lemma loadPageContent_failure now page st :
  (exists e, generatePageContent env page = Throw e) \/ main st = None ->
  exists e,
    console (loadPageContent env now page st)
      = (console st ++ [ErrorLoadingPage e])%list /\
    unhandledRejections (loadPageContent env now page st)
      = (unhandledRejections st
         ++ [TypeError "this.loadErrorPage is not a function"])%list /\
    main (loadPageContent env now page st) = main st /\
    documentListeners (loadPageContent env now page st) = documentListeners st /\
    constructed (loadPageContent env now page st) = constructed st.
Proof.
  intros [[e He] | Hmain]; unfold loadPageContent.
  - rewrite He. exists e. repeat split.
  - destruct (generatePageContent env page) as [content|e].
    + rewrite Hmain. eexists. repeat split. exact Hmain.
    + exists e. repeat split.
Qed.

(** The listeners on [document] are only ever added to. *)
Lemma initializePageFunctionality_listeners now page st :
  documentListeners (initializePageFunctionality env now page st)
  = (documentListeners st
     ++ (if bool_decide (page = "calculator") then []
         else if bool_decide (page = "contact")
              then formHandlerListeners (constructed st) else []))%list.
Proof.
  unfold initializePageFunctionality.
  case_bool_decide.
  - destruct (calculatorLoaded env).
    + unfold newCalculator.
      destruct (SecurityFramework.checkRateLimit _ _ _ _) as [ok store].
      simpl. rewrite app_nil_r. reflexivity.
    + rewrite app_nil_r. reflexivity.
  - case_bool_decide; [reflexivity | rewrite app_nil_r; reflexivity].
Qed.

Lemma loadPageContent_listeners now page st :
  exists added,
    documentListeners (loadPageContent env now page st)
    = (documentListeners st ++ added)%list.
Proof.
  unfold loadPageContent.
  destruct (generatePageContent env page) as [content|e].
  - destruct (main st) as [r|].
    + rewrite initializePageFunctionality_listeners. eexists. reflexivity.
    + exists []. simpl. rewrite app_nil_r. reflexivity.
  - exists []. simpl. rewrite app_nil_r. reflexivity.
Qed.

Lemma navigateTo_listeners now page st :
  exists added,
    documentListeners (navigateTo env now page st) = (documentListeners st ++ added)%list.
Proof.
  unfold navigateTo.
  set (target := if isValidPage page then page else "home").
  destruct (loadPageContent_listeners now target
              (updateActiveNav target (set_hash target (set_page target st))))
    as [added H].
  exists added. rewrite H. reflexivity.
Qed.

(** Over a whole run of navigations no listener leaves [document]. *)
Lemma navigateAll_listeners calls : forall st,
  exists added,
    documentListeners (navigateAll env calls st) = (documentListeners st ++ added)%list.
Proof.
  induction calls as [|[now page] rest IH]; intros st; simpl.
  - exists []. rewrite app_nil_r. reflexivity.
  - destruct (IH (navigateTo env now page st)) as [added2 H2].
    destruct (navigateTo_listeners now page st) as [added1 H1].
    exists (added1 ++ added2)%list. rewrite H2, H1, app_assoc. reflexivity.
Qed.

End RouterFacts.

(** An unknown key, on the scripts as written and with the templates
    supplied. *)
Lemma C1_witness :
  NavigationSystem.currentPage
    (NavigationSystem.navigateTo Site.asWritten 1000 "pricing" Site.startPage) = "home" /\
  NavigationSystem.currentPage
    (NavigationSystem.navigateTo Site.supplied 1000 "pricing" Site.startPage) = "home".
Proof.
  split.
  - apply (C1_invalid_key_coerced_to_home Site.asWritten 1000 "pricing" Site.startPage).
    intros H. repeat (apply elem_of_cons in H as [H|H]; [discriminate H|]).
    apply elem_of_nil in H. exact H.
  - apply (C1_invalid_key_coerced_to_home Site.supplied 1000 "pricing" Site.startPage).
    intros H. repeat (apply elem_of_cons in H as [H|H]; [discriminate H|]).
    apply elem_of_nil in H. exact H.
Defined.

(** As the scripts are written the content is never generated: the
    object literal of [generatePageContent] calls
    [generateSolutionsPage], which does not exist. *)
Lemma generatePageContent_asWritten (page : string) :
  NavigationSystem.generatePageContent Site.asWritten page
  = JS.Throw (JS.TypeError "this.generateSolutionsPage is not a function").
Proof. reflexivity. Qed.

(** C3 fails on the code.  Navigating to the solutions page from the
    start page, as the scripts are written: generating the content
    throws and the failure is logged, but the recovery calls
    [loadErrorPage], which no class defines, so [main] keeps the
    placeholder instead of the home page, the promise is rejected, and
    the page key, the fragment and the highlighted link already say
    solutions. *)
Theorem C3_failed_load_not_recovered :
  let st := NavigationSystem.navigateTo Site.asWritten 1000 "solutions" Site.startPage in
  NavigationSystem.console st
    = [NavigationSystem.ErrorLoadingPage
         (JS.TypeError "this.generateSolutionsPage is not a function")] /\
  NavigationSystem.unhandledRejections st
    = [JS.TypeError "this.loadErrorPage is not a function"] /\
  option_map NavigationSystem.innerHTML (NavigationSystem.main st) = Some "<p>Loading</p>" /\
  option_map NavigationSystem.innerHTML (NavigationSystem.main st)
    <> Some NavigationSystem.homeMarkup /\
  NavigationSystem.currentPage st = "solutions" /\
  NavigationSystem.hash st = "solutions" /\
  map NavigationSystem.activeClass (NavigationSystem.navLinks st)
    = [false; true; false; false; false].
Proof.
  cbv zeta. repeat split; try (vm_compute; reflexivity).
  vm_compute. discriminate.
Qed.

(** One click on a link to contact, with the templates supplied: the
    assignment to the fragment queues a [hashchange] event whose
    listener navigates to contact once more, so the click alone leaves
    two [FormHandler]s listening. *)
Lemma one_click_navigates_twice :
  NavigationSystem.pendingHashChanges
    (NavigationSystem.navigateTo Site.supplied 1000 "contact" Site.startPage) = 1%nat /\
  NavigationSystem.listening
    (NavigationSystem.hashchange Site.supplied 1001
       (NavigationSystem.navigateTo Site.supplied 1000 "contact" Site.startPage))
    = [NavigationSystem.FormHandlerObject 0; NavigationSystem.FormHandlerObject 1] /\
  NavigationSystem.pendingHashChanges
    (NavigationSystem.hashchange Site.supplied 1001
       (NavigationSystem.navigateTo Site.supplied 1000 "contact" Site.startPage)) = 0%nat.
Proof.
  repeat split; vm_compute; reflexivity.
Qed.

(** ** The regular expression matcher *)

Section Matcher.
Import RegExp.

Lemma append_empty_inv (s1 s2 : string) : s1 ++ s2 = "" -> s1 = "" /\ s2 = "".
Proof. destruct s1; simpl; intros H; [split; [reflexivity | exact H] | discriminate H]. Qed.

Lemma append_cons_inv (s1 s2 s : string) (c : ascii) :
  s1 ++ s2 = String c s ->
  (s1 = "" /\ s2 = String c s) \/ (exists s1', s1 = String c s1' /\ s = s1' ++ s2).
Proof.
  destruct s1 as [|d s1']; simpl; intros H.
  - left. split; [reflexivity | exact H].
  - right. inversion H; subst. exists s1'. split; reflexivity.
Qed.

Lemma matches_Void (s : string) : ~ matches Void s.
Proof. intros H. inversion H. Qed.

Lemma matches_Eps (s : string) : matches Eps s <-> s = "".
Proof. split; [inversion 1; reflexivity | intros ->; constructor]. Qed.

Lemma matches_Class (p : ascii -> bool) (s : string) :
  matches (Class p) s <-> exists c, s = String c "" /\ p c = true.
Proof.
  split.
  - inversion 1; subst. eauto.
  - intros (c & -> & Hp). constructor. exact Hp.
Qed.

Lemma matches_Seq (r1 r2 : regex) (s : string) :
  matches (Seq r1 r2) s <-> exists s1 s2, s = s1 ++ s2 /\ matches r1 s1 /\ matches r2 s2.
Proof.
  split.
  - inversion 1; subst. eauto.
  - intros (s1 & s2 & -> & H1 & H2). constructor; assumption.
Qed.

Lemma matches_Alt (r1 r2 : regex) (s : string) :
  matches (Alt r1 r2) s <-> matches r1 s \/ matches r2 s.
Proof.
  split.
  - inversion 1; subst; auto.
  - intros [H|H]; [apply matchesAltL | apply matchesAltR]; exact H.
Qed.

Lemma nullable_iff (r : regex) : nullable r = true <-> matches r "".
Proof.
  induction r as [| |p|r1 IH1 r2 IH2|r1 IH1 r2 IH2|r IH]; simpl.
  - split; [discriminate | intros H; elim (matches_Void _ H)].
  - split; [constructor | reflexivity].
  - split; [discriminate | intros H; apply matches_Class in H as (c & Hc & _); discriminate Hc].
  - rewrite andb_true_iff, IH1, IH2, matches_Seq. split.
    + intros [H1 H2]. exists "", "". auto.
    + intros (s1 & s2 & Heq & H1 & H2). symmetry in Heq.
      apply append_empty_inv in Heq as [-> ->]. auto.
  - rewrite orb_true_iff, IH1, IH2, matches_Alt. reflexivity.
  - split; [constructor | reflexivity].
Qed.

Lemma mkSeq_iff (r1 r2 : regex) (s : string) :
  matches (mkSeq r1 r2) s <-> matches (Seq r1 r2) s.
Proof.
  assert (Hl : forall r, matches Void s <-> matches (Seq Void r) s).
  { intros r. split; [intros H; elim (matches_Void _ H)|].
    intros H. apply matches_Seq in H as (s1 & s2 & _ & H1 & _). elim (matches_Void _ H1). }
  assert (Hr : forall r, matches Void s <-> matches (Seq r Void) s).
  { intros r. split; [intros H; elim (matches_Void _ H)|].
    intros H. apply matches_Seq in H as (s1 & s2 & _ & _ & H2). elim (matches_Void _ H2). }
  assert (He : forall r, matches r s <-> matches (Seq Eps r) s).
  { intros r. split.
    - intros H. change s with ("" ++ s). constructor; [constructor | exact H].
    - intros H. apply matches_Seq in H as (s1 & s2 & -> & H1 & H2).
      apply matches_Eps in H1 as ->. exact H2. }
  destruct r1, r2; simpl; auto; reflexivity.
Qed.

Lemma mkAlt_iff (r1 r2 : regex) (s : string) :
  matches (mkAlt r1 r2) s <-> matches (Alt r1 r2) s.
Proof.
  assert (Hl : forall r, matches r s <-> matches (Alt Void r) s).
  { intros r. rewrite matches_Alt. split; [auto|].
    intros [H|H]; [elim (matches_Void _ H) | exact H]. }
  assert (Hr : forall r, matches r s <-> matches (Alt r Void) s).
  { intros r. rewrite matches_Alt. split; [auto|].
    intros [H|H]; [exact H | elim (matches_Void _ H)]. }
  destruct r1, r2; simpl; auto; reflexivity.
Qed.

(** A non-empty match of a star starts with a non-empty match of its body. *)
Lemma matches_Star_cons (r : regex) (c : ascii) (s : string) :
  matches (Star r) (String c s) ->
  exists s1 s2, s = s1 ++ s2 /\ matches r (String c s1) /\ matches (Star r) s2.
Proof.
  intros H. remember (Star r) as r' eqn:Er. remember (String c s) as str eqn:Es.
  revert Er Es.
  induction H as [| | | | | |r0 s1 s2 H1 _ H2 IH2]; intros Er Es; try discriminate.
  inversion Er; subst r0.
  apply append_cons_inv in Es as [[-> ->] | (s1' & -> & ->)].
  - apply IH2; reflexivity.
  - exists s1', s2. auto.
Qed.

Lemma deriv_iff (c : ascii) (r : regex) : forall s,
  matches (deriv c r) s <-> matches r (String c s).
Proof.
  induction r as [| |p|r1 IH1 r2 IH2|r1 IH1 r2 IH2|r IH]; intros s; simpl.
  - split; intros H; elim (matches_Void _ H).
  - split; intros H; [elim (matches_Void _ H) | apply matches_Eps in H; discriminate H].
  - rewrite matches_Class. destruct (p c) eqn:Ep.
    + rewrite matches_Eps. split.
      * intros ->. eauto.
      * intros (d & Hd & _). inversion Hd. reflexivity.
    + split; [intros H; elim (matches_Void _ H)|].
      intros (d & Hd & Hp). inversion Hd; subst. congruence.
  - rewrite mkAlt_iff, matches_Alt, mkSeq_iff, !matches_Seq. split.
    + intros [(s1 & s2 & -> & H1 & H2) | H].
      * apply IH1 in H1. exists (String c s1), s2. auto.
      * destruct (nullable r1) eqn:En; [|elim (matches_Void _ H)].
        apply nullable_iff in En. apply IH2 in H. exists "", (String c s). auto.
    + intros (s1 & s2 & Heq & H1 & H2). symmetry in Heq.
      apply append_cons_inv in Heq as [[-> ->] | (s1' & -> & ->)].
      * right. apply nullable_iff in H1. rewrite H1. apply IH2. exact H2.
      * left. exists s1', s2. split; [reflexivity|]. split; [apply IH1; exact H1 | exact H2].
  - rewrite mkAlt_iff, !matches_Alt, IH1, IH2. reflexivity.
  - rewrite mkSeq_iff, matches_Seq. split.
    + intros (s1 & s2 & -> & H1 & H2). apply IH in H1.
      change (String c (s1 ++ s2)) with (String c s1 ++ s2). constructor; assumption.
    + intros H. apply matches_Star_cons in H as (s1 & s2 & -> & H1 & H2).
      exists s1, s2. split; [reflexivity|]. split; [apply IH; exact H1 | exact H2].
Qed.

(** The matcher decides the language of the expression. *)
Lemma test_iff (s : string) : forall r, test r s = true <-> matches r s.
Proof.
  induction s as [|c s IH]; intros r; simpl.
  - apply nullable_iff.
  - rewrite IH. apply deriv_iff.
Qed.

End Matcher.

(** ** The validators *)

Section Validators.
Import JS RegExp InputValidator.

(** [validateEmail], [validateName] and [sanitizeInput] return on every
    value: the first converts its argument to a string, the other two
    test [typeof] first. *)
Lemma guarded_validators_return (v : value) :
  returns (validateEmail v) = true /\
  returns (validateName v) = true /\
  returns (sanitizeInput v) = true.
Proof. destruct v; repeat split. Qed.

(** A value that is not a string yields [false] and the empty string. *)
Lemma guarded_validators_on_non_strings (v : value) :
  isString v = false ->
  validateName v = Normal false /\ sanitizeInput v = Normal "".
Proof. destruct v; simpl; intros H; try discriminate H; split; reflexivity. Qed.

(** [validatePhone] has no such test: it returns exactly on strings. *)
Lemma validatePhone_returns_iff_string (v : value) :
  returns (validatePhone v) = isString v.
Proof. destruct v; reflexivity. Qed.

Lemma occurs_append (c : ascii) (a b : string) :
  occurs c (a ++ b) = occurs c a || occurs c b.
Proof.
  induction a as [|d a IH]; [reflexivity|].
  change (occurs c (String d (a ++ b)) = occurs c (String d a) || occurs c b).
  simpl. destruct (Ascii.eqb c d); [reflexivity | exact IH].
Qed.

(** Replacing a character by a text without it leaves none of it. *)
Lemma replaceAll_removes (c : ascii) (rep s : string) :
  occurs c rep = false -> occurs c (replaceAll c rep s) = false.
Proof.
  intros Hrep. induction s as [|d s IH]; [reflexivity|].
  simpl. destruct (Ascii.eqb d c) eqn:E.
  - rewrite occurs_append, Hrep, IH. reflexivity.
  - simpl. rewrite Ascii.eqb_sym, E. exact IH.
Qed.

(** Replacing another character by a text without [c] brings no [c] in. *)
Lemma replaceAll_keeps_out (c d : ascii) (rep s : string) :
  occurs c rep = false -> occurs c s = false -> occurs c (replaceAll d rep s) = false.
Proof.
  intros Hrep. induction s as [|x s IH]; [reflexivity|].
  simpl. destruct (Ascii.eqb c x) eqn:E; [discriminate|]. intros Hs.
  destruct (Ascii.eqb x d).
  - rewrite occurs_append, Hrep, (IH Hs). reflexivity.
  - simpl. rewrite E. exact (IH Hs).
Qed.

(** What [sanitizeInput] returns for a string holds none of the five
    characters it escapes. *)
Lemma sanitizeString_escapes (s : string) (c : ascii) :
  occurs c (String "<" (String ">" (String quote (String apostrophe (String "/" ""))))) = true ->
  occurs c (sanitizeString s) = false.
Proof.
  intros Hc. unfold sanitizeString.
  assert (Hcases : c = "<"%char \/ c = ">"%char \/ c = quote \/ c = apostrophe
                   \/ c = "/"%char).
  { simpl in Hc.
    repeat match type of Hc with
           | (if Ascii.eqb c ?d then _ else _) = true =>
               destruct (Ascii.eqb_spec c d) as [E|_]; [tauto|]
           end.
    discriminate Hc. }
  clear Hc.
  destruct Hcases as [E|[E|[E|[E|E]]]]; subst c;
    repeat first [ apply replaceAll_removes; reflexivity
                 | apply replaceAll_keeps_out; [reflexivity|] ].
Qed.

(** The examples of the specification. *)
Lemma validator_examples :
  validatePhone (VString "0712345678") = Normal true /\
  validatePhone (VString "12345") = Normal false /\
  validateEmail (VString "a@b.com") = Normal true /\
  validateEmail (VString "not-an-email") = Normal false /\
  sanitizeInput (VString "<script>") = Normal "&lt;script&gt;".
Proof. repeat split; vm_compute; reflexivity. Qed.

(** C8 fails on the code.  Given a number (or [null]) [validatePhone]
    throws a [TypeError], where its siblings [validateName] and
    [sanitizeInput], which test the type of their argument, return
    [false] and the empty string, and [validateEmail] returns [false]. *)
Theorem C8_validatePhone_throws_on_non_string :
  validatePhone (VNumber 712345678)
    = Throw (TypeError "phone.replace is not a function") /\
  validatePhone VNull
    = Throw (TypeError "Cannot read properties of null (reading 'replace')") /\
  validateName (VNumber 712345678) = Normal false /\
  sanitizeInput (VNumber 712345678) = Normal "" /\
  validateEmail (VNumber 712345678) = Normal false.
Proof. repeat split; vm_compute; reflexivity. Qed.

End Validators.

(** ** More on the rate limiter *)

Section RateLimiterRuns.
Import SecurityFramework LimiterCases.

Implicit Types (st : gmap string entry) (key : string) (e : entry).

Lemma checkRateLimit_seq_cons now times key max st :
  checkRateLimit_seq (now :: times) key max st
  = (fst (checkRateLimit now key max st)
       :: fst (checkRateLimit_seq times key max (snd (checkRateLimit now key max st))),
     snd (checkRateLimit_seq times key max (snd (checkRateLimit now key max st)))).
Proof.
  cbn [checkRateLimit_seq].
  destruct (checkRateLimit now key max st) as [b st1]. cbn [fst snd].
  destruct (checkRateLimit_seq times key max st1) as [bs st2]. reflexivity.
Qed.

(** A run of calls inside one window, from an entry that is inside it:
    the call number [i] (from 0) is allowed exactly when the count it
    finds, the stored one plus [i], is below the limit. *)
Lemma checkRateLimit_seq_from_entry key max t0 times : forall st e,
  st !! key = Some e ->
  t0 <= timestamp e <= t0 + 60000 ->
  Forall (fun t => t0 <= t <= t0 + 60000) times ->
  fst (checkRateLimit_seq times key max st)
  = map (fun i : nat => bool_decide (count e + Z.of_nat i < max)) (seq 0 (length times)).
Proof.
  induction times as [|now rest IH]; intros st e Hk He Hall; [reflexivity|].
  apply Forall_cons in Hall as [Hnow Hrest].
  rewrite checkRateLimit_seq_cons. cbn [fst length seq map].
  destruct (Z_lt_ge_dec (count e) max) as [Hlt|Hge].
  - rewrite (checkRateLimit_under now key max st e Hk) by lia.
    cbn [fst snd]. f_equal.
    + rewrite Z.add_0_r. symmetry. apply bool_decide_eq_true_2. exact Hlt.
    + rewrite (IH _ {| count := count e + 1; timestamp := now |});
        [| apply lookup_insert_eq | simpl; lia | exact Hrest].
      rewrite <- seq_shift, map_map. apply map_ext. intros i. simpl.
      apply bool_decide_ext. lia.
  - rewrite (checkRateLimit_over now key max st e Hk) by lia.
    cbn [fst snd]. f_equal.
    + rewrite Z.add_0_r. symmetry. apply bool_decide_eq_false_2. lia.
    + rewrite (IH _ e); [| apply lookup_clean_fresh; [exact Hk | lia] | exact He | exact Hrest].
      rewrite <- seq_shift, map_map. apply map_ext. intros i.
      rewrite !bool_decide_eq_false_2 by lia. reflexivity.
Qed.

(** A run inside one window from a store without an entry for the key. *)
Lemma checkRateLimit_seq_fresh key max t0 times st :
  st !! key = None ->
  1 <= max ->
  Forall (fun t => t0 <= t <= t0 + 60000) times ->
  fst (checkRateLimit_seq times key max st)
  = map (fun i : nat => bool_decide (Z.of_nat i < max)) (seq 0 (length times)).
Proof.
  intros Hnone Hmax Hall. destruct times as [|now rest]; [reflexivity|].
  apply Forall_cons in Hall as [Hnow Hrest].
  rewrite checkRateLimit_seq_cons. cbn [fst length seq map].
  rewrite (checkRateLimit_new now key max st) by (apply lookup_clean_absent; exact Hnone).
  cbn [fst snd]. f_equal.
  - symmetry. apply bool_decide_eq_true_2. simpl. lia.
  - rewrite (checkRateLimit_seq_from_entry key max t0 rest _
               {| count := 1; timestamp := now |});
      [| apply lookup_insert_eq | simpl; lia | exact Hrest].
    rewrite <- seq_shift, map_map. apply map_ext. intros i. simpl.
    apply bool_decide_ext. lia.
Qed.

(** X1. Any number of calls on one key inside one window of 60 seconds,
    from a store without an entry for the key and with a limit of at
    least 1: the first [maxRequests] calls are allowed and every later
    one is denied. *)
Theorem X1_at_most_max_allowed_per_window (st : gmap string entry) (key : string)
    (max t0 : Z) (times : list Z) :
  st !! key = None ->
  1 <= max ->
  Forall (fun t => t0 <= t <= t0 + 60000) times ->
  fst (checkRateLimit_seq times key max st)
  = map (fun i : nat => bool_decide (Z.of_nat i < max)) (seq 0 (length times)).
Proof. apply checkRateLimit_seq_fresh. Qed.

Lemma X1_witness :
  fst (checkRateLimit_seq [0; 10; 20; 30; 40; 50] "k" 2 initializeRateLimiting)
  = [true; true; false; false; false; false].
Proof.
  rewrite (X1_at_most_max_allowed_per_window initializeRateLimiting "k" 2 0);
    [reflexivity | reflexivity | lia |].
  repeat constructor; lia.
Defined.

Lemma checkRateLimit_seq_app times1 times2 key max st :
  checkRateLimit_seq (times1 ++ times2) key max st
  = ((fst (checkRateLimit_seq times1 key max st)
      ++ fst (checkRateLimit_seq times2 key max (snd (checkRateLimit_seq times1 key max st))))%list,
     snd (checkRateLimit_seq times2 key max (snd (checkRateLimit_seq times1 key max st)))).
Proof.
  revert st. induction times1 as [|now rest IH]; intros st.
  - simpl. destruct (checkRateLimit_seq times2 key max st). reflexivity.
  - rewrite <- app_comm_cons, !checkRateLimit_seq_cons, IH. reflexivity.
Qed.

Lemma last_cons (l : list Z) : forall a d, List.last (a :: l) d = List.last l a.
Proof.
  induction l as [|b l IH]; intros a d; [reflexivity|].
  change (List.last (b :: l) d = List.last (b :: l) a). rewrite !IH. reflexivity.
Qed.

(** A run of allowed calls, each at most 60 seconds after the one before:
    the entry is never evicted, so the count keeps growing. *)
Lemma checkRateLimit_seq_spaced key max times : forall st e,
  st !! key = Some e ->
  Runs.spaced (timestamp e :: times) ->
  count e + Z.of_nat (length times) <= max ->
  fst (checkRateLimit_seq times key max st) = replicate (length times) true /\
  snd (checkRateLimit_seq times key max st) !! key
  = Some {| count := count e + Z.of_nat (length times);
            timestamp := List.last times (timestamp e) |}.
Proof.
  induction times as [|now rest IH]; intros st e Hk Hsp Hc.
  - simpl. rewrite Z.add_0_r. destruct e. split; [reflexivity | exact Hk].
  - destruct Hsp as [Hgap Hsp].
    rewrite checkRateLimit_seq_cons. cbn [fst snd].
    rewrite (checkRateLimit_under now key max st e Hk) by (simpl length in Hc; lia).
    cbn [fst snd].
    destruct (IH (<[key := {| count := count e + 1; timestamp := now |}]>
                    (cleanOldEntries (now - 60000) st))
                 {| count := count e + 1; timestamp := now |}) as [H1 H2].
    + apply lookup_insert_eq.
    + exact Hsp.
    + simpl. simpl length in Hc. lia.
    + split.
      * rewrite H1. reflexivity.
      * rewrite H2. simpl count. simpl timestamp. f_equal. f_equal.
        -- simpl length. lia.
        -- symmetry. apply last_cons.
Qed.

(** X2. The window is not a sliding one: calls each made at most 60
    seconds after the one before are counted together however long the
    run lasts.  With a limit of at least 1, [maxRequests] such calls
    from a store without an entry for the key are all allowed, and a
    further call at most 60 seconds after the last of them is denied. *)
Theorem X2_spaced_calls_are_counted_together (st : gmap string entry) (key : string)
    (max : Z) (times : list Z) (t : Z) :
  st !! key = None ->
  1 <= max ->
  Z.of_nat (length times) = max ->
  Runs.spaced (times ++ [t]) ->
  fst (checkRateLimit_seq (times ++ [t]) key max st)
  = (replicate (length times) true ++ [false])%list.
Proof.
  intros Hnone Hmax Hlen Hsp.
  destruct times as [|t1 rest]; [simpl in Hlen; lia|].
  rewrite <- app_comm_cons, checkRateLimit_seq_cons. cbn [fst snd].
  rewrite (checkRateLimit_new t1 key max st) by (apply lookup_clean_absent; exact Hnone).
  cbn [fst snd length replicate]. rewrite <- app_comm_cons. f_equal.
  rewrite checkRateLimit_seq_app. cbn [fst].
  set (st1 := <[key := _]> _).
  assert (Hsp1 : Runs.spaced (t1 :: rest) /\ t <= List.last rest t1 + 60000).
  { clear -Hsp. revert t1 Hsp. induction rest as [|b rest IH]; intros t1 Hsp.
    - simpl in *. tauto.
    - destruct Hsp as [Hgap Hsp]. destruct (IH b Hsp) as [H1 H2].
      split; [split; assumption|].
      rewrite last_cons. exact H2. }
  destruct Hsp1 as [Hsp1 Hlast].
  destruct (checkRateLimit_seq_spaced key max rest st1 {| count := 1; timestamp := t1 |})
    as [H1 H2].
  - apply lookup_insert_eq.
  - exact Hsp1.
  - simpl. simpl length in Hlen. lia.
  - rewrite H1. f_equal. rewrite checkRateLimit_seq_cons. cbn [fst].
    rewrite (checkRateLimit_over t key max _ _ H2); [reflexivity | |].
    + simpl. lia.
    + simpl. simpl length in Hlen. lia.
Qed.

(** Three calls 50 seconds apart and a fourth after 50 more: 150 seconds
    in all, and the fourth is denied. *)
Lemma X2_witness :
  fst (checkRateLimit_seq [0; 50000; 100000; 150000] "k" 3 initializeRateLimiting)
  = [true; true; true; false].
Proof.
  apply (X2_spaced_calls_are_counted_together initializeRateLimiting "k" 3
           [0; 50000; 100000] 150000).
  - reflexivity.
  - lia.
  - reflexivity.
  - simpl. lia.
Defined.

(** The entry the cleaning loop leaves under a key. *)
Lemma lookup_clean w st key :
  cleanOldEntries w st !! key
  = match st !! key with
    | Some e => if expired w e then None else Some e
    | None => None
    end.
Proof.
  destruct (st !! key) as [e|] eqn:Hk.
  - destruct (expired w e) eqn:He.
    + apply (lookup_clean_stale _ _ _ _ Hk). unfold expired in He. apply Z.ltb_lt. exact He.
    + apply lookup_clean_fresh; [exact Hk | apply expired_false; exact He].
  - apply lookup_clean_absent. exact Hk.
Qed.

(** The verdict and the entry left under the key depend on nothing but
    what the cleaning loop leaves under that key. *)
Lemma checkRateLimit_by_entry now key max st :
  fst (checkRateLimit now key max st)
  = match cleanOldEntries (now - 60000) st !! key with
    | None => true
    | Some e => negb (count e >=? max)
    end /\
  snd (checkRateLimit now key max st) !! key
  = match cleanOldEntries (now - 60000) st !! key with
    | None => Some {| count := 1; timestamp := now |}
    | Some e => if count e >=? max then Some e
                else Some {| count := count e + 1; timestamp := now |}
    end.
Proof.
  unfold checkRateLimit. cbv zeta.
  destruct (cleanOldEntries (now - 60000) st !! key) as [e|] eqn:E.
  - destruct (count e >=? max); cbn [fst snd negb].
    + split; [reflexivity | exact E].
    + split; [reflexivity | apply lookup_insert_eq].
  - cbn [fst snd]. split; [reflexivity | apply lookup_insert_eq].
Qed.

(** A call leaves under every other key what the cleaning loop leaves. *)
Lemma checkRateLimit_other now key max st k' :
  k' <> key ->
  snd (checkRateLimit now key max st) !! k' = cleanOldEntries (now - 60000) st !! k'.
Proof.
  intros Hne. unfold checkRateLimit. cbv zeta.
  destruct (cleanOldEntries (now - 60000) st !! key) as [e|].
  - destruct (count e >=? max); cbn [snd]; [reflexivity|].
    apply lookup_insert_ne. congruence.
  - cbn [snd]. apply lookup_insert_ne. congruence.
Qed.

(** X3. Keys do not interfere: an earlier call on another key changes
    neither the verdict of a call on this key nor the entry that call
    leaves under this key. *)
Theorem X3_keys_do_not_interfere (now1 now2 : Z) (k1 k2 : string) (m1 m2 : Z)
    (st : gmap string entry) :
  k1 <> k2 ->
  now1 <= now2 ->
  fst (checkRateLimit now2 k2 m2 (snd (checkRateLimit now1 k1 m1 st)))
  = fst (checkRateLimit now2 k2 m2 st) /\
  snd (checkRateLimit now2 k2 m2 (snd (checkRateLimit now1 k1 m1 st))) !! k2
  = snd (checkRateLimit now2 k2 m2 st) !! k2.
Proof.
  intros Hne Hle.
  assert (Hsame : cleanOldEntries (now2 - 60000) (snd (checkRateLimit now1 k1 m1 st)) !! k2
                  = cleanOldEntries (now2 - 60000) st !! k2).
  { rewrite !lookup_clean, checkRateLimit_other by congruence.
    rewrite lookup_clean. destruct (st !! k2) as [e|]; [|reflexivity].
    unfold expired.
    destruct (Z.ltb_spec (timestamp e) (now1 - 60000)); [|reflexivity].
    destruct (Z.ltb_spec (timestamp e) (now2 - 60000)); [reflexivity | lia]. }
  destruct (checkRateLimit_by_entry now2 k2 m2 (snd (checkRateLimit now1 k1 m1 st)))
    as [F1 S1].
  destruct (checkRateLimit_by_entry now2 k2 m2 st) as [F2 S2].
  rewrite F1, S1, F2, S2, Hsame. split; reflexivity.
Qed.

(** A form submission at its limit, then a calculation: the calculator's
    key is judged as if the form's had never been used. *)
Lemma X3_witness :
  fst (checkRateLimit 2000 "calculator_usage" 10
         (snd (checkRateLimit 1000 "form_submission" 3 initializeRateLimiting)))
  = fst (checkRateLimit 2000 "calculator_usage" 10 initializeRateLimiting).
Proof.
  apply (X3_keys_do_not_interfere 1000 2000 "form_submission" "calculator_usage" 3 10
           initializeRateLimiting).
  - discriminate.
  - lia.
Defined.

(** X4. The count stored under a key starts at 1 and never passes the
    limit: if it lies between 1 and the larger of 1 and [maxRequests]
    before a call on the key, it does so afterwards; and a call that
    finds no entry inside the window is allowed whatever the limit,
    even a limit of 0 or less. *)
Theorem X4_count_stays_within_limit (now : Z) (key : string) (max : Z)
    (st : gmap string entry) :
  (forall e, st !! key = Some e -> 1 <= count e <= Z.max 1 max) ->
  (forall e', snd (checkRateLimit now key max st) !! key = Some e' ->
              1 <= count e' <= Z.max 1 max) /\
  (cleanOldEntries (now - 60000) st !! key = None ->
   fst (checkRateLimit now key max st) = true).
Proof.
  intros Hinv.
  destruct (checkRateLimit_by_entry now key max st) as [F S].
  rewrite F, S.
  destruct (cleanOldEntries (now - 60000) st !! key) as [e|] eqn:E.
  - apply lookup_clean_Some in E as [Hk _]. specialize (Hinv e Hk).
    split; [|discriminate].
    intros e'. destruct (Z.geb_spec (count e) max); intros [= <-]; simpl; lia.
  - split; [|reflexivity]. intros e' [= <-]. simpl. lia.
Qed.

Lemma X4_witness :
  fst (checkRateLimit 1000 "k" 0 initializeRateLimiting) = true /\
  fst (checkRateLimit 2000 "k" 0 (snd (checkRateLimit 1000 "k" 0 initializeRateLimiting)))
  = false.
Proof.
  split.
  - apply (X4_count_stays_within_limit 1000 "k" 0 initializeRateLimiting).
    + intros e He. unfold initializeRateLimiting in He.
      rewrite lookup_empty in He. discriminate He.
    + apply lookup_clean_absent, lookup_empty.
  - vm_compute. reflexivity.
Defined.

End RateLimiterRuns.

(** ** More on the calculator *)

Section CalculatorFacts.
Import Number Calculator CalculatorCases CalculatorPage.

(** A number that is not finite is refused whatever the range. *)
Lemma validateNumberInput_not_finite (x : number) (min max : Z) :
  Z.abs min < 2 ^ 53 -> Z.abs max < 2 ^ 53 ->
  match x with
  | S754_nan | S754_infinity _ => validateNumberInput (Some x) min max = None
  | _ => True
  end.
Proof.
  intros Hmin Hmax.
  pose proof (ofZ_cases min Hmin) as Emin. pose proof (ofZ_cases max Hmax) as Emax.
  destruct x as [s|[|]| |s mx e]; try exact I; unfold validateNumberInput; try reflexivity.
  - destruct min; rewrite Emin; reflexivity.
  - destruct max; rewrite Emax; simpl; rewrite orb_true_r; reflexivity.
Qed.

(** X5. [getValidatedInputs] returns inputs exactly when all four
    controls hold a value, none of the three numbers is [NaN], below its
    lower bound or above its upper one, and the model is one of the three
    options, and the inputs it returns are those values.  For whole
    numbers that is: exactly when they lie in the ranges, bounds
    included.  [NaN] and the two infinities are refused in every one of
    the three controls. *)
Theorem X5_getValidatedInputs_accepts_exactly_the_ranges :
  (forall (d k v : option number) (m : option string) (i : inputs),
     getValidatedInputs d k v m = Some i <->
     d = Some (dieselCost i) /\ k = Some (monthlyKm i) /\ v = Some (vehicleCount i) /\
     m = Some (ppaModel i) /\ validated i) /\
  (forall (d k v : Z) (m : string),
     Z.abs d < 2 ^ 53 -> Z.abs k < 2 ^ 53 -> Z.abs v < 2 ^ 53 ->
     getValidatedInputs (Some (ofZ d)) (Some (ofZ k)) (Some (ofZ v)) (Some m)
     = (if bool_decide (50000 <= d <= 1000000 /\ 100 <= k <= 10000 /\ 1 <= v <= 50 /\
                        (m = "exchange" \/ m = "traditional" \/ m = "lease"))
        then Some (whole d k v m) else None)) /\
  (forall (x : number) (d k v : option number) (m : option string),
     match x with S754_nan | S754_infinity _ => True | _ => False end ->
     getValidatedInputs (Some x) k v m = None /\
     getValidatedInputs d (Some x) v m = None /\
     getValidatedInputs d k (Some x) m = None).
Proof.
  split; [|split].
  - intros d k v m i. split.
    + intros H. apply getValidatedInputs_validated in H. tauto.
    + intros [-> [-> [-> [-> Hval]]]]. apply validated_getValidatedInputs. exact Hval.
  - intros d k v m Hd Hk Hv.
    case_bool_decide as Hin.
    + destruct Hin as (Rd & Rk & Rv & Rm).
      apply (validated_getValidatedInputs (whole d k v m)).
      apply whole_validated; try assumption.
      unfold validOptions. rewrite !elem_of_cons. tauto.
    + destruct (getValidatedInputs _ _ _ _) as [i|] eqn:E; [|reflexivity].
      exfalso. apply Hin.
      apply getValidatedInputs_validated in E
        as [(Vd & Vk & Vv & Vm) [[= Ed] [[= Ek] [[= Ev] [= Em]]]]].
      rewrite <- Ed, <- Ek, <- Ev, <- Em in *.
      rewrite !inRange_ofZ in Vd, Vk, Vv
        by (assumption || (change (2 ^ 53) with 9007199254740992; lia)).
      apply andb_true_iff in Vd as [Vd1 Vd2], Vk as [Vk1 Vk2], Vv as [Vv1 Vv2].
      apply Z.leb_le in Vd1, Vd2, Vk1, Vk2, Vv1, Vv2.
      apply validOptions_cases in Vm. tauto.
  - intros x d k v m Hx.
    assert (H1 : validateNumberInput (Some x) 50000 1000000 = None).
    { pose proof (validateNumberInput_not_finite x 50000 1000000) as H.
      destruct x; try contradiction; apply H; change (2 ^ 53) with 9007199254740992; lia. }
    assert (H2 : validateNumberInput (Some x) 100 10000 = None).
    { pose proof (validateNumberInput_not_finite x 100 10000) as H.
      destruct x; try contradiction; apply H; change (2 ^ 53) with 9007199254740992; lia. }
    assert (H3 : validateNumberInput (Some x) 1 50 = None).
    { pose proof (validateNumberInput_not_finite x 1 50) as H.
      destruct x; try contradiction; apply H; change (2 ^ 53) with 9007199254740992; lia. }
    unfold getValidatedInputs. rewrite H1, H2, H3.
    repeat split.
    + destruct (validateNumberInput d 50000 1000000); reflexivity.
    + destruct (validateNumberInput d 50000 1000000); [|reflexivity].
      destruct (validateNumberInput k 100 10000); reflexivity.
Qed.

Lemma pricePerVehicle_new (m : string) (k v : Z) :
  m ∈ validOptions -> 100 <= k <= 10000 ->
  exists price,
    pricePerVehicle m k = Some price /\ 96400 <= price <= 235000 /\
    (if bool_decide (m = "exchange") then 120000 * v
     else if bool_decide (m = "traditional") then 95000 * v + 14 * k * v
     else 175000 * v) = price * v.
Proof.
  intros Hm Hk. apply validOptions_cases in Hm. unfold pricePerVehicle.
  destruct Hm as [-> | [-> | ->]]; simpl; eexists; (split; [reflexivity | split; lia]).
Qed.

(** The monthly savings on whole numbers: the difference between the
    diesel cost and the price of one vehicle, times the vehicles. *)
Lemma monthlySavings_whole (d k v : Z) (m : string) :
  50000 <= d <= 1000000 -> 100 <= k <= 10000 -> 1 <= v <= 50 -> m ∈ validOptions ->
  exists price,
    pricePerVehicle m k = Some price /\ 96400 <= price <= 235000 /\
    monthlySavings (calculateSavings (whole d k v m)) = ofZ ((d - price) * v) /\
    annualSavings (calculateSavings (whole d k v m)) = ofZ (12 * (d - price) * v).
Proof.
  intros Hd Hk Hv Hm.
  destruct (pricePerVehicle_new m k v Hm Hk) as (price & Hp & Hr & Hn).
  destruct (calculateSavings_whole d k v m Hd Hk Hv Hm) as (_ & _ & Hs & Ha).
  cbv zeta in Hs, Ha. rewrite Hn in Hs, Ha.
  exists price. split; [exact Hp|]. split; [exact Hr|].
  rewrite Hs, Ha. split; f_equal; ring.
Qed.

(** X9. The savings scale with the fleet when the inputs are whole
    numbers: the monthly and the annual savings are those of a single
    vehicle times the number of vehicles. *)
Theorem X9_savings_scale_with_the_fleet (d k v : Z) (m : string) :
  50000 <= d <= 1000000 -> 100 <= k <= 10000 -> 1 <= v <= 50 -> m ∈ validOptions ->
  monthlySavings (calculateSavings (whole d k v m))
    = mul (monthlySavings (calculateSavings (whole d k 1 m))) (ofZ v) /\
  annualSavings (calculateSavings (whole d k v m))
    = mul (annualSavings (calculateSavings (whole d k 1 m))) (ofZ v) /\
  exists perVehicle : Z,
    monthlySavings (calculateSavings (whole d k 1 m)) = ofZ perVehicle /\
    monthlySavings (calculateSavings (whole d k v m)) = ofZ (perVehicle * v) /\
    annualSavings (calculateSavings (whole d k v m)) = ofZ (12 * perVehicle * v).
Proof.
  intros Hd Hk Hv Hm.
  destruct (monthlySavings_whole d k v m Hd Hk Hv Hm) as (price & Hp & Hr & Hs & Ha).
  destruct (monthlySavings_whole d k 1 m Hd Hk ltac:(lia) Hm)
    as (price1 & Hp1 & _ & Hs1 & Ha1).
  assert (price1 = price) by congruence. subst price1.
  rewrite Z.mul_1_r in Hs1, Ha1.
  rewrite Hs, Ha, Hs1, Ha1.
  rewrite !mul_ofZ by (change (2 ^ 53) with 9007199254740992; nia).
  split; [reflexivity|]. split; [reflexivity|].
  exists (d - price). repeat split.
Qed.

Lemma X9_witness :
  monthlySavings (calculateSavings (whole 250000 2000 7 "exchange"))
  = mul (monthlySavings (calculateSavings example_inputs)) (ofZ 7).
Proof.
  destruct (X9_savings_scale_with_the_fleet 250000 2000 7 "exchange") as (H & _).
  - lia.
  - lia.
  - lia.
  - apply list_elem_of_here.
  - exact H.
Defined.

Lemma ofZ_is_zero (s : Z) : Z.abs s < 2 ^ 53 -> ofZ s = zero <-> s = 0.
Proof.
  intros Hs. pose proof (ofZ_cases s Hs) as E.
  destruct s; rewrite E; split; intros H; try reflexivity; discriminate H.
Qed.

(** X10. Break-even on whole numbers: the monthly savings are positive
    exactly when the diesel cost of one vehicle is above the monthly
    price of one vehicle under the chosen model (120000 for exchange,
    95000 plus 14 per kilometre for traditional, 175000 for lease), zero
    when the two are equal and negative below; the classes for positive
    and for negative savings are set accordingly, never both. *)
Theorem X10_break_even (d k v : Z) (m : string) :
  50000 <= d <= 1000000 -> 100 <= k <= 10000 -> 1 <= v <= 50 -> m ∈ validOptions ->
  exists price, pricePerVehicle m k = Some price /\
    (gt (monthlySavings (calculateSavings (whole d k v m))) zero = true <-> price < d) /\
    (monthlySavings (calculateSavings (whole d k v m)) = zero <-> price = d) /\
    (lt (monthlySavings (calculateSavings (whole d k v m))) zero = true <-> d < price) /\
    positiveSavingsClass (displayResults (calculateSavings (whole d k v m)))
      = bool_decide (price < d) /\
    negativeSavingsClass (displayResults (calculateSavings (whole d k v m)))
      = bool_decide (d < price).
Proof.
  intros Hd Hk Hv Hm.
  destruct (monthlySavings_whole d k v m Hd Hk Hv Hm) as (price & Hp & Hr & Hs & _).
  exists price. split; [exact Hp|].
  unfold displayResults. cbn [positiveSavingsClass negativeSavingsClass].
  rewrite Hs. change zero with (ofZ 0).
  assert (Hb : Z.abs ((d - price) * v) < 2 ^ 53)
    by (change (2 ^ 53) with 9007199254740992; nia).
  rewrite gt_ofZ, lt_ofZ by (assumption || (change (2 ^ 53) with 9007199254740992; lia)).
  change (ofZ 0) with zero. rewrite (ofZ_is_zero _ Hb).
  rewrite Z.ltb_lt, Z.ltb_lt.
  repeat split; try nia.
  - destruct (Z.ltb_spec 0 ((d - price) * v));
      [rewrite bool_decide_eq_true_2 by nia | rewrite bool_decide_eq_false_2 by nia];
      reflexivity.
  - destruct (Z.ltb_spec ((d - price) * v) 0);
      [rewrite bool_decide_eq_true_2 by nia | rewrite bool_decide_eq_false_2 by nia];
      reflexivity.
Qed.

Lemma X10_witness :
  exists price, pricePerVehicle "exchange" 2000 = Some price /\
    (lt (monthlySavings (calculateSavings cheap_diesel_inputs)) zero = true
     <-> 50000 < price).
Proof.
  destruct (X10_break_even 50000 2000 1 "exchange") as (price & Hp & _ & _ & Hneg & _).
  - lia.
  - lia.
  - lia.
  - apply list_elem_of_here.
  - exists price. split; assumption.
Defined.

Lemma validateAndCalculate_results now p :
  results (validateAndCalculate now p) = results p \/
  exists i,
    getValidatedInputs (parsed (dieselInput p)) (parsed (kmInput p))
      (parsed (vehiclesInput p)) (modelSelect p) = Some i /\
    fst (SecurityFramework.checkRateLimit now "calculator_usage" 10 (store p)) = true /\
    results (validateAndCalculate now p) = Some (displayResults (calculateSavings i)).
Proof.
  unfold validateAndCalculate.
  destruct (SecurityFramework.checkRateLimit now "calculator_usage" 10 (store p))
    as [ok st].
  destruct ok; simpl; [|left; reflexivity].
  destruct (getValidatedInputs _ _ _ _) as [i|]; [|left; reflexivity].
  right. exists i. auto.
Qed.

Lemma validateAndCalculate_setInputs_results now d k v m p :
  showsValidated p -> showsValidated (validateAndCalculate now (setInputs d k v m p)).
Proof.
  intros Hp shown Hshown.
  destruct (validateAndCalculate_results now (setInputs d k v m p)) as [E | (i & Hi & _ & E)].
  - rewrite E in Hshown. apply Hp. exact Hshown.
  - rewrite E in Hshown. inversion Hshown; subst shown.
    exists i. split; [|reflexivity].
    apply getValidatedInputs_validated in Hi. tauto.
Qed.

(** X6. The result elements never show a calculation on rejected
    input: through any run of calculations, whatever is typed into the
    controls before each of them, what is shown is the result of
    validated inputs; a calculation whose inputs are rejected, or which
    the rate limiter denies, leaves the results shown before in place. *)
Theorem X6_results_shown_come_from_validated_inputs
    (steps : list (Z * (input * input * input * option string))) (p : page) :
  showsValidated p ->
  showsValidated (calculations steps p) /\
  (forall now,
     getValidatedInputs (parsed (dieselInput p)) (parsed (kmInput p))
       (parsed (vehiclesInput p)) (modelSelect p) = None \/
     fst (SecurityFramework.checkRateLimit now "calculator_usage" 10 (store p)) = false ->
     results (validateAndCalculate now p) = results p).
Proof.
  intros Hp. split.
  - revert p Hp. induction steps as [|[now [[[d k] v] m]] rest IH]; intros p Hp.
    + exact Hp.
    + simpl. apply IH. apply validateAndCalculate_setInputs_results. exact Hp.
  - intros now Hcase.
    destruct (validateAndCalculate_results now p) as [E | (i & Hi & Hok & _)];
      [exact E|].
    destruct Hcase as [Hnone | Hdenied]; congruence.
Qed.

Lemma X6_witness :
  showsValidated
    (calculations [(1000, (Value (tenths 3000007), Value (ofZ 2000), Value (ofZ 7),
                           Some "exchange"));
                   (2000, (Value (ofZ 7), Value S754_nan, Missing, Some "petrol"))]
       (blankPage Missing Missing Missing None)) /\
  results
    (calculations [(1000, (Value (tenths 3000007), Value (ofZ 2000), Value (ofZ 7),
                           Some "exchange"));
                   (2000, (Value (ofZ 7), Value S754_nan, Missing, Some "petrol"))]
       (blankPage Missing Missing Missing None))
  = Some (displayResults (calculateSavings (fractional_inputs 7))).
Proof.
  split.
  - apply (X6_results_shown_come_from_validated_inputs
             [(1000, (Value (tenths 3000007), Value (ofZ 2000), Value (ofZ 7),
                      Some "exchange"));
              (2000, (Value (ofZ 7), Value S754_nan, Missing, Some "petrol"))]
             (blankPage Missing Missing Missing None)).
    intros shown H. discriminate H.
  - vm_compute. reflexivity.
Defined.

(** The validations and the calculation do not look at the store. *)
Lemma unlimited_set_store steps : forall st p,
  unlimited steps (set_store st p) = set_store st (unlimited steps p).
Proof.
  induction steps as [|[now [[[d k] v] m]] rest IH]; intros st p; [reflexivity|].
  cbn [unlimited]. rewrite <- IH. reflexivity.
Qed.

Lemma unlimited_showError steps : forall msg p,
  unlimited steps (showError msg p) = showError msg (unlimited steps p).
Proof.
  induction steps as [|[now [[[d k] v] m]] rest IH]; intros msg p; [reflexivity|].
  cbn [unlimited]. rewrite <- IH. reflexivity.
Qed.

(** A run of calculations inside one window, from an entry of the
    limiter that is inside it: the calculations that the count leaves
    room for are carried out, the later ones are refused. *)
Lemma calculations_from_entry t0 steps : forall p e,
  store p !! "calculator_usage" = Some e ->
  t0 <= SecurityFramework.timestamp e <= t0 + 60000 ->
  Forall (fun step => t0 <= fst step <= t0 + 60000) steps ->
  let room := Z.to_nat (10 - SecurityFramework.count e) in
  results (calculations steps p) = results (unlimited (take room steps) p) /\
  errors (calculations steps p) = errors (unlimited (take room steps) p) /\
  consoleErrors (calculations steps p)
  = (consoleErrors p
     ++ replicate (length steps - room) "Please wait before making more calculations")%list.
Proof.
  induction steps as [|[now [[[d k] v] m]] rest IH]; intros p e Hk He Hall room.
  - rewrite take_nil. simpl. rewrite app_nil_r. repeat split.
  - apply Forall_cons in Hall as [Hnow Hrest]. simpl in Hnow.
    cbn [calculations]. unfold validateAndCalculate.
    destruct (Z_lt_ge_dec (SecurityFramework.count e) 10) as [Hlt|Hge].
    + rewrite (checkRateLimit_under now "calculator_usage" 10 _ e) by (assumption || lia).
      cbn [negb].
      set (st := <["calculator_usage" := _]> _).
      destruct (IH (calculate (set_store st (setInputs d k v m p)))
                  {| SecurityFramework.count := SecurityFramework.count e + 1;
                     SecurityFramework.timestamp := now |})
        as (I1 & I2 & I3).
      * unfold st. cbn [store calculate set_store]. apply lookup_insert_eq.
      * simpl. lia.
      * exact Hrest.
      * cbn [SecurityFramework.count] in I1, I2, I3.
        replace room with (S (Z.to_nat (10 - (SecurityFramework.count e + 1))))
          by (unfold room; lia).
        cbn [take unlimited length].
        rewrite I1, I2, I3.
        change (calculate (set_store st (setInputs d k v m p)))
          with (set_store st (calculate (setInputs d k v m p))).
        rewrite unlimited_set_store. repeat split.
    + rewrite (checkRateLimit_over now "calculator_usage" 10 _ e) by (assumption || lia).
      cbn [negb].
      set (st := SecurityFramework.cleanOldEntries _ _).
      destruct (IH (showError "Please wait before making more calculations"
                      (set_store st (setInputs d k v m p))) e)
        as (I1 & I2 & I3).
      * unfold st. cbn [store showError set_store setInputs].
        apply lookup_clean_fresh; [exact Hk | lia].
      * exact He.
      * exact Hrest.
      * replace room with 0%nat in * by (unfold room; lia).
        replace (Z.to_nat (10 - SecurityFramework.count e)) with 0%nat in I1, I2, I3 by lia.
        rewrite take_0 in *. cbn [unlimited] in *.
        rewrite I1, I2, I3. cbn [length]. rewrite Nat.sub_0_r, Nat.sub_0_r.
        repeat split. cbn [consoleErrors showError set_store setInputs].
        rewrite <- app_assoc. reflexivity.
Qed.

(** X7. The calculator stops after ten calculations in a window: in a
    run of calculations inside one window of 60 seconds, from a store
    without an entry for [calculator_usage], the first ten are carried
    out, with their messages under the fields and their results, as if
    there were no limiter; each further one only writes the error to the
    console and leaves the messages and the results as they are,
    whatever is typed into the controls. *)
Theorem X7_eleventh_calculation_is_refused
    (steps : list (Z * (input * input * input * option string))) (p : page) (t0 : Z) :
  store p !! "calculator_usage" = None ->
  Forall (fun step => t0 <= fst step <= t0 + 60000) steps ->
  results (calculations steps p) = results (unlimited (take 10 steps) p) /\
  errors (calculations steps p) = errors (unlimited (take 10 steps) p) /\
  consoleErrors (calculations steps p)
  = (consoleErrors p
     ++ replicate (length steps - 10) "Please wait before making more calculations")%list.
Proof.
  intros Hnone Hall. destruct steps as [|[now [[[d k] v] m]] rest].
  - simpl. rewrite app_nil_r. repeat split.
  - apply Forall_cons in Hall as [Hnow Hrest]. simpl in Hnow.
    cbn [calculations]. unfold validateAndCalculate.
    rewrite (checkRateLimit_new now "calculator_usage" 10)
      by (apply lookup_clean_absent; exact Hnone).
    cbn [negb].
    set (st := <["calculator_usage" := _]> _).
    destruct (calculations_from_entry t0 rest
                (calculate (set_store st (setInputs d k v m p)))
                {| SecurityFramework.count := 1; SecurityFramework.timestamp := now |})
      as (I1 & I2 & I3).
    + unfold st. cbn [store calculate set_store]. apply lookup_insert_eq.
    + simpl. lia.
    + exact Hrest.
    + cbn [SecurityFramework.count] in I1, I2, I3.
      change (Z.to_nat (10 - 1)) with 9%nat in I1, I2, I3.
      cbn [take unlimited length]. rewrite I1, I2, I3.
      change (calculate (set_store st (setInputs d k v m p)))
        with (set_store st (calculate (setInputs d k v m p))).
      rewrite unlimited_set_store. repeat split.
Qed.

Lemma X7_witness :
  consoleErrors
    (calculations
       (map (fun t => (t, (Value (ofZ 250000), Value (ofZ 2000), Value (ofZ 1),
                           Some "exchange")))
            [1; 2; 3; 4; 5; 6; 7; 8; 9; 10; 11; 12])
       (blankPage Missing Missing Missing None))
  = ["Please wait before making more calculations";
     "Please wait before making more calculations"].
Proof.
  apply (X7_eleventh_calculation_is_refused
           (map (fun t => (t, (Value (ofZ 250000), Value (ofZ 2000), Value (ofZ 1),
                               Some "exchange")))
                [1; 2; 3; 4; 5; 6; 7; 8; 9; 10; 11; 12])
           (blankPage Missing Missing Missing None) 0).
  - reflexivity.
  - repeat constructor; simpl; lia.
Defined.

End CalculatorFacts.

(** ** More on the validators *)

Section ValidatorShapes.
Import JS RegExp InputValidator Shapes.

Lemma test_Void (s : string) : test Void s = false.
Proof. induction s as [|c s IH]; [reflexivity | exact IH]. Qed.

Lemma test_Star_Class (p : ascii -> bool) (s : string) :
  test (Star (Class p)) s = allChars p s.
Proof.
  induction s as [|c s IH]; [reflexivity|].
  simpl. destruct (p c); simpl; [exact IH | apply test_Void].
Qed.

Lemma test_Plus_Class (p : ascii -> bool) (s : string) :
  test (Plus (Class p)) s = negb (isEmpty s) && allChars p s.
Proof.
  destruct s as [|c s]; [reflexivity|].
  simpl. destruct (p c); simpl; [apply test_Star_Class | apply test_Void].
Qed.

(** X14. [validateName] accepts a string exactly when it is made of
    letters, white space, hyphens and apostrophes only and, once trimmed,
    is 2 to 50 characters long; every other value is answered [false]. *)
Theorem X14_validateName_accepts_exactly (name : value) :
  validateName name = Normal true <->
  exists s, name = VString s /\
    allChars nameClass s = true /\
    2 <= Z.of_nat (String.length (trim s)) <= 50.
Proof.
  destruct name as [| |b|n|s]; simpl;
    try (split; [discriminate | intros (s & Hs & _); discriminate Hs]).
  unfold nameTest, nameRegex. rewrite test_Plus_Class. split.
  - intros [= H]. apply andb_true_iff in H as [H Hre].
    apply andb_true_iff in H as [Hlo Hhi]. apply andb_true_iff in Hre as [_ Hall].
    exists s. split; [reflexivity|]. split; [exact Hall|].
    apply Z.leb_le in Hlo, Hhi. lia.
  - intros (s' & [= <-] & Hall & Hlo & Hhi).
    f_equal. rewrite Hall, andb_true_r.
    destruct s as [|c s]; [simpl in Hlo; lia|]. simpl isEmpty. simpl negb.
    rewrite andb_true_r. apply andb_true_iff.
    split; apply Z.leb_le; assumption.
Qed.

Lemma matches_Lit (c : ascii) (s : string) : matches (Lit c) s <-> s = String c "".
Proof.
  unfold Lit. rewrite matches_Class. split.
  - intros (d & -> & Hd). apply Ascii.eqb_eq in Hd. subst d. reflexivity.
  - intros ->. exists c. split; [reflexivity | apply Ascii.eqb_refl].
Qed.

Lemma matches_Str (t s : string) : matches (Str t) s <-> s = t.
Proof.
  revert s. induction t as [|c t IH]; intros s; simpl.
  - apply matches_Eps.
  - rewrite matches_Seq. split.
    + intros (s1 & s2 & -> & H1 & H2). apply matches_Lit in H1. apply IH in H2.
      subst. reflexivity.
    + intros ->. exists (String c ""), t. split; [reflexivity|].
      split; [apply matches_Lit; reflexivity | apply IH; reflexivity].
Qed.

Lemma matches_Opt (r : regex) (s : string) : matches (Opt r) s <-> matches r s \/ s = "".
Proof. unfold Opt. rewrite matches_Alt, matches_Eps. reflexivity. Qed.

Lemma matches_Times_Class (p : ascii -> bool) (n : nat) : forall s,
  matches (Times n (Class p)) s <-> String.length s = n /\ allChars p s = true.
Proof.
  induction n as [|n IH]; intros s; simpl.
  - rewrite matches_Eps. split.
    + intros ->. split; reflexivity.
    + intros [Hlen _]. destruct s; [reflexivity | discriminate Hlen].
  - rewrite matches_Seq. split.
    + intros (s1 & s2 & -> & H1 & H2). apply matches_Class in H1 as (c & -> & Hc).
      apply IH in H2 as [Hlen Hall].
      change (String c "" ++ s2) with (String c s2). simpl.
      rewrite Hc, Hall, Hlen. split; reflexivity.
    + intros [Hlen Hall]. destruct s as [|c s]; [discriminate Hlen|].
      simpl in Hlen, Hall. apply andb_true_iff in Hall as [Hc Hall].
      exists (String c ""), s. split; [reflexivity|].
      split; [constructor; exact Hc | apply IH; split; [congruence | exact Hall]].
Qed.

(** X13. [validatePhone] accepts a string exactly when, with all its
    white space removed, it is one of the prefixes (none, 0, 254, +254)
    followed by a 1 or a 7 and eight more digits. *)
Theorem X13_validatePhone_accepts_exactly (phone : value) :
  validatePhone phone = Normal true <->
  exists s pre d rest,
    phone = VString s /\
    removeWhitespace s = pre ++ String d rest /\
    pre ∈ phonePrefixes /\
    (d = "1"%char \/ d = "7"%char) /\
    String.length rest = 8%nat /\ allChars isDigit rest = true.
Proof.
  assert (Hfirst : forall x, matches (Set_ [Chars "17"]) x
                     <-> exists d, x = String d "" /\ (d = "1"%char \/ d = "7"%char)).
  { intros x. unfold Set_. rewrite matches_Class. split.
    - intros (d & -> & Hd). exists d. split; [reflexivity|].
      unfold in_class in Hd. simpl in Hd.
      destruct (Ascii.eqb_spec d "1"); [auto|].
      destruct (Ascii.eqb_spec d "7"); [auto | discriminate Hd].
    - intros (d & -> & [-> | ->]); eexists; split; reflexivity. }
  assert (Hpre : forall x,
            matches (Opt (Alt (Seq (Opt (Lit "+")) (Str "254")) (Lit "0"))) x
            <-> x ∈ phonePrefixes).
  { intros x. rewrite matches_Opt, matches_Alt, matches_Seq, matches_Lit.
    unfold phonePrefixes. rewrite !elem_of_cons, elem_of_nil. split.
    - intros [[(s1 & s2 & -> & H1 & H2) | ->] | ->]; [|tauto|tauto].
      apply matches_Opt in H1. apply matches_Str in H2. subst s2.
      destruct H1 as [H1 | ->]; [apply matches_Lit in H1; subst s1|]; tauto.
    - intros [-> | [-> | [-> | [-> | []]]]].
      + right. reflexivity.
      + left. right. reflexivity.
      + left. left. exists "", "254". split; [reflexivity|].
        split; [apply matches_Opt; right; reflexivity | apply matches_Str; reflexivity].
      + left. left. exists "+", "254". split; [reflexivity|].
        split; [apply matches_Opt; left; apply matches_Lit; reflexivity
               | apply matches_Str; reflexivity]. }
  destruct phone as [| |b|n|s]; simpl;
    try (split; [discriminate | intros (s & pre & d & rest & Hs & _); discriminate Hs]).
  unfold phoneTest, phoneRegex. split.
  - intros [= H]. apply test_iff in H.
    apply matches_Seq in H as (pre & tail & Heq & H1 & H2).
    apply Hpre in H1.
    apply matches_Seq in H2 as (x & rest & -> & Hx & Hrest).
    apply Hfirst in Hx as (d & -> & Hd).
    apply (matches_Times_Class _ 8) in Hrest as [Hlen Hall].
    exists s, pre, d, rest. repeat split; assumption.
  - intros (s' & pre & d & rest & [= <-] & Heq & Hin & Hd & Hlen & Hall).
    f_equal. apply test_iff. rewrite Heq. apply matches_Seq.
    exists pre, (String d rest). split; [reflexivity|].
    split; [apply Hpre; exact Hin|].
    apply matches_Seq. exists (String d ""), rest. split; [reflexivity|].
    split; [apply Hfirst; eauto | apply (matches_Times_Class _ 8); auto].
Qed.

(** A statement about every character, settled character by character. *)
Ltac each_char c :=
  destruct c as [[|] [|] [|] [|] [|] [|] [|] [|]]; vm_compute;
  try reflexivity; try discriminate; try (intros; congruence);
  try (intros; split; congruence).

Lemma allChars_append (P : ascii -> bool) (a b : string) :
  allChars P (a ++ b) = allChars P a && allChars P b.
Proof.
  induction a as [|c a IH]; [reflexivity|].
  change (allChars P (String c (a ++ b)) = allChars P (String c a) && allChars P b).
  simpl. rewrite IH, andb_assoc. reflexivity.
Qed.

(** A string matched by an expression is made of characters of its
    classes. *)
Lemma matches_within (P : ascii -> bool) (r : regex) (s : string) :
  matches r s -> classesWithin P r -> allChars P s = true.
Proof.
  induction 1 as [|p c Hc|r1 r2 s1 s2 _ IH1 _ IH2|r1 r2 s0 _ IH|r1 r2 s0 _ IH
                 |r0|r0 s1 s2 _ IH1 _ IH2]; simpl; intros Hw.
  - reflexivity.
  - rewrite (Hw c Hc). reflexivity.
  - destruct Hw as [Hw1 Hw2]. rewrite allChars_append, IH1, IH2 by assumption. reflexivity.
  - apply IH, Hw.
  - apply IH, Hw.
  - reflexivity.
  - rewrite allChars_append, IH1, IH2 by assumption. reflexivity.
Qed.

Lemma classesWithin_UpTo (P : ascii -> bool) (r : regex) (n : nat) :
  classesWithin P r -> classesWithin P (UpTo n r).
Proof. intros Hr. induction n as [|n IH]; simpl; auto. Qed.

Lemma label_within_domain : classesWithin domainClass label.
Proof.
  assert (H1 : forall c, in_class alnum c = true -> domainClass c = true)
    by (intros c; each_char c).
  assert (H2 : forall c, in_class alnumHyphen c = true -> domainClass c = true)
    by (intros c; each_char c).
  unfold label, Opt, Set_. cbn [classesWithin].
  split; [exact H1|]. split; [|exact I]. split; [|exact H1].
  apply (classesWithin_UpTo domainClass (Class (in_class alnumHyphen))). exact H2.
Qed.

Lemma label_not_empty (s : string) : matches label s -> s <> "".
Proof.
  unfold label. intros H. apply matches_Seq in H as (s1 & s2 & -> & H1 & _).
  apply matches_Class in H1 as (c & -> & _). discriminate.
Qed.

(** X15. An address [validateEmail] accepts is a local part, one at
    sign and a domain, both non-empty: the local part is made of letters,
    digits and the punctuation listed in the expression, the domain of
    letters, digits, hyphens and dots.  None of these characters is
    white space or a second at sign. *)
Theorem X15_accepted_email_shape (s : string) :
  validateEmail (VString s) = Normal true ->
  (exists loc dom,
     s = loc ++ String "@" dom /\ loc <> "" /\ dom <> "" /\
     allChars localClass loc = true /\ allChars domainClass dom = true) /\
  (forall c, localClass c = true \/ domainClass c = true ->
             whitespace c = false /\ c <> "@"%char).
Proof.
  intros [= H]. split.
  - apply test_iff in H. unfold emailRegex in H.
    apply matches_Seq in H as (loc & tail & -> & Hloc & Htail).
    apply matches_Seq in Htail as (at_ & dom & -> & Hat & Hdom).
    apply matches_Lit in Hat. subst at_.
    exists loc, dom. split; [reflexivity|].
    apply test_iff in Hloc. unfold Set_ in Hloc. rewrite test_Plus_Class in Hloc.
    apply andb_true_iff in Hloc as [Hne Hall].
    split; [intros ->; discriminate Hne|].
    split.
    + apply matches_Seq in Hdom as (l1 & l2 & -> & Hl1 & _).
      apply label_not_empty in Hl1. destruct l1; [congruence | discriminate].
    + split; [exact Hall|].
      apply (matches_within domainClass _ _ Hdom). simpl.
      split; [apply label_within_domain|].
      split; [intros c; each_char c | apply label_within_domain].
  - intros c [Hc | Hc]; revert Hc; each_char c.
Qed.

Lemma X15_witness :
  exists loc dom,
    "jane.doe@example.co.ke" = loc ++ String "@" dom /\ loc <> "" /\ dom <> "" /\
    allChars localClass loc = true /\ allChars domainClass dom = true.
Proof.
  apply (X15_accepted_email_shape "jane.doe@example.co.ke").
  vm_compute. reflexivity.
Defined.

Lemma X13_witness :
  exists s pre d rest,
    VString "+254 712 345 678" = VString s /\
    removeWhitespace s = pre ++ String d rest /\
    pre ∈ phonePrefixes /\
    (d = "1"%char \/ d = "7"%char) /\
    String.length rest = 8%nat /\ allChars isDigit rest = true.
Proof.
  apply (proj1 (X13_validatePhone_accepts_exactly (VString "+254 712 345 678"))).
  vm_compute. reflexivity.
Defined.

Lemma X14_witness :
  exists s, VString "O'Neil-Smith" = VString s /\
    allChars nameClass s = true /\
    2 <= Z.of_nat (String.length (trim s)) <= 50.
Proof.
  apply (proj1 (X14_validateName_accepts_exactly (VString "O'Neil-Smith"))).
  vm_compute. reflexivity.
Defined.

Lemma replaceAll_absent (c : ascii) (rep s : string) :
  occurs c s = false -> replaceAll c rep s = s.
Proof.
  induction s as [|d s IH]; [reflexivity|].
  simpl. rewrite Ascii.eqb_sym. destruct (Ascii.eqb d c); [discriminate|].
  intros H. rewrite (IH H). reflexivity.
Qed.

Lemma trimStart_clean (s : string) : startsClean s = true -> trimStart s = s.
Proof. destruct s as [|c s]; [reflexivity|]. simpl. destruct (whitespace c); [discriminate | reflexivity]. Qed.

Lemma trimStart_startsClean (s : string) : startsClean (trimStart s) = true.
Proof.
  induction s as [|c s IH]; [reflexivity|].
  simpl. destruct (whitespace c) eqn:E; [exact IH | simpl; rewrite E; reflexivity].
Qed.

Lemma trimEnd_clean (s : string) : endsClean s = true -> trimEnd s = s.
Proof.
  induction s as [|c s IH]; [reflexivity|].
  destruct s as [|d r].
  - simpl. destruct (whitespace c); [discriminate | reflexivity].
  - intros H. change (endsClean (String d r) = true) in H.
    change (match trimEnd (String d r) with
            | EmptyString => if whitespace c then EmptyString else String c EmptyString
            | t => String c t
            end = String c (String d r)).
    rewrite (IH H). reflexivity.
Qed.

Lemma trimEnd_endsClean (s : string) : endsClean (trimEnd s) = true.
Proof.
  induction s as [|c s IH]; [reflexivity|].
  simpl. destruct (trimEnd s) as [|d t].
  - destruct (whitespace c) eqn:E; [reflexivity | simpl; rewrite E; reflexivity].
  - exact IH.
Qed.

Lemma trimEnd_keeps_start (s : string) :
  startsClean s = true -> startsClean (trimEnd s) = true.
Proof.
  destruct s as [|c s]; [reflexivity|]. intros Hc.
  simpl in Hc. apply negb_true_iff in Hc. simpl.
  destruct (trimEnd s); rewrite ?Hc; simpl; rewrite Hc; reflexivity.
Qed.

Lemma trim_clean (s : string) :
  startsClean s = true -> endsClean s = true -> trim s = s.
Proof.
  intros Hs He. unfold trim. rewrite (trimStart_clean s Hs). apply trimEnd_clean, He.
Qed.

Lemma endsClean_append (a : string) (c : ascii) (b : string) :
  endsClean (a ++ String c b) = endsClean (String c b).
Proof.
  induction a as [|d a IH]; [reflexivity|].
  change (endsClean (String d (a ++ String c b)) = endsClean (String c b)).
  destruct a as [|e a]; [reflexivity|]. exact IH.
Qed.

(** Replacing a character by an entity, which begins with an ampersand
    and ends with a semicolon, keeps both ends free of white space. *)
Lemma replaceAll_startsClean (c r : ascii) (rep s : string) :
  whitespace r = false -> startsClean s = true ->
  startsClean (replaceAll c (String r rep) s) = true.
Proof.
  intros Hr. destruct s as [|d s]; [reflexivity|].
  simpl. destruct (Ascii.eqb d c); simpl; [rewrite Hr; reflexivity | auto].
Qed.

Lemma replaceAll_endsClean (c : ascii) (rep s : string) :
  rep <> "" -> endsClean rep = true -> endsClean s = true ->
  endsClean (replaceAll c rep s) = true.
Proof.
  intros Hne Hrep. induction s as [|d s IH]; [reflexivity|].
  intros Hs. simpl.
  assert (Htail : s <> "" -> endsClean (replaceAll c rep s) = true).
  { intros Hs'. apply IH. destruct s; [congruence | exact Hs]. }
  destruct (Ascii.eqb d c).
  - destruct s as [|e s'].
    + simpl. destruct rep as [|r0 rep0]; [congruence|].
      change (endsClean (String r0 rep0 ++ "") = true).
      clear -Hrep. revert r0 Hrep. induction rep0 as [|x rep0 IHr]; intros r0 Hrep.
      * exact Hrep.
      * change (endsClean (String r0 (String x rep0 ++ "")) = true).
        specialize (IHr x Hrep).
        destruct (String x rep0 ++ "") eqn:E; [discriminate E | exact IHr].
    + specialize (Htail ltac:(discriminate)).
      destruct (replaceAll c rep (String e s')) as [|y t] eqn:E.
      * exfalso. simpl in E. destruct (Ascii.eqb e c).
        -- destruct rep; [congruence | discriminate E].
        -- discriminate E.
      * rewrite endsClean_append. exact Htail.
  - destruct s as [|e s'].
    + exact Hs.
    + specialize (Htail ltac:(discriminate)).
      destruct (replaceAll c rep (String e s')) as [|y t] eqn:E.
      * exfalso. simpl in E. destruct (Ascii.eqb e c).
        -- destruct rep; [congruence | discriminate E].
        -- discriminate E.
      * exact Htail.
Qed.

Lemma sanitizeString_trimmed (s : string) : trim (sanitizeString s) = sanitizeString s.
Proof.
  unfold sanitizeString. apply trim_clean.
  - repeat (apply replaceAll_startsClean; [reflexivity|]).
    unfold trim. apply trimEnd_keeps_start, trimStart_startsClean.
  - repeat (apply replaceAll_endsClean; [discriminate | reflexivity |]).
    unfold trim. apply trimEnd_endsClean.
Qed.

(** X11. What [sanitizeInput] returns, for any value, holds none of the
    five characters it escapes: no angle bracket, no double quote, no
    apostrophe, no slash. *)
Theorem X11_sanitizeInput_leaves_no_escaped_character (input : value) (out : string)
    (c : ascii) :
  sanitizeInput input = Normal out ->
  occurs c escaped = true ->
  occurs c out = false.
Proof.
  intros Hout Hc. destruct input as [| |b|n|s]; simpl in Hout; inversion Hout; subst out;
    try reflexivity.
  apply sanitizeString_escapes. exact Hc.
Qed.

Lemma X11_witness :
  occurs "<" "&lt;a href=&#x27;&#x2F;x&#x27;&gt;" = false.
Proof.
  apply (X11_sanitizeInput_leaves_no_escaped_character
           (VString "  <a href='/x'>  ") "&lt;a href=&#x27;&#x2F;x&#x27;&gt;" "<").
  - vm_compute. reflexivity.
  - reflexivity.
Defined.

(** X12. Sanitizing is idempotent: the ampersand is not escaped, so the
    entities written by a first pass are left alone by a second one;
    and a string that holds none of the five characters comes back
    trimmed and otherwise unchanged. *)
Theorem X12_sanitizeInput_is_idempotent (input : value) (out : string) :
  sanitizeInput input = Normal out ->
  sanitizeInput (VString out) = Normal out /\
  (forall s, input = VString s ->
             (forall c, occurs c escaped = true -> occurs c s = false) ->
             out = trim s).
Proof.
  intros Hout. split.
  - simpl. f_equal.
    assert (Hclean : forall c, occurs c escaped = true -> occurs c out = false).
    { intros c Hc. destruct input as [| |b|n|s]; simpl in Hout; inversion Hout; subst out;
        try reflexivity. apply sanitizeString_escapes. exact Hc. }
    assert (Htrim : trim out = out).
    { destruct input as [| |b|n|s]; simpl in Hout; inversion Hout; subst out;
        try reflexivity. apply sanitizeString_trimmed. }
    unfold sanitizeString. rewrite Htrim.
    rewrite (replaceAll_absent "<" _ out) by (apply Hclean; reflexivity).
    rewrite (replaceAll_absent ">" _ out) by (apply Hclean; reflexivity).
    rewrite (replaceAll_absent quote _ out) by (apply Hclean; reflexivity).
    rewrite (replaceAll_absent apostrophe _ out) by (apply Hclean; reflexivity).
    apply replaceAll_absent, Hclean. reflexivity.
  - intros s -> Hnone. simpl in Hout. inversion Hout; subst out.
    unfold sanitizeString.
    assert (Hkeep : forall c, occurs c escaped = true -> occurs c (trim s) = false).
    { intros c Hc. specialize (Hnone c Hc). clear -Hnone. unfold trim.
      assert (H1 : occurs c (trimStart s) = false).
      { induction s as [|d s IH]; [reflexivity|]. simpl in *.
        destruct (Ascii.eqb c d) eqn:E; [discriminate|].
        destruct (whitespace d); [apply IH; exact Hnone | simpl; rewrite E; exact Hnone]. }
      revert H1. generalize (trimStart s). intros t.
      induction t as [|d t IH]; [reflexivity|]. simpl.
      destruct (Ascii.eqb c d) eqn:E; [discriminate|]. intros Ht. specialize (IH Ht).
      destruct (trimEnd t).
      - destruct (whitespace d); [reflexivity | simpl; rewrite E; reflexivity].
      - simpl. rewrite E. exact IH. }
    rewrite (replaceAll_absent "<" _ (trim s)) by (apply Hkeep; reflexivity).
    rewrite (replaceAll_absent ">" _ (trim s)) by (apply Hkeep; reflexivity).
    rewrite (replaceAll_absent quote _ (trim s)) by (apply Hkeep; reflexivity).
    rewrite (replaceAll_absent apostrophe _ (trim s)) by (apply Hkeep; reflexivity).
    apply replaceAll_absent, Hkeep. reflexivity.
Qed.

Lemma X12_witness :
  sanitizeInput (VString "&lt;b&gt;Fleet &amp; co&lt;&#x2F;b&gt;")
  = Normal "&lt;b&gt;Fleet &amp; co&lt;&#x2F;b&gt;".
Proof.
  apply (X12_sanitizeInput_is_idempotent (VString "  <b>Fleet &amp; co</b> ")
           "&lt;b&gt;Fleet &amp; co&lt;&#x2F;b&gt;").
  vm_compute. reflexivity.
Defined.

End ValidatorShapes.

(** ** More on the form handler *)

Section FormFacts.
Import JS RegExp InputValidator Shapes FormHandler FormCases FormRuns.
Local Open Scope js_scope.


Lemma handleFormSubmission_invalid env now d :
  fst (SecurityFramework.checkRateLimit now "form_submission" 3 (rateLimitStore d)) = true ->
  forallb (fun f => fst (fieldVerdict f)) (fields d) = false ->
  handleFormSubmission env now d
  = showNotification env "Please fix the errors in the form before submitting" "error"
      (set_errorMessages (validatedMessages (fields d) (errorMessages d))
         (set_fields (validatedFields (fields d))
            (set_rateLimitStore
               (snd (SecurityFramework.checkRateLimit now "form_submission" 3
                       (rateLimitStore d))) d))).
Proof.
  intros H Hinv. unfold handleFormSubmission, bindM at 1, securityCheck.
  destruct (SecurityFramework.checkRateLimit now "form_submission" 3 (rateLimitStore d))
    as [ok st]. simpl in H. subst ok. cbn [negb snd].
  unfold bindM at 1. rewrite validateAll_fields.
  cbn [fields errorMessages set_rateLimitStore]. rewrite Hinv. reflexivity.
Qed.

Lemma handleFormSubmission_valid env now d :
  fst (SecurityFramework.checkRateLimit now "form_submission" 3 (rateLimitStore d)) = true ->
  forallb (fun f => fst (fieldVerdict f)) (fields d) = true ->
  handleFormSubmission env now d
  = (let d1 := set_errorMessages (validatedMessages (fields d) (errorMessages d))
                 (set_fields (validatedFields (fields d))
                    (set_rateLimitStore
                       (snd (SecurityFramework.checkRateLimit now "form_submission" 3
                               (rateLimitStore d))) d)) in
     match submitButton d with
     | None =>
         (d1, Throw (TypeError "Cannot read properties of null (reading 'textContent')"))
     | Some submit =>
         try_catch_finally
           (data <- collectFormData env now ;;
            processFormSubmission env data ;;;
            showNotification env
              "Thank you! We have received your inquiry and will contact you within 24 hours."
              "success" ;;;
            formReset env)
           (fun error =>
              modify (consoleWrite (ConsoleError "Form submission error:" error)) ;;;
              showNotification env
                "Sorry, there was an error sending your message. Please try again or contact us directly."
                "error")
           (setLoading false (textContent submit))
           (set_submitButton (Some (setLoadingState submit true "")) d1)
     end).
Proof.
  intros H Hval. unfold handleFormSubmission, bindM at 1, securityCheck.
  destruct (SecurityFramework.checkRateLimit now "form_submission" 3 (rateLimitStore d))
    as [ok st]. simpl in H. subst ok. cbn [negb snd].
  unfold bindM at 1. rewrite validateAll_fields.
  cbn [fields errorMessages set_rateLimitStore]. rewrite Hval. cbn [negb].
  unfold bindM at 1, get. cbn [submitButton set_fields set_rateLimitStore set_errorMessages].
  destruct (submitButton d) as [submit|] eqn:E; [|reflexivity].
  unfold bindM at 1, setLoading at 1, modify at 1.
  cbn [submitButton set_fields set_rateLimitStore set_errorMessages]. rewrite E.
  reflexivity.
Qed.












Lemma validatedFields_values (fs : list field) :
  map fieldValue (validatedFields fs) = map fieldValue fs.
Proof.
  unfold validatedFields. rewrite map_map. apply map_ext. intros f. reflexivity.
Qed.

Lemma forallb_verdict_false (fs : list field) :
  Exists (fun f => fst (fieldVerdict f) = false) fs ->
  forallb (fun f => fst (fieldVerdict f)) fs = false.
Proof.
  induction 1 as [f fs Hf | f fs _ IH]; simpl.
  - rewrite Hf. reflexivity.
  - rewrite IH. apply andb_false_r.
Qed.

Lemma forallb_verdict_true (fs : list field) :
  allValid fs -> forallb (fun f => fst (fieldVerdict f)) fs = true.
Proof.
  induction 1 as [|f fs Hf _ IH]; simpl; [reflexivity|]. rewrite Hf. exact IH.
Qed.

Lemma validatedMessages_cons (f : field) (fs : list field) (ms : list errorMessage) :
  validatedMessages (f :: fs) ms
  = validatedMessages fs (snd (snd (validateField f ms))).
Proof.
  unfold validatedMessages. cbn [validateEach].
  destruct (validateField f ms) as [ok [f1 ms1]]. cbn [snd].
  destruct (validateEach fs ms1) as [isValid [rest1 ms2]]. reflexivity.
Qed.

Lemma removeById_subset (id : string) (ms : list errorMessage) (m : errorMessage) :
  m ∈ removeById id ms -> m ∈ ms.
Proof.
  induction ms as [|m0 ms IH]; simpl; [auto|].
  case_bool_decide as Hid.
  - intros Hm. apply list_elem_of_further. exact Hm.
  - intros Hm. apply elem_of_cons in Hm as [-> | Hm].
    + apply list_elem_of_here.
    + apply list_elem_of_further, IH, Hm.
Qed.

Lemma removeById_absent (id : string) (ms : list errorMessage) :
  Forall (fun m => messageId m <> id) ms -> removeById id ms = ms.
Proof.
  induction 1 as [|m ms Hm _ IH]; simpl; [reflexivity|].
  rewrite bool_decide_eq_false_2 by exact Hm. rewrite IH. reflexivity.
Qed.

(** What one validation leaves among the elements found by id. *)
Lemma validateField_messages (f : field) (ms : list errorMessage) :
  snd (snd (validateField f ms))
  = (removeById (fieldId f ++ "-error") ms ++ messageOf f)%list.
Proof.
  unfold validateField, messageOf, showFieldError, clearFieldError.
  destruct (fieldVerdict f) as [[|] msg]; cbn [fst snd].
  - rewrite app_nil_r. reflexivity.
  - reflexivity.
Qed.

Lemma messageOf_id (f : field) (m : errorMessage) :
  m ∈ messageOf f -> messageId m = fieldId f ++ "-error".
Proof.
  unfold messageOf. destruct (fst (fieldVerdict f)).
  - intros H. apply elem_of_nil in H. contradiction.
  - intros H. apply list_elem_of_singleton in H. subst m. reflexivity.
Qed.

(** Every element found by id after the validations was there before
    them or is the message of a field that failed. *)
Lemma validatedMessages_origin (fs : list field) : forall ms m,
  m ∈ validatedMessages fs ms ->
  m ∈ ms \/ exists f, f ∈ fs /\ m ∈ messageOf f.
Proof.
  induction fs as [|f fs IH]; intros ms m H; [left; exact H|].
  rewrite validatedMessages_cons, validateField_messages in H.
  apply IH in H as [H | (g & Hg & Hm)].
  - apply elem_of_app in H as [H | H].
    + left. eapply removeById_subset, H.
    + right. exists f. split; [apply list_elem_of_here | exact H].
  - right. exists g. split; [apply list_elem_of_further, Hg | exact Hm].
Qed.

Lemma string_length_append (s t : string) :
  String.length (s ++ t) = (String.length s + String.length t)%nat.
Proof. induction s as [|c s IH]; [reflexivity|]. simpl. f_equal. exact IH. Qed.

Lemma append_inv_tail (s1 s2 t : string) : s1 ++ t = s2 ++ t -> s1 = s2.
Proof.
  revert s2. induction s1 as [|c s1 IH]; intros [|c2 s2] H.
  - reflexivity.
  - apply (f_equal String.length) in H. rewrite !string_length_append in H.
    simpl in H. lia.
  - apply (f_equal String.length) in H. rewrite !string_length_append in H.
    simpl in H. lia.
  - change (String c (s1 ++ t) = String c2 (s2 ++ t)) in H.
    inversion H; subst. f_equal. apply IH. assumption.
Qed.

(** When the controls have ids of their own and the document holds no
    element under the id of one of their messages, the validations
    leave one message for every field that failed, and remove none. *)
Lemma validatedMessages_distinct (fs : list field) : forall ms,
  NoDup (map fieldId fs) -> noMessageYet fs ms ->
  validatedMessages fs ms = (ms ++ flat_map messageOf fs)%list.
Proof.
  induction fs as [|f fs IH]; intros ms Hids Hnone.
  - unfold validatedMessages. simpl. rewrite app_nil_r. reflexivity.
  - rewrite validatedMessages_cons, validateField_messages.
    apply NoDup_cons in Hids as [Hf Hids].
    apply Forall_cons in Hnone as [Hfm Hrest].
    rewrite (removeById_absent _ _ Hfm).
    rewrite IH; [cbn [flat_map]; rewrite <- app_assoc; reflexivity | exact Hids |].
    apply Forall_forall. intros g Hg.
    apply Forall_app. split.
    + rewrite Forall_forall in Hrest. apply Hrest, Hg.
    + apply Forall_forall. intros m Hm. rewrite (messageOf_id _ _ Hm).
      intros Heq. apply append_inv_tail in Heq.
      apply Hf. rewrite Heq. apply list_elem_of_In, in_map, list_elem_of_In, Hg.
Qed.

(** Controls that share an id, here two controls without one, share the
    element of their message: a second failing field replaces the
    message of the first, and a passing one removes it. *)
Lemma shared_id_loses_a_message :
  validatedMessages [anonymousField "name" "text" "INPUT" "";
                     anonymousField "email" "email" "INPUT" "jane at example"] []
  = [{| messageId := "-error"; messageText := "Please enter a valid email address" |}] /\
  validatedMessages [anonymousField "name" "text" "INPUT" "";
                     anonymousField "email" "email" "INPUT" "jane@example.co.ke"] []
  = [].
Proof. split; vm_compute; reflexivity. Qed.

(** X17. A form with an invalid field is not sent: when the rate limiter
    allows the attempt and some field fails validation, the handler ends
    after showing the notice to fix the errors.  The fields keep their
    values and every control carries the marks of its own verdict; the
    submit control never enters the loading state and nothing is written
    to the console.  The messages are elements found by id: each one in
    the document afterwards was there before or is the message of a
    field that failed, and when the controls have ids of their own, under
    which the document held no message, every field that failed has its
    message and nothing was removed. *)
Theorem X17_invalid_form_is_not_sent (env : browser) (now : Z) (d : document) :
  fst (SecurityFramework.checkRateLimit now "form_submission" 3 (rateLimitStore d)) = true ->
  Exists (fun f => fst (fieldVerdict f) = false) (fields d) ->
  notifyThrows env = None ->
  snd (handleFormSubmission env now d) = Normal tt /\
  fields (fst (handleFormSubmission env now d)) = validatedFields (fields d) /\
  map fieldValue (fields (fst (handleFormSubmission env now d)))
    = map fieldValue (fields d) /\
  submitButton (fst (handleFormSubmission env now d)) = submitButton d /\
  console (fst (handleFormSubmission env now d)) = console d /\
  globalNotification (fst (handleFormSubmission env now d))
    = Some {| message := "Please fix the errors in the form before submitting";
              kind := "error" |} /\
  errorMessages (fst (handleFormSubmission env now d))
    = validatedMessages (fields d) (errorMessages d) /\
  (forall m, m ∈ errorMessages (fst (handleFormSubmission env now d)) ->
             m ∈ errorMessages d \/ exists f, f ∈ fields d /\ m ∈ messageOf f) /\
  (NoDup (map fieldId (fields d)) -> noMessageYet (fields d) (errorMessages d) ->
   errorMessages (fst (handleFormSubmission env now d))
   = (errorMessages d ++ flat_map messageOf (fields d))%list).
Proof.
  intros Hok Hinv Hnotify.
  rewrite (handleFormSubmission_invalid env now d Hok (forallb_verdict_false _ Hinv)).
  unfold showNotification, bindM, raiseIf. rewrite Hnotify. simpl.
  repeat split.
  - apply validatedFields_values.
  - apply validatedMessages_origin.
  - apply validatedMessages_distinct.
Qed.

Lemma X17_witness :
  submitButton
    (fst (handleFormSubmission (calmBrowser (1 # 2)) 1000
            (set_fields [textField "email" "email" "INPUT" "jane at example"]
               contactDocument)))
  = Some contactButton.
Proof.
  apply (X17_invalid_form_is_not_sent (calmBrowser (1 # 2)) 1000
           (set_fields [textField "email" "email" "INPUT" "jane at example"]
              contactDocument)).
  - vm_compute. reflexivity.
  - constructor. vm_compute. reflexivity.
  - reflexivity.
Defined.

(** X20. A form without a submit control: when the attempt is allowed
    and every field is valid, reading the text of the missing control
    throws a [TypeError] out of the handler.  Nothing is sent or
    notified, while the attempt has been counted by the rate limiter. *)
Theorem X20_form_without_submit_control_throws (env : browser) (now : Z) (d : document) :
  fst (SecurityFramework.checkRateLimit now "form_submission" 3 (rateLimitStore d)) = true ->
  allValid (fields d) ->
  submitButton d = None ->
  snd (handleFormSubmission env now d)
    = Throw (TypeError "Cannot read properties of null (reading 'textContent')") /\
  console (fst (handleFormSubmission env now d)) = console d /\
  globalNotification (fst (handleFormSubmission env now d)) = globalNotification d /\
  rateLimitStore (fst (handleFormSubmission env now d))
    = snd (SecurityFramework.checkRateLimit now "form_submission" 3 (rateLimitStore d)).
Proof.
  intros Hok Hval Hnone.
  rewrite (handleFormSubmission_valid env now d Hok (forallb_verdict_true _ Hval)).
  cbv zeta. rewrite Hnone. repeat split.
Qed.

Lemma X20_witness :
  snd (handleFormSubmission (calmBrowser (1 # 2)) 1000 (set_submitButton None contactDocument))
  = Throw (TypeError "Cannot read properties of null (reading 'textContent')").
Proof.
  apply (X20_form_without_submit_control_throws (calmBrowser (1 # 2)) 1000
           (set_submitButton None contactDocument)).
  - vm_compute. reflexivity.
  - repeat constructor.
  - reflexivity.
Defined.

Lemma substring_length (m : nat) : forall s, (String.length (String.substring 0 m s) <= m)%nat.
Proof.
  induction m as [|m IH]; intros s.
  - destruct s; simpl; lia.
  - destruct s as [|c s]; simpl; [lia|]. specialize (IH s). lia.
Qed.

(** The loop over the entries: a name has the sanitized value of its
    last entry, and [__proto__] has none. *)
Lemma sanitizeEntries_lookup (entries : list (string * entryValue)) (k : string) :
  sanitizeEntries entries !! k
  = if bool_decide (k = "__proto__") then None
    else option_map (fun v => DataText (sanitizedEntry v)) (lastEntry k entries).
Proof.
  unfold sanitizeEntries, lastEntry.
  assert (Hgen : forall (acc : formData) (found : option entryValue),
            acc !! k = (if bool_decide (k = "__proto__") then None
                        else option_map (fun v => DataText (sanitizedEntry v)) found) ->
            foldl (fun sanitizedData entry =>
                     assign (fst entry) (DataText (sanitizedEntry (snd entry))) sanitizedData)
                  acc entries !! k
            = (if bool_decide (k = "__proto__") then None
               else option_map (fun v => DataText (sanitizedEntry v))
                      (foldl (fun found entry =>
                                if bool_decide (fst entry = k) then Some (snd entry)
                                else found) found entries))).
  { induction entries as [|[key v] rest IH]; intros acc found Hacc; [exact Hacc|].
    cbn [foldl fst snd]. apply IH. unfold assign.
    destruct (decide (key = "__proto__")) as [Hp|Hp].
    - rewrite (bool_decide_eq_true_2 _ Hp).
      destruct (decide (k = "__proto__")) as [Hk|Hk].
      + rewrite (bool_decide_eq_true_2 _ Hk) in *. exact Hacc.
      + rewrite (bool_decide_eq_false_2 _ Hk) in *.
        rewrite bool_decide_eq_false_2 by congruence. exact Hacc.
    - rewrite (bool_decide_eq_false_2 _ Hp).
      destruct (decide (key = k)) as [Hk|Hk].
      + subst k. rewrite lookup_insert_eq, (bool_decide_eq_false_2 _ Hp).
        rewrite bool_decide_eq_true_2 by reflexivity. reflexivity.
      + rewrite lookup_insert_ne by exact Hk.
        rewrite (bool_decide_eq_false_2 (key = k)) by exact Hk. exact Hacc. }
  apply Hgen. rewrite lookup_empty. case_bool_decide; reflexivity.
Qed.

Lemma sanitizedEntry_escapes (v : entryValue) (c : ascii) :
  occurs c escaped = true -> occurs c (sanitizedEntry v) = false.
Proof.
  intros Hc. destruct v as [s|]; [apply sanitizeString_escapes, Hc | reflexivity].
Qed.

(** X18. What [collectFormData] gathers from the entry list that
    [FormData] gives for the form.  Under every name other than the
    three names of the metadata the object holds the sanitized value of
    the last entry of that name, and nothing under a name without an
    entry, nor under [__proto__]; so a control the browser leaves out of
    the entry list leaves no trace, and a control named like one of the
    metadata is overwritten by it.  No value taken from an entry holds
    an angle bracket, a quote, an apostrophe or a slash; the user agent
    is cut to at most 100 characters; the token is that of the page.
    The document is left as it was. *)
Theorem X18_collected_data_is_sanitized (env : browser) (now : Z) (d : document) :
  collectThrows env = None ->
  exists data,
    collectFormData env now d = (d, Normal data) /\
    data !! "_csrf" = Some (DataText (csrfToken d)) /\
    data !! "_timestamp" = Some (DataInstant now) /\
    data !! "_userAgent" = Some (DataText (String.substring 0 100 (userAgent d))) /\
    (String.length (String.substring 0 100 (userAgent d)) <= 100)%nat /\
    (forall k, k <> "_csrf" -> k <> "_timestamp" -> k <> "_userAgent" ->
       data !! k
       = if bool_decide (k = "__proto__") then None
         else option_map (fun v => DataText (sanitizedEntry v))
                (lastEntry k (formEntries env d))) /\
    (forall k s, k <> "_csrf" -> k <> "_userAgent" -> data !! k = Some (DataText s) ->
       forall c, occurs c escaped = true -> occurs c s = false).
Proof.
  intros Hcollect. unfold collectFormData, bindM, raiseIf, get, ret. rewrite Hcollect.
  simpl. eexists. split; [reflexivity|].
  assert (Hother : forall k, k <> "_csrf" -> k <> "_timestamp" -> k <> "_userAgent" ->
            (<["_userAgent" := DataText (String.substring 0 100 (userAgent d))]>
               (<["_timestamp" := DataInstant now]>
                  (<["_csrf" := DataText (csrfToken d)]>
                     (sanitizeEntries (formEntries env d)))) : formData) !! k
            = if bool_decide (k = "__proto__") then None
              else option_map (fun v => DataText (sanitizedEntry v))
                     (lastEntry k (formEntries env d))).
  { intros k H1 H2 H3. rewrite !lookup_insert_ne by congruence.
    apply sanitizeEntries_lookup. }
  split; [rewrite !lookup_insert_ne by discriminate; apply lookup_insert_eq|].
  split; [rewrite lookup_insert_ne by discriminate; apply lookup_insert_eq|].
  split; [apply lookup_insert_eq|].
  split; [apply substring_length|].
  split; [exact Hother|].
  intros k s H1 H3 Hk c Hc.
  destruct (decide (k = "_timestamp")) as [->|H2].
  - rewrite lookup_insert_ne, lookup_insert_eq in Hk by discriminate. discriminate Hk.
  - rewrite (Hother k H1 H2 H3) in Hk.
    case_bool_decide; [discriminate Hk|].
    destruct (lastEntry k (formEntries env d)) as [v|]; [|discriminate Hk].
    simpl in Hk. inversion Hk; subst s. apply sanitizedEntry_escapes, Hc.
Qed.

Lemma X18_witness :
  exists data,
    collectFormData (calmBrowser (1 # 2)) 1000
      (set_fields [textField "message" "textarea" "TEXTAREA" "<b>hello</b>"] contactDocument)
    = (set_fields [textField "message" "textarea" "TEXTAREA" "<b>hello</b>"] contactDocument,
       Normal data) /\
    data !! "message" = Some (DataText "&lt;b&gt;hello&lt;&#x2F;b&gt;").
Proof.
  destruct (X18_collected_data_is_sanitized (calmBrowser (1 # 2)) 1000
              (set_fields [textField "message" "textarea" "TEXTAREA" "<b>hello</b>"]
                 contactDocument) eq_refl)
    as (data & Hdata & _ & _ & _ & _ & Hentry & _).
  exists data. split; [exact Hdata|].
  rewrite (Hentry "message") by discriminate. vm_compute. reflexivity.
Defined.

Lemma trim_whitespace (s : string) : allChars whitespace s = true -> trim s = "".
Proof.
  intros H. unfold trim.
  assert (Hs : trimStart s = "").
  { induction s as [|c s IH]; [reflexivity|]. simpl in *.
    apply andb_true_iff in H as [Hc Hs]. rewrite Hc. apply IH, Hs. }
  rewrite Hs. reflexivity.
Qed.

(** X21. White space is not content: a required field that holds only
    white space (or nothing) fails validation as a missing one, with the
    message to select an option on a select and the message that the
    field is required elsewhere, whatever the type of the field; an
    optional field that holds only white space passes, whatever its
    type. *)
Theorem X21_white_space_is_not_content (f : field) (ms : list errorMessage) :
  allChars whitespace (fieldValue f) = true ->
  validateField f ms
  = if required f then
      (false,
       showFieldError f
         (if bool_decide (tagName f = "SELECT") then "Please select an option"
          else "This field is required") ms)
    else (true, clearFieldError f ms).
Proof.
  intros Hws. unfold validateField, fieldVerdict.
  rewrite (trim_whitespace _ Hws). simpl isEmpty. simpl negb.
  rewrite !andb_true_r, !andb_false_r.
  destruct (required f); simpl.
  - case_bool_decide; reflexivity.
  - rewrite andb_false_r. reflexivity.
Qed.

Lemma X21_witness :
  fst (validateField (textField "email" "email" "INPUT" "   ") []) = false.
Proof.
  rewrite (X21_white_space_is_not_content (textField "email" "email" "INPUT" "   ") []);
    reflexivity.
Defined.

(** X23. Loading and back: on a control that is enabled, has
    [aria-disabled] at false and does not carry the class [loading],
    entering the loading state and leaving it with the text the control
    had gives the control back exactly as it was. *)
Theorem X23_loading_state_round_trip (b : button) :
  disabled b = false ->
  ariaDisabled b = Some "false" ->
  "loading" ∉ classList b ->
  setLoadingState (setLoadingState b true "") false (textContent b) = b.
Proof.
  intros Hd Ha Hc. destruct b as [dis aria text classes]. simpl in *. subst dis aria.
  unfold setLoadingState. simpl. f_equal.
  unfold classList_add. rewrite bool_decide_eq_false_2 by exact Hc.
  unfold classList_remove. rewrite filter_app.
  replace (filter (fun x : string => x <> "loading") ["loading"]) with (@nil string)
    by (vm_compute; reflexivity).
  rewrite app_nil_r.
  clear -Hc. induction classes as [|c cs IH]; [reflexivity|].
  rewrite filter_cons. apply not_elem_of_cons in Hc as [Hne Hcs].
  rewrite decide_True by congruence. rewrite (IH Hcs). reflexivity.
Qed.

Lemma X23_witness :
  setLoadingState
    (setLoadingState
       {| disabled := false; ariaDisabled := Some "false";
          textContent := "Get Free Premium Assessment"; classList := ["btn-primary"] |}
       true "")
    false "Get Free Premium Assessment"
  = {| disabled := false; ariaDisabled := Some "false";
       textContent := "Get Free Premium Assessment"; classList := ["btn-primary"] |}.
Proof.
  apply (X23_loading_state_round_trip
           {| disabled := false; ariaDisabled := Some "false";
              textContent := "Get Free Premium Assessment"; classList := ["btn-primary"] |}).
  - reflexivity.
  - reflexivity.
  - intros H. apply elem_of_cons in H as [H | H]; [discriminate H|].
    apply elem_of_nil in H. exact H.
Defined.

Lemma resetFields_values (fs : list field) :
  map fieldValue (resetFields (validatedFields fs)) = map defaultValue fs.
Proof.
  unfold resetFields, validatedFields. rewrite !map_map. apply map_ext. intros f.
  reflexivity.
Qed.

(** X19. The two ends of a sent form, in a browser that throws nothing
    and runs no other handler meanwhile.  When the simulated call
    resolves (a draw of at least one tenth) the form is reset, every
    field back at its default value, the thanks are shown and the data
    is logged.  When it rejects (a draw below one tenth) the fields keep
    what the user typed, the notice of the error is shown and the error
    is logged.  Either way the handler itself ends normally. *)
Theorem X19_sent_form_resets_only_on_success (draw : Q) (now : Z) (d : document)
    (b : button) :
  fst (SecurityFramework.checkRateLimit now "form_submission" 3 (rateLimitStore d)) = true ->
  allValid (fields d) ->
  submitButton d = Some b ->
  snd (handleFormSubmission (calmBrowser draw) now d) = Normal tt /\
  ((1 # 10 <= draw)%Q ->
   map fieldValue (fields (fst (handleFormSubmission (calmBrowser draw) now d)))
     = map defaultValue (fields d) /\
   globalNotification (fst (handleFormSubmission (calmBrowser draw) now d))
     = Some {| message :=
                 "Thank you! We have received your inquiry and will contact you within 24 hours.";
               kind := "success" |} /\
   exists data,
     console (fst (handleFormSubmission (calmBrowser draw) now d))
     = (console d ++ [ConsoleLog "Form data would be sent to:" data])%list) /\
  ((draw < 1 # 10)%Q ->
   map fieldValue (fields (fst (handleFormSubmission (calmBrowser draw) now d)))
     = map fieldValue (fields d) /\
   globalNotification (fst (handleFormSubmission (calmBrowser draw) now d))
     = Some {| message :=
                 "Sorry, there was an error sending your message. Please try again or contact us directly.";
               kind := "error" |} /\
   console (fst (handleFormSubmission (calmBrowser draw) now d))
     = (console d ++ [ConsoleError "Form submission error:" (Error "Network error")])%list).
Proof.
  intros Hok Hval Hbtn.
  rewrite (handleFormSubmission_valid (calmBrowser draw) now d Hok
             (forallb_verdict_true _ Hval)).
  cbv zeta. rewrite Hbtn.
  unfold try_catch_finally, bindM, collectFormData, processFormSubmission,
    showNotification, formReset, setLoading, raiseIf, get, ret, modify, throw, bindM.
  simpl. destruct (Qle_bool (1 # 10) draw) eqn:E; simpl.
  - split; [reflexivity|]. split.
    + intros _. split; [apply resetFields_values|]. split; [reflexivity|].
      eexists. reflexivity.
    + intros Hlt. apply Qle_bool_iff in E. exfalso. apply (Qlt_not_le _ _ Hlt E).
  - split; [reflexivity|]. split.
    + intros Hle. apply Qle_bool_iff in Hle. congruence.
    + intros _. split; [apply validatedFields_values|]. split; reflexivity.
Qed.

Lemma X19_witness :
  map fieldValue
    (fields (fst (handleFormSubmission (calmBrowser (1 # 20)) 1000 contactDocument)))
  = map fieldValue (fields contactDocument) /\
  map fieldValue
    (fields (fst (handleFormSubmission (calmBrowser (1 # 2)) 1000 contactDocument)))
  = map defaultValue (fields contactDocument).
Proof.
  split.
  - destruct (X19_sent_form_resets_only_on_success (1 # 20) 1000 contactDocument
                contactButton) as (_ & _ & Hfail).
    + vm_compute. reflexivity.
    + repeat constructor.
    + reflexivity.
    + apply Hfail. reflexivity.
  - destruct (X19_sent_form_resets_only_on_success (1 # 2) 1000 contactDocument
                contactButton) as (_ & Hgood & _).
    + vm_compute. reflexivity.
    + repeat constructor.
    + reflexivity.
    + apply Hgood. discriminate.
Defined.

End FormFacts.

(** ** More on the router *)

Section RouterRuns.
Import JS NavigationSystem Site RouterShapes.

Lemma target_valid (page : string) : target page ∈ validPages.
Proof.
  unfold target. destruct (isValidPage page) eqn:E.
  - apply isValidPage_true. exact E.
  - unfold validPages. apply list_elem_of_here.
Qed.

Lemma navigateTo_state env now page st :
  currentPage (navigateTo env now page st) = target page /\
  hash (navigateTo env now page st) = target page /\
  navLinks (navigateTo env now page st) = navLinks (updateActiveNav (target page) st) /\
  pendingHashChanges (navigateTo env now page st)
  = (if bool_decide (hash st = target page) then pendingHashChanges st
     else S (pendingHashChanges st)).
Proof.
  unfold navigateTo. fold (target page).
  destruct (loadPageContent_frame env now (target page)
              (updateActiveNav (target page)
                 (set_hash (target page) (set_page (target page) st))))
    as (H1 & H2 & H3 & H4).
  rewrite H1, H2, H3, H4. repeat split.
Qed.

Lemma updateActiveNav_highlights page st :
  highlights page (navLinks (updateActiveNav page st)).
Proof.
  unfold highlights, updateActiveNav. simpl. apply Forall_map.
  apply Forall_forall. intros link _. simpl. split; reflexivity.
Qed.

Lemma updateActiveNav_pages page st :
  map dataPage (navLinks (updateActiveNav page st)) = map dataPage (navLinks st).
Proof. unfold updateActiveNav. simpl. rewrite map_map. reflexivity. Qed.

(** X24. Through any run of navigations the page key stays one of the
    five, and after the first navigation the fragment equals the page
    key and the links are marked for it, whether the content loaded or
    not. *)
Theorem X24_router_state_stays_consistent (env : environment)
    (calls : list (Z * string)) (st : state) :
  currentPage st ∈ validPages ->
  currentPage (navigateAll env calls st) ∈ validPages /\
  (calls <> [] ->
   hash (navigateAll env calls st) = currentPage (navigateAll env calls st) /\
   highlights (currentPage (navigateAll env calls st))
     (navLinks (navigateAll env calls st))).
Proof.
  revert st. induction calls as [|[now page] rest IH]; intros st Hst.
  - split; [exact Hst | congruence].
  - simpl. destruct (navigateTo_state env now page st) as (H1 & H2 & H3 & _).
    destruct (IH (navigateTo env now page st)) as [IH1 IH2].
    { rewrite H1. apply target_valid. }
    split; [exact IH1|]. intros _.
    destruct rest as [|next rest'].
    + simpl. rewrite H1, H2, H3. split; [reflexivity | apply updateActiveNav_highlights].
    + apply IH2. discriminate.
Qed.

Lemma X24_witness :
  currentPage (navigateAll asWritten [(1000, "models"); (2000, "pricing")] startPage)
    ∈ validPages.
Proof.
  apply (X24_router_state_stays_consistent asWritten [(1000, "models"); (2000, "pricing")]
           startPage).
  apply list_elem_of_here.
Defined.

Lemma validPages_cases (page : string) :
  page ∈ validPages ->
  page = "home" \/ page = "solutions" \/ page = "models" \/ page = "calculator"
  \/ page = "contact".
Proof.
  unfold validPages. intros H.
  repeat (apply elem_of_cons in H; destruct H as [H|H]; [tauto|]).
  apply elem_of_nil in H. contradiction.
Qed.

(** X25. When the links of the navigation are those of the five pages,
    after a navigation exactly one of them carries the class [active]:
    the link of the current page. *)
Theorem X25_exactly_one_link_is_active (env : environment) (now : Z) (page : string)
    (st : state) :
  map dataPage (navLinks st) = validPages ->
  map dataPage (navLinks (navigateTo env now page st)) = validPages /\
  map dataPage (activeLinks (navLinks (navigateTo env now page st)))
  = [currentPage (navigateTo env now page st)].
Proof.
  intros Hlinks.
  destruct (navigateTo_state env now page st) as (H1 & _ & H3 & _).
  rewrite H1, H3. split.
  - rewrite updateActiveNav_pages. exact Hlinks.
  - unfold updateActiveNav, activeLinks. simpl.
    destruct (navLinks st) as [|l1 [|l2 [|l3 [|l4 [|l5 [|l6 rest]]]]]];
      try discriminate Hlinks.
    destruct l1 as [d1 a1 c1], l2 as [d2 a2 c2], l3 as [d3 a3 c3], l4 as [d4 a4 c4],
             l5 as [d5 a5 c5].
    unfold validPages in Hlinks. simpl in Hlinks.
    injection Hlinks as -> -> -> -> ->.
    destruct (validPages_cases _ (target_valid page)) as [-> | [-> | [-> | [-> | ->]]]];
      vm_compute; reflexivity.
Qed.

Lemma X25_witness :
  map dataPage (activeLinks (navLinks (navigateTo asWritten 1000 "models" startPage)))
  = [currentPage (navigateTo asWritten 1000 "models" startPage)].
Proof.
  apply (X25_exactly_one_link_is_active asWritten 1000 "models" startPage).
  reflexivity.
Defined.

Lemma isEmpty_valid (page : string) : page ∈ validPages -> isEmpty page = false.
Proof.
  intros H.
  destruct (validPages_cases _ H) as [-> | [-> | [-> | [-> | ->]]]]; reflexivity.
Qed.

Lemma target_fixed (page : string) : page ∈ validPages -> target page = page.
Proof. intros H. unfold target. apply isValidPage_true in H. rewrite H. reflexivity. Qed.

(** X26. The router does not drive itself in a circle.  A navigation
    queues at most one [hashchange] event, and none when the fragment
    already names the page; handling that event navigates to the same
    page again and queues no further event: the page key, the fragment
    and the marks on the links stay. *)
Theorem X26_a_navigation_queues_at_most_one_more (env : environment) (now1 now2 : Z)
    (page : string) (st : state) :
  pendingHashChanges st = 0%nat ->
  pendingHashChanges (navigateTo env now1 page st)
  = (if bool_decide (hash st = target page) then 0%nat else 1%nat) /\
  pendingHashChanges (hashchange env now2 (navigateTo env now1 page st)) = 0%nat /\
  currentPage (hashchange env now2 (navigateTo env now1 page st)) = target page /\
  hash (hashchange env now2 (navigateTo env now1 page st)) = target page /\
  navLinks (hashchange env now2 (navigateTo env now1 page st))
  = navLinks (navigateTo env now1 page st).
Proof.
  intros Hpending.
  destruct (navigateTo_state env now1 page st) as (H1 & H2 & H3 & H4).
  rewrite Hpending in H4. split; [exact H4|].
  unfold hashchange. destruct (pendingHashChanges (navigateTo env now1 page st)) eqn:E.
  - repeat split; assumption.
  - assert (En : n = 0%nat) by (case_bool_decide; congruence). subst n.
    unfold handleRouteChange. cbn [hash].
    rewrite H2, (isEmpty_valid _ (target_valid page)).
    match goal with |- context [navigateTo env now2 (target page) ?s] =>
      destruct (navigateTo_state env now2 (target page) s) as (K1 & K2 & K3 & K4) end.
    rewrite (target_fixed _ (target_valid page)) in K1, K2, K3, K4.
    cbn [hash pendingHashChanges] in K4. rewrite ?H2 in K4.
    rewrite bool_decide_eq_true_2 in K4 by reflexivity.
    rewrite K1, K2, K3, K4. repeat split.
    rewrite H3. unfold updateActiveNav. cbn [navLinks set_navLinks].
    rewrite map_map. reflexivity.
Qed.

Lemma X26_witness :
  pendingHashChanges (hashchange supplied 1001 (navigateTo supplied 1000 "pricing" startPage))
  = 0%nat.
Proof.
  apply (X26_a_navigation_queues_at_most_one_more supplied 1000 1001 "pricing" startPage).
  reflexivity.
Defined.

Lemma generatePageContent_throws_everywhere (env : environment) (page page' : string)
    (e : error) :
  generatePageContent env page = Throw e -> generatePageContent env page' = Throw e.
Proof.
  unfold generatePageContent, generateHomePage. simpl.
  destruct (generateSolutionsPage env) as [solutions|e1]; simpl; [|trivial].
  destruct (generateModelsPage env) as [models|e2]; simpl; [|trivial].
  destruct (generateCalculatorPage env) as [calculator|e3]; simpl; [|trivial].
  destruct (generateContactPage env) as [contact|e4]; simpl; [|trivial].
  intros H. exfalso.
  repeat (case_bool_decide;
          [match type of H with
           | (if isEmpty ?c then _ else _) = _ => destruct (isEmpty c); discriminate H
           end|]).
  discriminate H.
Qed.

(** X27. Generating the content of a page evaluates all five templates:
    when it throws for one page key it throws the same error for every
    page key, and when it returns, the markup is never empty (an empty
    template is replaced by the home page). *)
Theorem X27_content_fails_for_every_page_or_none (env : environment) (page : string) :
  (forall e page', generatePageContent env page = Throw e ->
                   generatePageContent env page' = Throw e) /\
  (forall content, generatePageContent env page = Normal content ->
                   isEmpty content = false).
Proof.
  split.
  - intros e page'. apply generatePageContent_throws_everywhere.
  - unfold generatePageContent, generateHomePage. simpl.
    destruct (generateSolutionsPage env) as [solutions|e1]; simpl; [|discriminate].
    destruct (generateModelsPage env) as [models|e2]; simpl; [|discriminate].
    destruct (generateCalculatorPage env) as [calculator|e3]; simpl; [|discriminate].
    destruct (generateContactPage env) as [contact|e4]; simpl; [|discriminate].
    intros content H.
    repeat (case_bool_decide;
            [match type of H with
             | (if isEmpty ?c then _ else _) = _ =>
                 destruct (isEmpty c) eqn:E; inversion H; subst;
                 [reflexivity | exact E]
             end|]).
    inversion H. reflexivity.
Qed.

(** A run of navigations in which generating the content throws. *)
Lemma navigateAll_nothing_loads (env : environment) (e : error)
    (calls : list (Z * string)) (st : state) :
  generatePageContent env "home" = Throw e ->
  main (navigateAll env calls st) = main st /\
  documentListeners (navigateAll env calls st) = documentListeners st /\
  constructed (navigateAll env calls st) = constructed st /\
  rateLimitStore (navigateAll env calls st) = rateLimitStore st /\
  console (navigateAll env calls st)
  = (console st ++ repeat (ErrorLoadingPage e) (length calls))%list /\
  unhandledRejections (navigateAll env calls st)
  = (unhandledRejections st
     ++ repeat (TypeError "this.loadErrorPage is not a function") (length calls))%list.
Proof.
  intros He. revert st. induction calls as [|[now page] rest IH]; intros st.
  - simpl. rewrite !app_nil_r. repeat split.
  - cbn [navigateAll length repeat].
    destruct (IH (navigateTo env now page st)) as (I1 & I2 & I3 & I4 & I5 & I6).
    rewrite I1, I2, I3, I4, I5, I6.
    unfold navigateTo, loadPageContent.
    rewrite (generatePageContent_throws_everywhere env "home" _ e He).
    simpl. rewrite <- !app_assoc. repeat split.
Qed.

(** X28. When generating the content throws, no navigation of a run
    loads anything: [main], the listeners on the document, the number
    of coordinators constructed and the store of the rate limiter stay
    as they were, and every navigation logs the error and leaves one
    rejected promise. *)
Theorem X28_nothing_loads_when_a_template_throws (env : environment) (e : error)
    (calls : list (Z * string)) (st : state) :
  generatePageContent env "home" = Throw e ->
  main (navigateAll env calls st) = main st /\
  documentListeners (navigateAll env calls st) = documentListeners st /\
  constructed (navigateAll env calls st) = constructed st /\
  rateLimitStore (navigateAll env calls st) = rateLimitStore st /\
  console (navigateAll env calls st)
  = (console st ++ repeat (ErrorLoadingPage e) (length calls))%list /\
  unhandledRejections (navigateAll env calls st)
  = (unhandledRejections st
     ++ repeat (TypeError "this.loadErrorPage is not a function") (length calls))%list.
Proof. apply navigateAll_nothing_loads. Qed.

Lemma X28_witness :
  main (navigateAll asWritten [(1000, "calculator"); (2000, "contact")] startPage)
  = main startPage.
Proof.
  apply (X28_nothing_loads_when_a_template_throws asWritten
           (TypeError "this.generateSolutionsPage is not a function")
           [(1000, "calculator"); (2000, "contact")] startPage).
  reflexivity.
Defined.

(** C2 fails on the code.  As the scripts are written no page
    coordinator is ever mounted: generating the content of any page
    throws, because the four generators that [generatePageContent] calls
    are not defined, so [initializePageFunctionality] is never reached.
    Through any run of navigations from the start page no [FormHandler]
    and no [Calculator] is constructed and none listens; after two
    navigations to contact the number of mounted coordinators is
    therefore 0 and not 1, and each of the two navigations has ended in
    a rejected promise. *)
Theorem C2_no_coordinator_is_ever_mounted (calls : list (Z * string)) :
  listening (navigateAll asWritten calls startPage) = [] /\
  constructed (navigateAll asWritten calls startPage) = 0%nat /\
  length (listening (navigateAll asWritten [(1000, "contact"); (2000, "contact")] startPage))
    <> 1%nat /\
  currentPage (navigateAll asWritten [(1000, "contact"); (2000, "contact")] startPage)
    = "contact" /\
  unhandledRejections
    (navigateAll asWritten [(1000, "contact"); (2000, "contact")] startPage)
  = [TypeError "this.loadErrorPage is not a function";
     TypeError "this.loadErrorPage is not a function"].
Proof.
  destruct (navigateAll_nothing_loads asWritten
              (TypeError "this.generateSolutionsPage is not a function") calls startPage
              eq_refl) as (Hmain & Hdoc & Hcon & _).
  split.
  - unfold listening. rewrite Hmain, Hdoc. reflexivity.
  - split; [rewrite Hcon; reflexivity|].
    repeat split; try (vm_compute; reflexivity). vm_compute. discriminate.
Qed.

End RouterRuns.

(** ** The mobile menu *)

Section MobileMenuFacts.
Import MobileMenu.

Lemma handle_inStep (e : event) (m : menu) : inStep m -> inStep (handle e m).
Proof.
  intros [[Ha Hc] | [Ha Hc]]; destruct e as [| |key]; unfold inStep; simpl.
  - right. rewrite Ha, Hc. split; reflexivity.
  - right. split; reflexivity.
  - unfold keydown. case_bool_decide; [right; split; reflexivity | left; split; assumption].
  - left. rewrite Ha, Hc. split; reflexivity.
  - right. split; reflexivity.
  - unfold keydown. case_bool_decide; right; split; try reflexivity; assumption.
Qed.

Lemma handleAll_app (events1 events2 : list event) (m : menu) :
  handleAll (events1 ++ events2)%list m = handleAll events2 (handleAll events1 m).
Proof.
  revert m. induction events1 as [|e rest IH]; intros m; [reflexivity|]. simpl. apply IH.
Qed.

(** X29. Whatever is clicked or typed, the attribute [aria-expanded] of
    the menu button and the class [active] of the list of links agree:
    the attribute says true exactly when the list is shown.  A click on
    a link or the key Escape closes the menu; any other key leaves it
    as it is. *)
Theorem X29_menu_button_and_list_agree (events : list event) :
  inStep (handleAll events initialMenu) /\
  handleAll (events ++ [LinkClick]) initialMenu = initialMenu /\
  handleAll (events ++ [KeyDown "Escape"]) initialMenu = initialMenu /\
  (forall key, key <> "Escape" ->
               handleAll (events ++ [KeyDown key]) initialMenu
               = handleAll events initialMenu).
Proof.
  split; [|split; [|split]].
  - assert (H : forall m, inStep m -> inStep (handleAll events m)).
    { induction events as [|e rest IH]; intros m Hm; [exact Hm|].
      simpl. apply IH, handle_inStep, Hm. }
    apply H. right. split; reflexivity.
  - rewrite handleAll_app. reflexivity.
  - rewrite handleAll_app. reflexivity.
  - intros key Hkey. rewrite handleAll_app. simpl. unfold keydown.
    rewrite bool_decide_eq_false_2 by exact Hkey. reflexivity.
Qed.

End MobileMenuFacts.

(** ** Debouncing *)

Section DebounceFacts.
Import Debounce.

Lemma last_after {B : Type} (l : list B) : forall a d, List.last (a :: l) d = List.last l a.
Proof.
  induction l as [|b l IH]; intros a d; [reflexivity|].
  change (List.last (b :: l) d = List.last (b :: l) a). rewrite !IH. reflexivity.
Qed.

Lemma callAll_burst {A : Type} (wait : Z) (rest : list (Z * A)) :
  forall (start : Z) (args : A) (d : debounced A),
    timeout d = Some {| due := start + wait; arguments := args |} ->
    burst wait start rest ->
    callAll wait rest d
    = {| timeout := Some {| due := (List.last rest (start, args)).1 + wait;
                            arguments := (List.last rest (start, args)).2 |};
         invocations := invocations d |}.
Proof.
  induction rest as [|[now args'] rest IH]; intros start args d Hd Hburst.
  - simpl. destruct d as [t i]. simpl in Hd. subst t. reflexivity.
  - destruct Hburst as [Hnow Hrest].
    cbn [callAll]. rewrite (IH now args'); [| reflexivity | exact Hrest].
    rewrite last_after. f_equal.
    unfold executedFunction, elapse, expired. cbn [invocations]. rewrite Hd. cbn [due].
    destruct (Z.leb_spec (start + wait) now) as [Hle|_]; [lia|].
    apply app_nil_r.
Qed.

(** X30. A debounced function that is called in a burst, each call
    less than [wait] after the one before, does not invoke the wrapped
    function during the burst; once [wait] has passed after the last
    call it invokes it exactly once, with the arguments of the last
    call. *)
Theorem X30_burst_invokes_once_with_the_last_arguments {A : Type} (wait start until : Z)
    (first : A) (rest : list (Z * A)) (d : debounced A) :
  timeout d = None ->
  burst wait start rest ->
  (List.last rest (start, first)).1 + wait <= until ->
  invocations (callAll wait ((start, first) :: rest) d) = invocations d /\
  elapse until (callAll wait ((start, first) :: rest) d)
  = {| timeout := None;
       invocations := invocations d ++ [(List.last rest (start, first)).2] |}.
Proof.
  intros Hd Hburst Huntil. cbn [callAll].
  rewrite (callAll_burst wait rest start first); [| reflexivity | exact Hburst].
  assert (Hfirst : invocations (executedFunction wait start first d) = invocations d).
  { unfold executedFunction, elapse. cbn [invocations]. rewrite Hd. simpl.
    apply app_nil_r. }
  split; [exact Hfirst|].
  unfold elapse, pending, expired. cbn [timeout invocations due arguments].
  destruct (Z.leb_spec ((List.last rest (start, first)).1 + wait) until) as [_|Hlt]; [|lia].
  rewrite Hfirst. reflexivity.
Qed.

Lemma X30_witness :
  elapse 1000 (callAll 300 [(0, "2"); (120, "25"); (250, "250")] idle)
  = {| timeout := None; invocations := ["250"] |}.
Proof.
  apply (X30_burst_invokes_once_with_the_last_arguments 300 0 1000 "2"
           [(120, "25"); (250, "250")] idle).
  - reflexivity.
  - simpl. lia.
  - simpl. lia.
Defined.

End DebounceFacts.

(** ** The analytics *)

Section AnalyticsFacts.
Import JS PrivacyAnalytics.

Lemma tidy_app (log1 log2 : list entry) : tidy log1 -> tidy log2 -> tidy (log1 ++ log2)%list.
Proof.
  unfold tidy, clickTargets, fieldsLogged. intros [H1 H2] [K1 K2].
  rewrite !flat_map_app. split; apply Forall_app; split; assumption.
Qed.

(** What one event leaves alone, and what it adds to the log. *)
Lemma handle_frame (now : Z) (ev : event) (a : analytics) :
  sessionId (handle now ev a) = sessionId a /\
  pageViews (handle now ev a) = pageViews a /\
  exists added, console (handle now ev a) = (console a ++ added)%list /\ tidy added.
Proof.
  assert (Hnil : tidy []) by (split; constructor).
  assert (He : sessionId (elapse now a) = sessionId a /\
               pageViews (elapse now a) = pageViews a /\
               exists added, console (elapse now a) = (console a ++ added)%list /\
                             tidy added).
  { unfold elapse. destruct (Debounce.expired now (inputTimer a)) as [e|].
    - unfold calculatorInput. destruct (isCalculatorField e) eqn:E.
      + simpl. repeat split. eexists. split; [reflexivity|].
        unfold isCalculatorField in E. apply bool_decide_eq_true in E.
        split; simpl; [constructor | constructor; [exact E | constructor]].
      + simpl. repeat split. exists []. rewrite app_nil_r. split; [reflexivity | exact Hnil].
    - simpl. repeat split. exists []. rewrite app_nil_r. split; [reflexivity | exact Hnil]. }
  destruct He as (E1 & E2 & added1 & E3 & E4).
  unfold handle. destruct ev as [e|e|e].
  - unfold click. destruct (isButtonOrLocalLink e).
    + simpl. rewrite E1, E2, E3. repeat split. eexists. rewrite <- app_assoc.
      split; [reflexivity|]. apply tidy_app; [exact E4|].
      split; simpl; [constructor; [apply substring_length | constructor] | constructor].
    + rewrite E1, E2, E3. repeat split. exists added1. split; [reflexivity | exact E4].
  - simpl. rewrite E1, E2, E3. repeat split. exists added1. split; [reflexivity | exact E4].
  - unfold submit. case_bool_decide.
    + simpl. rewrite E1, E2, E3. repeat split. eexists. rewrite <- app_assoc.
      split; [reflexivity|]. apply tidy_app; [exact E4|]. split; simpl; constructor.
    + rewrite E1, E2, E3. repeat split. exists added1. split; [reflexivity | exact E4].
Qed.

Lemma handleAll_frame (events : list (Z * event)) : forall a : analytics,
  tidy (console a) ->
  sessionId (handleAll events a) = sessionId a /\
  pageViews (handleAll events a) = pageViews a /\
  tidy (console (handleAll events a)).
Proof.
  induction events as [|[now ev] rest IH]; intros a Ha.
  - repeat split; apply Ha.
  - simpl. destruct (handle_frame now ev a) as (H1 & H2 & added & H3 & H4).
    destruct (IH (handle now ev a)) as (I1 & I2 & I3).
    { rewrite H3. apply tidy_app; assumption. }
    rewrite I1, I2, H1, H2. repeat split; apply I3.
Qed.

(** X22. The analytics count one page view and no more: the page of
    the address at the time of construction (home when the address has
    no fragment) is recorded, and no click, input or submission ever
    adds another, so the summary always reports one page view.  The
    session identifier never changes; every click target written to the
    log has at most 50 characters, and every field written is one of
    the three inputs of the calculator. *)
Theorem X22_analytics_count_one_page_view (session : string) (now : Z)
    (locationHash referrer : string) (events : list (Z * event)) :
  getSummary (handleAll events (new session now locationHash referrer))
  = (session, 1%nat, [orElse (substring1 locationHash) "home"]) /\
  tidy (console (handleAll events (new session now locationHash referrer))).
Proof.
  destruct (handleAll_frame events (new session now locationHash referrer))
    as (H1 & H2 & H3).
  { split; simpl; constructor. }
  split; [|exact H3].
  unfold getSummary. rewrite H1, H2. reflexivity.
Qed.

End AnalyticsFacts.
